(** * annot: rendering of column annotations

    A shallow embedding of [annot.go] and [error.go] of the Go package
    [github.com/meyermarcel/annot], and the properties of the row placement
    and of the rendered text that follow from the code.

    Conventions of the embedding.

    - [Write] receives a slice of pointers ([...*Annot]) and mutates the
      annotations behind them.  An annotation object is identified with its
      position in the slice; the slice itself is the store that every
      [setRow] call and the final [write] share.  This is exact whenever the
      pointers passed are pairwise distinct.
    - Go's [int] is a 64-bit integer.  Arithmetic on columns and widths,
      which are supplied by the caller, wraps ([add64], [sub64]).  Row
      counters and slice indices count label lines and loop iterations; they
      are kept as plain [Z].
    - A run-time panic (index out of range, negative [strings.Repeat]
      count, nil dereference) is an explicit outcome, and so is running out
      of fuel in the only unbounded loop ([setRow]).
    - Strings are byte strings, as Go's are; the glyphs are their UTF-8
      encodings.
    - Of the packages [annot.go] imports, [slices.CompactFunc] and
      [slices.SortFunc] are written out as the standard library has them
      (the sort as the insertion sort it runs on short slices; the proofs
      use no more than that its result is the sorted permutation), and
      [uniseg.StringWidth] is a parameter. *)

From Stdlib Require Import ZArith String Ascii List Lia.
From Stdlib Require Import Sorting.Permutation Sorting.Sorted.
From stdpp Require Import base tactics option list strings sorting.

Local Open Scope string_scope.
Local Open Scope Z_scope.

(** ** Outcomes of a Go computation *)

Inductive panic : Set :=
| IndexOutOfRange
| NegativeRepeatCount
| NilDereference
| ShouldNeverBeReached.

Inductive outcome (A : Type) : Type :=
| Done (a : A)
| Panics (p : panic)
| OutOfFuel.

Arguments Done {A} a.
Arguments Panics {A} p.
Arguments OutOfFuel {A}.

#[global] Instance outcome_ret : MRet outcome := fun A a => Done a.

#[global] Instance outcome_bind : MBind outcome := fun A B f m =>
  match m with
  | Done a => f a
  | Panics p => Panics p
  | OutOfFuel => OutOfFuel
  end.

#[global] Instance outcome_fmap : FMap outcome := fun A B f m =>
  match m with
  | Done a => Done (f a)
  | Panics p => Panics p
  | OutOfFuel => OutOfFuel
  end.

(** ** Go's [int] *)

Definition wrap (z : Z) : Z := (z + 2 ^ 63) mod 2 ^ 64 - 2 ^ 63.
Definition add64 (a b : Z) : Z := wrap (a + b).
Definition sub64 (a b : Z) : Z := wrap (a - b).
Definition maxInt : Z := 2 ^ 63 - 1.

(** ** Slices *)

Definition len {A : Type} (l : list A) : Z := Z.of_nat (List.length l).

(** [s[i]]: panics outside [0 <= i < len(s)]. *)
Definition index {A : Type} (s : list A) (i : Z) : outcome A :=
  if (0 <=? i) && (i <? len s)
  then match s !! Z.to_nat i with
       | Some x => Done x
       | None => Panics IndexOutOfRange
       end
  else Panics IndexOutOfRange.

(** [s[i] = x]: panics outside [0 <= i < len(s)]. *)
Definition assign {A : Type} (s : list A) (i : Z) (x : A) : outcome (list A) :=
  if (0 <=? i) && (i <? len s)
  then Done (<[Z.to_nat i := x]> s)
  else Panics IndexOutOfRange.

(** [strings.Repeat(s, count)]: panics on a negative count. *)
Fixpoint repeatString (s : string) (n : nat) : string :=
  match n with
  | O => ""
  | S n' => s +:+ repeatString s n'
  end.

Definition Repeat (s : string) (count : Z) : outcome string :=
  if count <? 0 then Panics NegativeRepeatCount
  else Done (repeatString s (Z.to_nat count)).

(** ** error.go *)

(** The values of Go's [error] that occur: the two error types of
    [error.go], and whatever error a writer returns. *)
Inductive error : Type :=
| OverlapError (colEnd firstAnnotPos secondAnnotCol : Z)
| ColExceedsColEndError (annotPos col colEnd : Z)
| WriterError (msg : string).

Definition newOverlapError (colEnd firstAnnotPos secondAnnotCol : Z) : error :=
  OverlapError colEnd firstAnnotPos secondAnnotCol.

Definition newColExceedsColEndError (annotPos col colEnd : Z) : error :=
  ColExceedsColEndError annotPos col colEnd.

(** ** annot.go: the data *)

Module line.
Record t : Type := mk { length : Z; leadingSpaces : Z }.
End line.

Record Annot : Type := mkAnnot {
  Col : Z;
  Lines : list string;
  row : Z;
  lines : list line.t;
  pipeLeadingSpaces : list Z
}.

Inductive section : Set :=
| above
| linesFirstTwo
| linesAfterSecond
| trailingSpaceLines
| noAnnot.

(** An annotation as a caller builds it: [&Annot{Col: c, Lines: ls}]. *)
Definition newAnnot (c : Z) (ls : list string) : Annot :=
  {| Col := c; Lines := ls; row := 0; lines := []; pipeLeadingSpaces := [] |}.

(** [a.AppendLines(ls...)] *)
Definition AppendLines (a : Annot) (ls : list string) : Annot :=
  {| Col := Col a; Lines := Lines a ++ ls; row := row a; lines := lines a;
     pipeLeadingSpaces := pipeLeadingSpaces a |}.

(** Field updates. *)
Definition with_row (a : Annot) (r : Z) : Annot :=
  {| Col := Col a; Lines := Lines a; row := r; lines := lines a;
     pipeLeadingSpaces := pipeLeadingSpaces a |}.

Definition with_lines (a : Annot) (ls : list line.t) : Annot :=
  {| Col := Col a; Lines := Lines a; row := row a; lines := ls;
     pipeLeadingSpaces := pipeLeadingSpaces a |}.

Definition with_pipeLeadingSpaces (a : Annot) (ps : list Z) : Annot :=
  {| Col := Col a; Lines := Lines a; row := row a; lines := lines a;
     pipeLeadingSpaces := ps |}.

Definition with_leadingSpaces (l : line.t) (n : Z) : line.t :=
  {| line.length := line.length l; line.leadingSpaces := n |}.

(** Dereference of the pointer a [closestAnnot] call returned. *)
Definition deref (rightAnnots : list Annot) (p : option nat) : outcome Annot :=
  match p with
  | Some k => match rightAnnots !! k with
              | Some a => Done a
              | None => Panics NilDereference
              end
  | None => Panics NilDereference
  end.

(** [p.pipeLeadingSpaces[i] = v] *)
Definition setPipeLeadingSpace (rightAnnots : list Annot) (p : option nat)
    (i v : Z) : outcome (list Annot) :=
  match p with
  | Some k =>
      a ← deref rightAnnots p;
      ps ← assign (pipeLeadingSpaces a) i v;
      Done (<[k := with_pipeLeadingSpaces a ps]> rightAnnots)
  | None => Panics NilDereference
  end.

(** [p.lines[i].leadingSpaces = v] *)
Definition setLeadingSpaces (rightAnnots : list Annot) (p : option nat)
    (i v : Z) : outcome (list Annot) :=
  match p with
  | Some k =>
      a ← deref rightAnnots p;
      l ← index (lines a) i;
      ls ← assign (lines a) i (with_leadingSpaces l v);
      Done (<[k := with_lines a ls]> rightAnnots)
  | None => Panics NilDereference
  end.

(** ** annot.go: row placement *)

Fixpoint closestAnnot (row_ : Z) (rightAnnots : list Annot)
    (trailingVerticalSpaceLinesCount : Z) : option nat * section :=
  match rightAnnots with
  | [] => (None, noAnnot)
  | a :: rest =>
      if row_ <? a.(row) then (Some O, above)
      else if (a.(row) <=? row_) && (row_ <? a.(row) + len a.(lines)) && (row_ <? 2)
      then (Some O, linesFirstTwo)
      else if (2 <=? row_) && (row_ <? a.(row) + len a.(lines))
      then (Some O, linesAfterSecond)
      else if (a.(row) + len a.(lines) <=? row_)
              && (row_ <? a.(row) + len a.(lines) + trailingVerticalSpaceLinesCount)
      then (Some O, trailingSpaceLines)
      else let '(p, s) := closestAnnot row_ rest trailingVerticalSpaceLinesCount in
           (S <$> p, s)
  end.

Definition setSpace (rowBefore : Z) (a : Annot) (rightAnnots : list Annot)
    : outcome (list Annot) :=
  let '(rightA, s) := closestAnnot rowBefore rightAnnots 0 in
  match s with
  | above =>
      rA ← deref rightAnnots rightA;
      setPipeLeadingSpace rightAnnots rightA rowBefore
        (sub64 (sub64 (Col rA) (Col a)) 1)
  | linesFirstTwo | linesAfterSecond =>
      rA ← deref rightAnnots rightA;
      setLeadingSpaces rightAnnots rightA (rowBefore - row rA)
        (sub64 (sub64 (Col rA) (Col a)) 1)
  | noAnnot | trailingSpaceLines => Done rightAnnots
  end.

Definition checkLineAndSetSpace (row_ aLineIdx : Z) (a : Annot)
    (rightAnnots : list Annot) : outcome (bool * Annot * list Annot) :=
  let rowPlusLineIdx := row_ + aLineIdx in
  let '(closestA, s) := closestAnnot rowPlusLineIdx rightAnnots 1 in
  match s with
  | noAnnot => Done (true, a, rightAnnots)
  | _ =>
      l ← index (lines a) aLineIdx;
      let lineLength := add64 3 (line.length l) in
      cA ← deref rightAnnots closestA;
      let remainingSpaces := sub64 (sub64 (Col cA) (Col a)) lineLength in
      let tooLongForAboveOrLinesFirstTwo :=
        (match s with above | linesFirstTwo => true | _ => false end)
        && (remainingSpaces <? 2) in
      if (remainingSpaces <? 0) || tooLongForAboveOrLinesFirstTwo
      then Done (false,
                 with_pipeLeadingSpaces
                   (with_row a (a.(row) + 1))
                   (pipeLeadingSpaces a ++ [Col a]),
                 rightAnnots)
      else
        match s with
        | above =>
            rs ← setPipeLeadingSpace rightAnnots closestA rowPlusLineIdx
                   remainingSpaces;
            Done (true, a, rs)
        | linesFirstTwo | linesAfterSecond =>
            rs ← setLeadingSpaces rightAnnots closestA
                   (rowPlusLineIdx - row cA) remainingSpaces;
            Done (true, a, rs)
        | trailingSpaceLines =>
            let '(closestA2, s2) := closestAnnot rowPlusLineIdx rightAnnots 0 in
            match s2 with
            | noAnnot => Done (true, a, rightAnnots)
            | above =>
                cA2 ← deref rightAnnots closestA2;
                rs ← setPipeLeadingSpace rightAnnots closestA2 rowPlusLineIdx
                       (sub64 (sub64 (Col cA2) (Col a)) lineLength);
                Done (true, a, rs)
            | _ =>
                cA2 ← deref rightAnnots closestA2;
                rs ← setLeadingSpaces rightAnnots closestA2
                       (rowPlusLineIdx - row cA2)
                       (sub64 (sub64 (Col cA2) (Col a)) lineLength);
                Done (true, a, rs)
            end
        | noAnnot => Panics ShouldNeverBeReached
        end
  end.

Fixpoint checkLinesLoop (n : nat) (aLineIdx row_ : Z) (a : Annot)
    (rightAnnots : list Annot) : outcome (bool * Annot * list Annot) :=
  match n with
  | O => Done (true, a, rightAnnots)
  | S n' =>
      '(lineFits, a', rs) ← checkLineAndSetSpace row_ aLineIdx a rightAnnots;
      if lineFits : bool then checkLinesLoop n' (aLineIdx + 1) row_ a' rs
      else Done (false, a', rs)
  end.

(** [for aLineIdx := 0; aLineIdx < len(a.lines); aLineIdx++] *)
Definition checkLinesAndSetSpaces (row_ : Z) (a : Annot)
    (rightAnnots : list Annot) : outcome (bool * Annot * list Annot) :=
  checkLinesLoop (List.length (lines a)) 0 row_ a rightAnnots.

(** The body of [setRow]'s [for { ... }], entered with the local [row]. *)
Fixpoint setRowLoop (fuel : nat) (row_ : Z) (a : Annot)
    (rightAnnots : list Annot) : outcome (Annot * list Annot) :=
  match fuel with
  | O => OutOfFuel
  | S fuel' =>
      let rowBefore := row_ - 1 in
      rs ← (if rowBefore =? -1 then Done rightAnnots
            else setSpace rowBefore a rightAnnots);
      '(annotFits, a', rs') ← checkLinesAndSetSpaces row_ a rs;
      if annotFits : bool then Done (a', rs')
      else setRowLoop fuel' (row_ + 1) a' rs'
  end.

(** One more than the last row any right annotation still constrains. *)
Definition rowBound (rightAnnots : list Annot) : Z :=
  foldr (fun a m => Z.max m (row a + len (lines a) + 1)) 0 rightAnnots.

Definition setRow (a : Annot) (rightAnnots : list Annot)
    : outcome (Annot * list Annot) :=
  setRowLoop (S (Z.to_nat (rowBound rightAnnots))) 0 a rightAnnots.

(** ** The standard library calls of [Write] *)

(** [slices.CompactFunc(annots, eq)] with [eq] comparing [Col]: an element
    is dropped when it equals its predecessor. *)
Fixpoint compactAfter (prev : Annot) (s : list Annot) : list Annot :=
  match s with
  | [] => []
  | a :: rest =>
      if Col a =? Col prev then compactAfter a rest
      else a :: compactAfter a rest
  end.

Definition CompactFunc (s : list Annot) : list Annot :=
  match s with
  | [] => []
  | a :: rest => a :: compactAfter a rest
  end.

(** [slices.SortFunc(annots, cmp)] with [cmp(a, b) = a.Col - b.Col].  For
    slices of at most twelve elements Go runs the insertion sort below: each
    element moves left past the elements it compares less than.  The prefix
    already sorted is kept reversed.  Longer slices are sorted by a
    pattern-defeating quicksort, with the same result whenever the columns
    are pairwise distinct. *)
Definition cmpCol (a b : Annot) : Z := sub64 (Col a) (Col b).

Fixpoint insertLeft (x : Annot) (revPrefix : list Annot) : list Annot :=
  match revPrefix with
  | [] => [x]
  | y :: rest =>
      if cmpCol x y <? 0 then y :: insertLeft x rest
      else x :: y :: rest
  end.

Definition SortFunc (s : list Annot) : list Annot :=
  rev (fold_left (fun revPrefix x => insertLeft x revPrefix) s []).

(** ** The writer *)

Class Writer (W : Type) : Type :=
  Fprint : W -> string -> W * option error.

(** [strings.Builder]: never fails. *)
Definition Builder : Type := string.

#[global] Instance Builder_Writer : Writer Builder :=
  fun b s => (b +:+ s, None).

Definition newline : string := String (ascii_of_nat 10) EmptyString.

(** ** annot.go: [write] *)

Fixpoint writeArrows (annots : list Annot) (b : string)
    (lastColPos rowCount : Z) : outcome (string * Z) :=
  match annots with
  | [] => Done (b, rowCount)
  | a :: rest =>
      sp ← Repeat " " (sub64 (Col a) lastColPos);
      writeArrows rest (b +:+ sp +:+ "↑") (add64 (Col a) 1)
        (Z.max rowCount (row a + len (lines a)))
  end.

Definition writeSegment (row_ : Z) (a : Annot) (b : string) : outcome string :=
  if row_ <? row a then
    n ← index (pipeLeadingSpaces a) row_;
    sp ← Repeat " " n;
    Done (b +:+ sp +:+ "│")
  else if row_ =? row a then
    l ← index (lines a) (row_ - row a);
    sp ← Repeat " " (line.leadingSpaces l);
    if len (Lines a) =? 0 then Done (b +:+ sp +:+ "└─ ")
    else
      s ← index (Lines a) 0;
      Done (b +:+ sp +:+ "└─ " +:+ s)
  else if row_ <? row a + len (lines a) then
    l ← index (lines a) (row_ - row a);
    sp ← Repeat " " (line.leadingSpaces l);
    s ← index (Lines a) (row_ - row a);
    Done (b +:+ sp +:+ "   " +:+ s)
  else Done b.

Fixpoint writeRow (row_ : Z) (annots : list Annot) (b : string)
    : outcome string :=
  match annots with
  | [] => Done b
  | a :: rest =>
      b' ← writeSegment row_ a b;
      writeRow row_ rest b'
  end.

(** [for row := ...; row < rowCount; row++] with [n] rows left. *)
Fixpoint writeRows {W : Type} `{Writer W} (n : nat) (row_ : Z) (w : W)
    (annots : list Annot) : outcome (W * option error) :=
  match n with
  | O => Done (w, None)
  | S n' =>
      b ← writeRow row_ annots "";
      match Fprint w (b +:+ newline) with
      | (w', Some err) => Done (w', Some err)
      | (w', None) => writeRows n' (row_ + 1) w' annots
      end
  end.

Definition write {W : Type} `{Writer W} (writer : W) (annots : list Annot)
    : outcome (W * option error) :=
  '(b, rowCount) ← writeArrows annots "" 0 0;
  match Fprint writer (b +:+ newline) with
  | (w', Some err) => Done (w', Some err)
  | (w', None) => writeRows (Z.to_nat rowCount) 0 w' annots
  end.

(** ** annot.go: [Write] and [String] *)

Section WithStringWidth.

(** [uniseg.StringWidth]: the number of terminal cells a string takes. *)
Variable StringWidth : string -> Z.

(** The body of [for _, a := range annots] at the head of [Write]. *)
Definition createLines (a : Annot) : Annot :=
  if len (Lines a) =? 0
  then with_lines a (lines a ++ [line.mk 0 0])
  else with_pipeLeadingSpaces
         (with_lines a
            (map (fun s => line.mk (StringWidth s) (Col a)) (Lines a)))
         [].

(** [for aIdxDecr := n - 1; 0 <= aIdxDecr; aIdxDecr--] *)
Fixpoint setRows (n : nat) (annots : list Annot) : outcome (list Annot) :=
  match n with
  | O => Done annots
  | S aIdxDecr =>
      match drop aIdxDecr annots with
      | a :: rightAnnots =>
          '(a', rs) ← setRow a rightAnnots;
          setRows aIdxDecr (take aIdxDecr annots ++ a' :: rs)
      | [] => Panics IndexOutOfRange
      end
  end.

(** What [Write] does between its test for an empty slice and its call of
    [write]: the sort, the loop that creates the lines and the loop that
    sets the rows. *)
Definition place (annots : list Annot) : outcome (list Annot) :=
  let annots := SortFunc annots in
  let annots := map createLines annots in
  setRows (List.length annots - 1) annots.

(** The result holds the annotations as the call leaves them, in the order
    of the slice, the writer and the error returned. *)
Definition Write {W : Type} `{Writer W} (w : W) (annots : list Annot)
    : outcome (list Annot * W * option error) :=
  let annots := CompactFunc annots in
  if len annots =? 0 then Done (annots, w, None)
  else
    annots ← place annots;
    '(w', err) ← write w annots;
    Done (annots, w', err).

Definition String (annots : list Annot) : outcome (list Annot * string) :=
  '(annots', b, _) ← Write ("" : Builder) annots;
  Done (annots', b).

End WithStringWidth.

(** Width of a string of printable ASCII characters. *)
Definition asciiWidth (s : string) : Z := Z.of_nat (String.length s).

(** ** Notions used by the statements *)

(** The horizontal-fit check of [checkLineAndSetSpace], without its writes:
    does label line [aLineIdx] of [a] fit when [a] is tried at [row_]? *)
Definition lineFits (row_ aLineIdx : Z) (a : Annot)
    (rightAnnots : list Annot) : bool :=
  let '(closestA, s) := closestAnnot (row_ + aLineIdx) rightAnnots 1 in
  match s with
  | noAnnot => true
  | _ =>
      match index (lines a) aLineIdx, deref rightAnnots closestA with
      | Done l, Done cA =>
          let remainingSpaces :=
            sub64 (sub64 (Col cA) (Col a)) (add64 3 (line.length l)) in
          negb ((remainingSpaces <? 0)
                || (match s with above | linesFirstTwo => true | _ => false end)
                   && (remainingSpaces <? 2))
      | _, _ => false
      end
  end.

(** Every label line of [a] fits at candidate row [row_]. *)
Definition annotFits (row_ : Z) (a : Annot) (rightAnnots : list Annot) : bool :=
  forallb (fun i => lineFits row_ (Z.of_nat i) a rightAnnots)
    (seq 0 (List.length (lines a))).

(** An annotation no [Write] call has touched yet. *)
Definition fresh (a : Annot) : Prop :=
  row a = 0 /\ lines a = [] /\ pipeLeadingSpaces a = [].

(** A column a caller may pass: a non-negative [int]. *)
Definition validCol (a : Annot) : Prop := 0 <= Col a <= maxInt.

(** What [checkLineAndSetSpace] makes of [a] when it rejects a line:
    [a.row++] and the fallback pipe space appended. *)
Definition pushedDown (a : Annot) : Annot :=
  with_pipeLeadingSpaces (with_row a (row a + 1)) (pipeLeadingSpaces a ++ [Col a]).

(** The text of a header row: one cell per column, an arrow or a blank. *)
Definition headerCells (cells : list bool) : string :=
  foldr (fun (c : bool) s => (if c then "↑" else " ") +:+ s) "" cells.

(** The text a [String] call returned. *)
Definition rendered (o : outcome (list Annot * string)) : outcome string :=
  snd <$> o.

(** A writer that is closed: every write fails. *)
Inductive closedWriter : Type := Closed.

#[global] Instance closedWriter_Writer : Writer closedWriter :=
  fun w _ => (w, Some (WriterError "closed")).

(** The section of right annotation [N] that row [r] falls in: the chain of
    tests of one iteration of [closestAnnot]'s loop. *)
Definition sectionOf (r : Z) (N : Annot) (t : Z) : section :=
  if r <? row N then above
  else if (row N <=? r) && (r <? row N + len (lines N)) && (r <? 2)
  then linesFirstTwo
  else if (2 <=? r) && (r <? row N + len (lines N)) then linesAfterSecond
  else if (row N + len (lines N) <=? r) && (r <? row N + len (lines N) + t)
  then trailingSpaceLines
  else noAnnot.

Definition inSection (r : Z) (N : Annot) (t : Z) (s : section) : Prop :=
  match s with
  | above => r < row N
  | linesFirstTwo => row N <= r < row N + len (lines N) /\ r < 2
  | linesAfterSecond => row N <= r /\ 2 <= r < row N + len (lines N)
  | trailingSpaceLines =>
      row N + len (lines N) <= r < row N + len (lines N) + t
  | noAnnot => False
  end.

(** Two states of an annotation that differ at most in the values of the
    leading spaces: the placement of the annotations to the left writes
    those and nothing else. *)
Definition sameShape (a b : Annot) : Prop :=
  Col a = Col b /\ Lines a = Lines b /\ row a = row b
  /\ map line.length (lines a) = map line.length (lines b)
  /\ List.length (pipeLeadingSpaces a) = List.length (pipeLeadingSpaces b).

(** Every row above the annotation has its pipe slot. *)
Definition hasPipeSlots (a : Annot) : Prop := row a <= len (pipeLeadingSpaces a).

(** [n] rejected candidate rows. *)
Fixpoint pushedDownBy (n : nat) (a : Annot) : Annot :=
  match n with
  | O => a
  | S n' => pushedDownBy n' (pushedDown a)
  end.

(** The row of [a] is the first candidate row, counted from 0, at which
    every label line of [a] fits next to [rightAnnots]. *)
Definition minimalRow (a : Annot) (rightAnnots : list Annot) : Prop :=
  0 <= row a /\ annotFits (row a) a rightAnnots = true
  /\ forall r, 0 <= r < row a -> annotFits r a rightAnnots = false.

(** What the caller supplied, and the widths computed from it. *)
Definition sameLabel (a b : Annot) : Prop :=
  Col a = Col b /\ Lines a = Lines b
  /\ map line.length (lines a) = map line.length (lines b).

Definition colLe (a b : Annot) : Prop := Col a <= Col b.
Definition colLt (a b : Annot) : Prop := Col a < Col b.

(** Is there an annotation at column [c]? *)
Definition isCol (annots : list Annot) (c : nat) : bool :=
  existsb (fun a => Col a =? Z.of_nat c) annots.

(** The number of cells of the header row. *)
Definition headerWidth (annots : list Annot) : nat :=
  match last annots with
  | Some a => Z.to_nat (Col a + 1)
  | None => O
  end.

(** [max(a.row + len(a.lines))] over the annotations. *)
Definition rowCountOf (annots : list Annot) : Z :=
  fold_left (fun m a => Z.max m (row a + len (lines a))) annots 0.

(** No blank count is negative. *)
Definition nonneg (a : Annot) : Prop :=
  Forall (fun n => 0 <= n) (pipeLeadingSpaces a)
  /\ Forall (fun l => 0 <= line.leadingSpaces l) (lines a).

(** [a.lines] runs parallel to [a.Lines], with one entry when there is no
    label line. *)
Definition linesOK (a : Annot) : Prop :=
  (Lines a = [] /\ List.length (lines a) = 1%nat)
  \/ (Lines a <> [] /\ List.length (lines a) = List.length (Lines a)).

(** The widths leave room for the three cells of the connector. *)
Definition widthsOK (a : Annot) : Prop :=
  Forall (fun w => 0 <= w <= maxInt - 3) (map line.length (lines a)).

(** What a [setRow] call relies on: [a] stands left of the annotations
    [rightAnnots], which are in strictly increasing columns, and no blank
    count written so far is negative. *)
Definition placing (a : Annot) (rightAnnots : list Annot) : Prop :=
  validCol a /\ widthsOK a /\ hasPipeSlots a /\ nonneg a
  /\ Forall validCol rightAnnots
  /\ Forall (fun N => Col a < Col N) rightAnnots
  /\ StronglySorted colLt rightAnnots
  /\ Forall hasPipeSlots rightAnnots /\ Forall nonneg rightAnnots.

(** The same for the whole slice. *)
Definition placed (st : list Annot) : Prop :=
  StronglySorted colLt st /\ Forall validCol st /\ Forall widthsOK st
  /\ Forall hasPipeSlots st /\ Forall nonneg st.

(** What [write] relies on. *)
Definition ready (a : Annot) : Prop := hasPipeSlots a /\ nonneg a /\ linesOK a.

(** ** Notions used by the further properties *)

(** Is [N] drawn on body row [r]: one of the three cases of the switch in
    [write]'s body loop holds (for [N] with at least one line). *)
Definition drawnOn (r : Z) (N : Annot) : bool := r <? row N + len (lines N).

(** The number of blanks [write] puts before what it draws of [N] on row
    [r]. *)
Definition blanksBefore (r : Z) (N : Annot) : Z :=
  if r <? row N then default 0 (pipeLeadingSpaces N !! Z.to_nat r)
  else default 0 (line.leadingSpaces <$> lines N !! Z.to_nat (r - row N)).

(** The cells of what [write] draws of [N] on row [r]: one for a pipe,
    three for the connector or the indent and then the label line. *)
Definition cellsOf (r : Z) (N : Annot) : Z :=
  if r <? row N then 1
  else 3 + default 0 (line.length <$> lines N !! Z.to_nat (r - row N)).

(** The annotations drawn on row [r], each with the column its segment
    starts in when the row is written from column [pos] on. *)
Fixpoint startCols (r : Z) (annots : list Annot) (pos : Z) : list (Annot * Z) :=
  match annots with
  | [] => []
  | N :: rest =>
      if drawnOn r N
      then let start := pos + blanksBefore r N in
           (N, start) :: startCols r rest (start + cellsOf r N)
      else startCols r rest pos
  end.

(** Every segment of row [r] starts in its annotation's column. *)
Definition aligned (r : Z) (annots : list Annot) (pos : Z) : Prop :=
  Forall (fun p => p.2 = Col p.1) (startCols r annots pos).

(** The blank count of row [r] of [N] set to [v]. *)
Definition setBlank (r v : Z) (N : Annot) : Annot :=
  if r <? row N
  then with_pipeLeadingSpaces N (<[Z.to_nat r := v]> (pipeLeadingSpaces N))
  else match lines N !! Z.to_nat (r - row N) with
       | Some x =>
           with_lines N
             (<[Z.to_nat (r - row N) := with_leadingSpaces x v]> (lines N))
       | None => N
       end.

(** The blank count of row [r] of the first annotation drawn there, set to
    [f] of that annotation. *)
Fixpoint setBlanks (r : Z) (f : Annot -> Z) (l : list Annot) : list Annot :=
  match l with
  | [] => []
  | N :: rest =>
      if drawnOn r N then setBlank r (f N) N :: rest
      else N :: setBlanks r f rest
  end.

(** The shift of body row [q]: the column of the first annotation drawn on
    the row when that annotation has no label lines and [q] is its row, and 0
    otherwise. *)
Fixpoint shiftOf (q : Z) (annots : list Annot) : Z :=
  match annots with
  | [] => 0
  | a :: rest =>
      if drawnOn q a
      then (if (q =? row a) && (len (Lines a) =? 0) then Col a else 0)
      else shiftOf q rest
  end.

(** An annotation as the first loop of [Write] leaves it: on row 0, with no
    pipe slot, and every line indented by the column, but for the one line
    of an annotation without label lines, which is not indented. *)
Definition initial (a : Annot) : Prop :=
  row a = 0 /\ pipeLeadingSpaces a = []
  /\ (if len (Lines a) =? 0 then lines a = [line.mk 0 0]
      else Forall (fun l => line.leadingSpaces l = Col a) (lines a)).

(** What [write] draws of [a] on body row [r], after the blanks. *)
Definition segmentText (r : Z) (a : Annot) : string :=
  if r <? row a then "│"
  else if r =? row a then "└─ " +:+ default "" (Lines a !! O)
  else "   " +:+ default "" (Lines a !! Z.to_nat (r - row a)).

(** Body row [r]: the annotations drawn on it from left to right, each its
    blanks and its segment. *)
Definition rowText (r : Z) (annots : list Annot) : string :=
  foldr (fun a s =>
           if drawnOn r a
           then repeatString " " (Z.to_nat (blanksBefore r a))
                +:+ segmentText r a +:+ s
           else s) "" annots.

(** The lines of the rendering: the header row, then the body rows
    [0 .. rowCount-1], each ended by a newline. *)
Definition textLines (annots : list Annot) : list string :=
  (headerCells (map (isCol annots) (seq 0 (headerWidth annots))) +:+ newline)
  :: map (fun r => rowText (Z.of_nat r) annots +:+ newline)
       (seq 0 (Z.to_nat (rowCountOf annots))).

(** The chunks handed to a writer one [Fprint] call each, up to the first
    call that fails. *)
Fixpoint feed {W : Type} `{Writer W} (w : W) (chunks : list string)
    : W * option error :=
  match chunks with
  | [] => (w, None)
  | s :: rest =>
      match Fprint w s with
      | (w', Some err) => (w', Some err)
      | (w', None) => feed w' rest
      end
  end.

(** The comparator's subtraction does not wrap on any two columns of [s]. *)
Definition narrow (s : list Annot) : Prop :=
  forall x y, x ∈ s -> y ∈ s -> - 2 ^ 63 <= Col x - Col y < 2 ^ 63.

(** A column is an [int]. *)
Definition intCol (a : Annot) : Prop := - 2 ^ 63 <= Col a <= maxInt.

(** The least number of blanks [checkLineAndSetSpace] wants between a label
    line and what the neighbour has in section [s]. *)
Definition minGap (s : section) : Z :=
  match s with
  | above | linesFirstTwo => 2
  | _ => 0
  end.

(** [sum(len(a.lines) + 1)] over the annotations. *)
Definition slotCount (annots : list Annot) : Z :=
  foldr (fun a n => len (lines a) + 1 + n) 0 annots.

(** * Properties *)

(** * Slices *)

Lemma len_nonneg {A} (l : list A) : 0 <= len l.
Proof. unfold len. lia. Qed.

Lemma len_app {A} (l1 l2 : list A) : len (l1 ++ l2) = len l1 + len l2.
Proof. unfold len. rewrite length_app. lia. Qed.

Lemma index_Done {A} (s : list A) (i : Z) :
  0 <= i < len s -> exists x, s !! Z.to_nat i = Some x /\ index s i = Done x.
Proof.
  intros Hi. unfold index, len in *.
  destruct (lookup_lt_is_Some_2 s (Z.to_nat i)) as [x Hx]; [lia|].
  exists x. split; [exact Hx|].
  rewrite Hx.
  destruct (Z.leb_spec 0 i); [|lia].
  destruct (Z.ltb_spec i (Z.of_nat (List.length s))); [reflexivity | lia].
Qed.

Lemma assign_Done {A} (s : list A) (i : Z) (x : A) :
  0 <= i < len s -> assign s i x = Done (<[Z.to_nat i := x]> s).
Proof.
  intros Hi. unfold assign.
  destruct (Z.leb_spec 0 i); [|lia].
  destruct (Z.ltb_spec i (len s)); [reflexivity | lia].
Qed.

(** * Sections of a right annotation *)

Lemma closestAnnot_cons r N rest t :
  closestAnnot r (N :: rest) t =
  match sectionOf r N t with
  | noAnnot => let '(p, s) := closestAnnot r rest t in (S <$> p, s)
  | s => (Some O, s)
  end.
Proof.
  unfold sectionOf. cbn [closestAnnot].
  repeat (match goal with |- context [if ?b then _ else _] => destruct b end;
          try reflexivity).
Qed.

Lemma sectionOf_inSection r N t :
  sectionOf r N t = noAnnot \/ inSection r N t (sectionOf r N t).
Proof.
  unfold sectionOf.
  destruct (Z.ltb_spec r (row N)); [right; cbn; lia|].
  destruct (Z.leb_spec (row N) r); [|lia].
  destruct (Z.ltb_spec r (row N + len (lines N)));
    destruct (Z.ltb_spec r 2); destruct (Z.leb_spec 2 r); cbn [andb];
    try lia; try (right; cbn; lia).
  - destruct (Z.leb_spec (row N + len (lines N)) r); [|lia].
    destruct (Z.ltb_spec r (row N + len (lines N) + t)); cbn [andb];
      [right; cbn; lia | left; reflexivity].
  - destruct (Z.leb_spec (row N + len (lines N)) r); [|lia].
    destruct (Z.ltb_spec r (row N + len (lines N) + t)); cbn [andb];
      [right; cbn; lia | left; reflexivity].
Qed.

Lemma closestAnnot_spec r rights t :
  closestAnnot r rights t = (None, noAnnot)
  \/ exists k N s, closestAnnot r rights t = (Some k, s)
       /\ rights !! k = Some N /\ inSection r N t s
       /\ sectionOf r N t = s
       /\ forall j M, (j < k)%nat -> rights !! j = Some M -> sectionOf r M t = noAnnot.
Proof.
  induction rights as [|N rest IH]; [left; reflexivity|].
  rewrite closestAnnot_cons.
  destruct (sectionOf_inSection r N t) as [Hs|Hs].
  - rewrite Hs. destruct IH as [IH | (k & M & s & IH & Hk & Hin & Hsec & Hfirst)].
    + left. rewrite IH. reflexivity.
    + right. exists (S k), M, s. rewrite IH. repeat split; try done.
      intros [|j] M' Hj HM'; cbn in HM'.
      * by simplify_eq.
      * apply (Hfirst j); [lia | done].
  - right. exists O, N, (sectionOf r N t).
    repeat split; try done.
    + destruct (sectionOf r N t); try reflexivity. destruct Hs.
    + intros j M Hj. lia.
Qed.

(** [closestAnnot] compares the absolute row with 2: the second label line
    of a neighbour that starts on row 1 is in section [linesAfterSecond],
    not [linesFirstTwo]. *)
Example second_line_from_row_2 :
  let N := with_row (createLines asciiWidth (newAnnot 9 ["line1"; "line2"])) 1 in
  closestAnnot 1 [N] 1 = (Some O, linesFirstTwo)
  /\ closestAnnot 2 [N] 1 = (Some O, linesAfterSecond).
Proof. split; reflexivity. Qed.

(** * Shapes *)

Lemma sameShape_refl a : sameShape a a.
Proof. by repeat split. Qed.

Lemma sameShape_sym a b : sameShape a b -> sameShape b a.
Proof. intros (?&?&?&?&?). by repeat split. Qed.

Lemma sameShape_trans a b c : sameShape a b -> sameShape b c -> sameShape a c.
Proof. intros (?&?&?&?&?) (?&?&?&?&?). repeat split; congruence. Qed.

Lemma sameShape_len_lines a b : sameShape a b -> len (lines a) = len (lines b).
Proof.
  intros (_&_&_&H&_). unfold len. f_equal.
  rewrite <- (length_map line.length (lines a)), H. apply length_map.
Qed.

Lemma sameShape_hasPipeSlots a b : sameShape a b -> hasPipeSlots a -> hasPipeSlots b.
Proof. intros (?&?&Hr&?&Hp). unfold hasPipeSlots, len. rewrite <- Hr, <- Hp. done. Qed.

Lemma sameShapes_refl l : Forall2 sameShape l l.
Proof. induction l; constructor; auto using sameShape_refl. Qed.

Lemma sameShapes_sym l l' : Forall2 sameShape l l' -> Forall2 sameShape l' l.
Proof. induction 1; constructor; auto using sameShape_sym. Qed.

Lemma sameShapes_trans l1 l2 l3 :
  Forall2 sameShape l1 l2 -> Forall2 sameShape l2 l3 -> Forall2 sameShape l1 l3.
Proof.
  intros H; revert l3. induction H; intros l3 H3; inv H3; constructor;
    eauto using sameShape_trans.
Qed.

Lemma sameShapes_hasPipeSlots l l' : Forall2 sameShape l l' -> Forall hasPipeSlots l -> Forall hasPipeSlots l'.
Proof.
  induction 1; intros Hw; inv Hw; constructor; eauto using sameShape_hasPipeSlots.
Qed.

Lemma sameShapes_insert l k N N' :
  l !! k = Some N -> sameShape N N' -> Forall2 sameShape l (<[k := N']> l).
Proof.
  revert k. induction l as [|a l IH]; intros [|k] Hk HN; cbn in *; try done.
  - simplify_eq. constructor; [done | apply sameShapes_refl].
  - constructor; [apply sameShape_refl | eauto].
Qed.

Lemma sectionOf_shape r a b t : sameShape a b -> sectionOf r a t = sectionOf r b t.
Proof.
  intros H. unfold sectionOf.
  rewrite (sameShape_len_lines _ _ H). destruct H as (_&_&->&_). done.
Qed.

Lemma closestAnnot_shape r l l' t :
  Forall2 sameShape l l' -> closestAnnot r l t = closestAnnot r l' t.
Proof.
  induction 1 as [|a b l l' Hab Hl IH]; [done|].
  rewrite !closestAnnot_cons, (sectionOf_shape _ _ _ _ Hab), IH. done.
Qed.

Lemma deref_shape l l' k N :
  Forall2 sameShape l l' -> l !! k = Some N ->
  exists N', l' !! k = Some N' /\ sameShape N N'.
Proof.
  intros H Hk. destruct (Forall2_lookup_l _ _ _ _ _ H Hk) as (N' & ? & ?). eauto.
Qed.

Lemma index_lines_shape a b i l :
  sameShape a b -> lines a !! i = Some l ->
  exists l', lines b !! i = Some l' /\ line.length l' = line.length l.
Proof.
  intros (_&_&_&H&_) Hl.
  assert (Hm : map line.length (lines b) !! i = Some (line.length l)).
  { rewrite <- H. rewrite list_lookup_fmap, Hl. done. }
  rewrite list_lookup_fmap in Hm.
  destruct (lines b !! i) as [l'|]; cbn in Hm; [|done].
  exists l'. split; [done | congruence].
Qed.

Lemma lineFits_shape r i a a' l l' :
  sameShape a a' -> Forall2 sameShape l l' ->
  lineFits r i a l = lineFits r i a' l'.
Proof.
  intros Ha Hl. unfold lineFits.
  rewrite <- (closestAnnot_shape _ _ _ _ Hl).
  destruct (closestAnnot_spec (r + i) l 1)
    as [-> | (k & N & s & -> & Hk & Hin & _)]; [done|].
  destruct (deref_shape _ _ _ _ Hl Hk) as (N' & Hk' & HN).
  cbn [deref]. rewrite Hk, Hk'.
  assert (Hidx : match index (lines a) i, index (lines a') i with
                 | Done x, Done y => line.length x = line.length y
                 | Done _, _ | _, Done _ => False
                 | _, _ => True
                 end).
  { unfold index. rewrite (sameShape_len_lines _ _ Ha).
    destruct ((0 <=? i) && (i <? len (lines a'))); [|done].
    destruct (lines a !! Z.to_nat i) as [x|] eqn:Hx.
    - destruct (index_lines_shape _ _ _ _ Ha Hx) as (y & -> & ?). done.
    - destruct (lines a' !! Z.to_nat i) as [y|] eqn:Hy; [|done].
      destruct (index_lines_shape _ _ _ _ (sameShape_sym _ _ Ha) Hy)
        as (x & Hx' & _). congruence. }
  destruct (index (lines a) i) as [x| |], (index (lines a') i) as [y| |];
    try done; try (by destruct s).
  rewrite Hidx. destruct Ha as (-> & _). destruct HN as (-> & _). done.
Qed.

Lemma annotFits_shape r a a' l l' :
  sameShape a a' -> Forall2 sameShape l l' ->
  annotFits r a l = annotFits r a' l'.
Proof.
  intros Ha Hl. unfold annotFits.
  assert (List.length (lines a) = List.length (lines a')) as ->.
  { pose proof (sameShape_len_lines _ _ Ha). unfold len in *. lia. }
  induction (seq 0 (List.length (lines a'))) as [|i rest IH]; [done|].
  cbn [forallb]. rewrite IH. f_equal. by apply lineFits_shape.
Qed.

(** * The writes of the placement keep shapes *)

Lemma hasPipeSlots_lookup l k N : Forall hasPipeSlots l -> l !! k = Some N -> hasPipeSlots N.
Proof. intros H Hk. by eapply Forall_lookup_1 in H. Qed.

Lemma setPipeLeadingSpace_Done l k N i v :
  l !! k = Some N -> 0 <= i < len (pipeLeadingSpaces N) ->
  exists l', setPipeLeadingSpace l (Some k) i v = Done l' /\ Forall2 sameShape l l'.
Proof.
  intros Hk Hi. unfold setPipeLeadingSpace. cbn [deref]. rewrite Hk.
  cbn [mbind outcome_bind]. rewrite assign_Done by done.
  eexists; split; [reflexivity|].
  eapply sameShapes_insert; [done|].
  repeat split; cbn. by rewrite length_insert.
Qed.

Lemma setLeadingSpaces_Done l k N i v :
  l !! k = Some N -> 0 <= i < len (lines N) ->
  exists l', setLeadingSpaces l (Some k) i v = Done l' /\ Forall2 sameShape l l'.
Proof.
  intros Hk Hi. unfold setLeadingSpaces. cbn [deref]. rewrite Hk.
  cbn [mbind outcome_bind].
  destruct (index_Done _ _ Hi) as (x & Hx & ->). cbn [mbind outcome_bind].
  rewrite assign_Done by done.
  eexists; split; [reflexivity|].
  eapply sameShapes_insert; [done|].
  repeat split; cbn.
  rewrite list_fmap_insert. cbn. symmetry. apply list_insert_id.
  by rewrite list_lookup_fmap, Hx.
Qed.

Lemma setSpace_spec rowBefore a rights :
  0 <= rowBefore -> Forall hasPipeSlots rights ->
  exists rs, setSpace rowBefore a rights = Done rs /\ Forall2 sameShape rights rs.
Proof.
  intros Hr Hwf. unfold setSpace.
  destruct (closestAnnot_spec rowBefore rights 0)
    as [-> | (k & N & s & -> & Hk & Hin & _)].
  { eexists; split; [reflexivity | apply sameShapes_refl]. }
  pose proof (hasPipeSlots_lookup _ _ _ Hwf Hk) as HN. unfold hasPipeSlots in HN.
  destruct s; cbn [deref inSection] in *; rewrite ?Hk; cbn [mbind outcome_bind].
  - apply (setPipeLeadingSpace_Done _ _ N); [done | lia].
  - apply (setLeadingSpaces_Done _ _ N); [done | lia].
  - apply (setLeadingSpaces_Done _ _ N); [done | lia].
  - eexists; split; [reflexivity | apply sameShapes_refl].
  - done.
Qed.

Lemma checkLineAndSetSpace_spec r i a rights :
  0 <= r + i -> 0 <= i < len (lines a) -> Forall hasPipeSlots rights ->
  exists rs,
    checkLineAndSetSpace r i a rights
    = Done (lineFits r i a rights,
            (if lineFits r i a rights then a else pushedDown a), rs)
    /\ Forall2 sameShape rights rs.
Proof.
  intros Hr Hi Hwf. unfold checkLineAndSetSpace, lineFits.
  destruct (closestAnnot_spec (r + i) rights 1)
    as [-> | (k & N & s & -> & Hk & Hin & _)].
  { eexists; split; [reflexivity | apply sameShapes_refl]. }
  pose proof (hasPipeSlots_lookup _ _ _ Hwf Hk) as HN. unfold hasPipeSlots in HN.
  destruct (index_Done _ _ Hi) as (x & Hx & ->).
  cbn [deref]. rewrite Hk. cbn [mbind outcome_bind].
  set (remainingSpaces := sub64 (sub64 (Col N) (Col a)) (add64 3 (line.length x))).
  destruct s; cbn [inSection] in Hin; try done.
  - (* above *)
    destruct ((remainingSpaces <? 0) || true && (remainingSpaces <? 2)); cbn [negb].
    + eexists; split; [reflexivity | apply sameShapes_refl].
    + destruct (setPipeLeadingSpace_Done rights k N (r + i) remainingSpaces)
        as (rs & -> & Hrs); [done | lia |].
      eexists; split; [reflexivity | done].
  - (* linesFirstTwo *)
    destruct ((remainingSpaces <? 0) || true && (remainingSpaces <? 2)); cbn [negb].
    + eexists; split; [reflexivity | apply sameShapes_refl].
    + destruct (setLeadingSpaces_Done rights k N (r + i - row N) remainingSpaces)
        as (rs & -> & Hrs); [done | lia |].
      eexists; split; [reflexivity | done].
  - (* linesAfterSecond *)
    destruct ((remainingSpaces <? 0) || false && (remainingSpaces <? 2)); cbn [negb].
    + eexists; split; [reflexivity | apply sameShapes_refl].
    + destruct (setLeadingSpaces_Done rights k N (r + i - row N) remainingSpaces)
        as (rs & -> & Hrs); [done | lia |].
      eexists; split; [reflexivity | done].
  - (* trailingSpaceLines *)
    destruct ((remainingSpaces <? 0) || false && (remainingSpaces <? 2)); cbn [negb].
    { eexists; split; [reflexivity | apply sameShapes_refl]. }
    destruct (closestAnnot_spec (r + i) rights 0)
      as [-> | (k2 & N2 & s2 & -> & Hk2 & Hin2 & _)].
    { eexists; split; [reflexivity | apply sameShapes_refl]. }
    pose proof (hasPipeSlots_lookup _ _ _ Hwf Hk2) as HN2. unfold hasPipeSlots in HN2.
    cbn [deref]. rewrite Hk2. cbn [mbind outcome_bind].
    destruct s2; cbn [inSection] in Hin2; try done; try lia.
    + destruct (setPipeLeadingSpace_Done rights k2 N2 (r + i)
                  (sub64 (sub64 (Col N2) (Col a)) (add64 3 (line.length x))))
        as (rs & -> & Hrs); [done | lia |].
      eexists; split; [reflexivity | done].
    + destruct (setLeadingSpaces_Done rights k2 N2 (r + i - row N2)
                  (sub64 (sub64 (Col N2) (Col a)) (add64 3 (line.length x))))
        as (rs & -> & Hrs); [done | lia |].
      eexists; split; [reflexivity | done].
    + destruct (setLeadingSpaces_Done rights k2 N2 (r + i - row N2)
                  (sub64 (sub64 (Col N2) (Col a)) (add64 3 (line.length x))))
        as (rs & -> & Hrs); [done | lia |].
      eexists; split; [reflexivity | done].
Qed.

(** * One candidate row *)

Lemma checkLinesLoop_spec n (i0 : nat) r a rights :
  0 <= r -> (i0 + n)%nat = List.length (lines a) -> Forall hasPipeSlots rights ->
  let b := forallb (fun i => lineFits r (Z.of_nat i) a rights) (seq i0 n) in
  exists rs,
    checkLinesLoop n (Z.of_nat i0) r a rights
    = Done (b, (if b then a else pushedDown a), rs)
    /\ Forall2 sameShape rights rs.
Proof.
  revert i0 rights. induction n as [|n IH]; intros i0 rights Hr Hn Hwf; cbn zeta.
  { eexists; split; [reflexivity | apply sameShapes_refl]. }
  cbn [checkLinesLoop seq forallb].
  destruct (checkLineAndSetSpace_spec r (Z.of_nat i0) a rights)
    as (rs & -> & Hrs); [lia | unfold len; lia | done |].
  cbn [mbind outcome_bind].
  destruct (lineFits r (Z.of_nat i0) a rights) eqn:Hfit; cbn [andb].
  - replace (Z.of_nat i0 + 1) with (Z.of_nat (S i0)) by lia.
    destruct (IH (S i0) rs) as (rs' & -> & Hrs');
      [done | lia | by eapply sameShapes_hasPipeSlots |].
    assert (forallb (fun i => lineFits r (Z.of_nat i) a rs) (seq (S i0) n)
            = forallb (fun i => lineFits r (Z.of_nat i) a rights) (seq (S i0) n))
      as ->.
    { induction (seq (S i0) n) as [|j js IHj]; [done|]. cbn [forallb].
      rewrite IHj. f_equal.
      apply lineFits_shape; [apply sameShape_refl | by apply sameShapes_sym]. }
    eexists; split; [reflexivity | by eapply sameShapes_trans].
  - eexists; split; [reflexivity | done].
Qed.

Lemma checkLinesAndSetSpaces_spec r a rights :
  0 <= r -> Forall hasPipeSlots rights ->
  exists rs,
    checkLinesAndSetSpaces r a rights
    = Done (annotFits r a rights,
            (if annotFits r a rights then a else pushedDown a), rs)
    /\ Forall2 sameShape rights rs.
Proof.
  intros Hr Hwf. unfold checkLinesAndSetSpaces, annotFits.
  apply (checkLinesLoop_spec _ O); [done | lia | done].
Qed.

(** * Beyond the last constrained row everything fits *)

Lemma rowBound_cons a l :
  rowBound (a :: l) = Z.max (rowBound l) (row a + len (lines a) + 1).
Proof. reflexivity. Qed.

Lemma rowBound_nonneg l : 0 <= rowBound l.
Proof. induction l as [|a l IH]; [done|]. rewrite rowBound_cons. lia. Qed.

Lemma rowBound_lookup l k N :
  l !! k = Some N -> row N + len (lines N) + 1 <= rowBound l.
Proof.
  revert k. induction l as [|a l IH]; intros [|k] Hk; try done;
    rewrite rowBound_cons.
  - cbn in Hk. simplify_eq. lia.
  - cbn in Hk. specialize (IH _ Hk). lia.
Qed.

Lemma rowBound_shape l l' : Forall2 sameShape l l' -> rowBound l = rowBound l'.
Proof.
  induction 1 as [|a b l l' Hab _ IH]; [done|]. rewrite !rowBound_cons.
  rewrite IH, (sameShape_len_lines _ _ Hab). destruct Hab as (_&_&->&_). done.
Qed.

Lemma closestAnnot_beyond r l :
  rowBound l <= r -> closestAnnot r l 1 = (None, noAnnot).
Proof.
  intros Hr.
  destruct (closestAnnot_spec r l 1) as [H | (k & N & s & _ & Hk & Hin & _)];
    [done|].
  pose proof (rowBound_lookup _ _ _ Hk). pose proof (len_nonneg (lines N)).
  destruct s; cbn in Hin; lia.
Qed.

Lemma annotFits_beyond r a l : rowBound l <= r -> annotFits r a l = true.
Proof.
  intros Hr. unfold annotFits. apply forallb_forall. intros i _.
  unfold lineFits. rewrite closestAnnot_beyond by lia. done.
Qed.

(** * [setRow] *)

Lemma pushedDownBy_row n a : row (pushedDownBy n a) = row a + Z.of_nat n.
Proof. revert a. induction n as [|n IH]; intros a; cbn; [lia|]. rewrite IH. cbn. lia. Qed.

Lemma pushedDownBy_Col n a : Col (pushedDownBy n a) = Col a.
Proof. revert a. induction n as [|n IH]; intros a; cbn; [done|]. by rewrite IH. Qed.

Lemma pushedDownBy_Lines n a : Lines (pushedDownBy n a) = Lines a.
Proof. revert a. induction n as [|n IH]; intros a; cbn; [done|]. by rewrite IH. Qed.

Lemma pushedDownBy_lines n a : lines (pushedDownBy n a) = lines a.
Proof. revert a. induction n as [|n IH]; intros a; cbn; [done|]. by rewrite IH. Qed.

Lemma pushedDownBy_pipes n a :
  pipeLeadingSpaces (pushedDownBy n a)
  = (pipeLeadingSpaces a ++ replicate n (Col a))%list.
Proof.
  revert a. induction n as [|n IH]; intros a; cbn; [by rewrite app_nil_r|].
  rewrite IH. cbn. by rewrite <- app_assoc.
Qed.

Lemma annotFits_pushedDown r a l : annotFits r (pushedDown a) l = annotFits r a l.
Proof. reflexivity. Qed.

Lemma setRowLoop_spec fuel r a rights :
  0 <= r -> Forall hasPipeSlots rights ->
  Z.max 0 (rowBound rights - r) < Z.of_nat fuel ->
  exists (n : nat) rs,
    setRowLoop fuel r a rights = Done (pushedDownBy n a, rs)
    /\ Forall2 sameShape rights rs
    /\ annotFits (r + Z.of_nat n) a rights = true
    /\ forall r', r <= r' < r + Z.of_nat n -> annotFits r' a rights = false.
Proof.
  revert r a rights. induction fuel as [|fuel IH]; intros r a rights Hr Hwf Hfuel;
    [lia|].
  cbn [setRowLoop].
  assert (exists rs0, (if r - 1 =? -1 then Done rights else setSpace (r - 1) a rights)
                      = Done rs0 /\ Forall2 sameShape rights rs0)
    as (rs0 & -> & Hrs0).
  { destruct (Z.eqb_spec (r - 1) (-1)).
    - eexists; split; [reflexivity | apply sameShapes_refl].
    - apply setSpace_spec; [lia | done]. }
  cbn [mbind outcome_bind].
  destruct (checkLinesAndSetSpaces_spec r a rs0) as (rs1 & -> & Hrs1);
    [done | by eapply sameShapes_hasPipeSlots |].
  cbn [mbind outcome_bind].
  rewrite <- (annotFits_shape r a a rights rs0) by (done || apply sameShape_refl).
  assert (Hrs : Forall2 sameShape rights rs1) by (by eapply sameShapes_trans).
  destruct (annotFits r a rights) eqn:Hfit.
  - exists O, rs1. cbn. rewrite Z.add_0_r. repeat split; try done. lia.
  - assert (r < rowBound rights).
    { destruct (Z.lt_ge_cases r (rowBound rights)); [done|].
      rewrite annotFits_beyond in Hfit by lia. done. }
    destruct (IH (r + 1) (pushedDown a) rs1) as (n & rs & -> & Hrs' & Hfit' & Hmin);
      [lia | by eapply sameShapes_hasPipeSlots | rewrite <- (rowBound_shape _ _ Hrs); lia |].
    exists (S n), rs. cbn [pushedDownBy]. repeat split; try done.
    + by eapply sameShapes_trans.
    + rewrite <- Hfit'. rewrite annotFits_pushedDown.
      replace (r + Z.of_nat (S n)) with (r + 1 + Z.of_nat n) by lia.
      apply annotFits_shape; [apply sameShape_refl | done].
    + intros r' Hr'. destruct (Z.eq_dec r' r) as [->|]; [done|].
      rewrite <- (Hmin r') by lia. rewrite annotFits_pushedDown.
      apply annotFits_shape; [apply sameShape_refl | done].
Qed.

Lemma setRow_spec a rights :
  Forall hasPipeSlots rights ->
  exists (n : nat) rs,
    setRow a rights = Done (pushedDownBy n a, rs)
    /\ Forall2 sameShape rights rs
    /\ annotFits (Z.of_nat n) a rights = true
    /\ forall r', 0 <= r' < Z.of_nat n -> annotFits r' a rights = false.
Proof.
  intros Hwf. unfold setRow.
  destruct (setRowLoop_spec (S (Z.to_nat (rowBound rights))) 0 a rights)
    as (n & rs & H & ? & ? & ?); [done | done | |].
  { pose proof (rowBound_nonneg rights). lia. }
  exists n, rs. rewrite H. rewrite Z.add_0_l in *. done.
Qed.

(** * The loop over the annotations *)

Lemma sameShape_sameLabel a b : sameShape a b -> sameLabel a b.
Proof. intros (?&?&?&?&?). by repeat split. Qed.

Lemma sameLabel_trans a b c : sameLabel a b -> sameLabel b c -> sameLabel a c.
Proof. intros (?&?&?) (?&?&?). repeat split; congruence. Qed.

Lemma sameLabel_pushedDownBy n a : sameLabel a (pushedDownBy n a).
Proof.
  repeat split; by rewrite ?pushedDownBy_Col, ?pushedDownBy_Lines, ?pushedDownBy_lines.
Qed.

Lemma annotFits_pushedDownBy n r a l :
  annotFits r (pushedDownBy n a) l = annotFits r a l.
Proof.
  revert a. induction n as [|n IH]; intros a; [done|]. cbn [pushedDownBy].
  by rewrite IH.
Qed.

Lemma hasPipeSlots_pushedDownBy n a : hasPipeSlots a -> hasPipeSlots (pushedDownBy n a).
Proof.
  unfold hasPipeSlots. rewrite pushedDownBy_row, pushedDownBy_pipes, len_app.
  unfold len at 3. rewrite length_replicate. lia.
Qed.

Lemma minimalRow_shape a b l l' :
  sameShape a b -> Forall2 sameShape l l' -> minimalRow a l -> minimalRow b l'.
Proof.
  intros Hab Hl (H0 & Hfit & Hmin).
  assert (row a = row b) as Hr by (by destruct Hab as (_&_&?&_)).
  unfold minimalRow. rewrite <- Hr. split; [done|]. split.
  - by rewrite <- (annotFits_shape _ _ _ _ _ Hab Hl).
  - intros r Hrr. rewrite <- (annotFits_shape _ _ _ _ _ Hab Hl). by apply Hmin.
Qed.

Lemma setRows_spec n st :
  (n <= List.length st)%nat -> Forall hasPipeSlots st ->
  (forall i a, (i < n)%nat -> st !! i = Some a -> row a = 0) ->
  exists st',
    setRows n st = Done st'
    /\ Forall2 sameShape (drop n st) (drop n st')
    /\ Forall2 sameLabel st st'
    /\ forall i a, (i < n)%nat -> st' !! i = Some a ->
                   minimalRow a (drop (S i) st').
Proof.
  revert st. induction n as [|k IH]; intros st Hn Hwf Hrow.
  { exists st. cbn [setRows]. split; [done|]. split; [|split].
    - apply sameShapes_refl.
    - apply Forall2_same_length_lookup_2; [done|].
      intros i a b Ha Hb. simplify_eq. apply sameShape_sameLabel, sameShape_refl.
    - intros i a Hi. lia. }
  cbn [setRows].
  destruct (drop k st) as [|a rights] eqn:Hdrop.
  { apply (f_equal List.length) in Hdrop. rewrite length_drop in Hdrop.
    cbn in Hdrop. lia. }
  assert (Hka : st !! k = Some a).
  { rewrite <- (Nat.add_0_r k), <- lookup_drop, Hdrop. done. }
  assert (Hst : st = (take k st ++ a :: rights)%list).
  { rewrite <- Hdrop. by rewrite take_drop. }
  assert (Hwfr : Forall hasPipeSlots (a :: rights)).
  { rewrite <- Hdrop. by apply Forall_drop. }
  inversion Hwfr as [|? ? Hwfa Hwfrights]; subst.
  destruct (setRow_spec a rights Hwfrights) as (m & rs & -> & Hrs & Hfit & Hmin).
  cbn [mbind outcome_bind].
  set (st1 := (take k st ++ pushedDownBy m a :: rs)%list).
  assert (Hlen_take : List.length (take k st) = k) by (rewrite length_take; lia).
  assert (Hlen1 : List.length st1 = List.length st).
  { unfold st1. rewrite Hst at 2. rewrite !length_app. cbn.
    by rewrite (Forall2_length _ _ _ Hrs). }
  destruct (IH st1) as (st' & -> & Htail & Hlabel & Hminimal).
  { lia. }
  { unfold st1. apply Forall_app. split; [by apply Forall_take|].
    constructor; [by apply hasPipeSlots_pushedDownBy | by eapply sameShapes_hasPipeSlots]. }
  { intros i b Hi Hb. apply (Hrow i); [lia|].
    unfold st1 in Hb. rewrite lookup_app_l in Hb by lia.
    by apply lookup_take_Some in Hb as [Hb _]. }
  assert (Hdrop1 : drop k st1 = pushedDownBy m a :: rs).
  { unfold st1. rewrite drop_app_length'; done. }
  rewrite Hdrop1 in Htail.
  destruct (drop k st') as [|b tl] eqn:Hdrop'; [by inversion Htail|].
  apply Forall2_cons in Htail as [Hab Htl].
  assert (Hdrop'' : drop (S k) st' = tl).
  { replace (S k) with (k + 1)%nat by lia. rewrite <- drop_drop, Hdrop'. done. }
  assert (Hkb : st' !! k = Some b).
  { rewrite <- (Nat.add_0_r k), <- lookup_drop, Hdrop'. done. }
  exists st'. split; [done|]. split; [|split].
  - rewrite Hdrop''.
    replace (drop (S k) st) with rights.
    2:{ replace (S k) with (k + 1)%nat by lia. by rewrite <- drop_drop, Hdrop. }
    by eapply sameShapes_trans.
  - assert (Forall2 sameLabel st st1).
    { rewrite Hst at 1. unfold st1. apply Forall2_app.
      - apply Forall2_same_length_lookup_2; [done|].
        intros i x y Hx Hy. simplify_eq. apply sameShape_sameLabel, sameShape_refl.
      - constructor; [apply sameLabel_pushedDownBy|].
        eapply Forall2_impl; [exact Hrs | apply sameShape_sameLabel]. }
    eapply Forall2_trans; [| done | done].
    intros ???. apply sameLabel_trans.
  - intros i c Hi Hc. destruct (decide (i = k)) as [->|Hne].
    + rewrite Hkb in Hc. injection Hc as <-. rewrite Hdrop''.
      apply (minimalRow_shape (pushedDownBy m a) b rights tl);
        [done | by eapply sameShapes_trans |].
      unfold minimalRow. rewrite pushedDownBy_row, (Hrow k a) by (lia || done).
      rewrite Z.add_0_l, !annotFits_pushedDownBy. split; [lia|]. split; [done|].
      intros r Hr. rewrite annotFits_pushedDownBy. by apply Hmin.
    + apply Hminimal; [lia | done].
Qed.

(** * Compaction and sorting *)

Lemma compactAfter_sublist prev s : compactAfter prev s `sublist_of` s.
Proof.
  revert prev. induction s as [|a s IH]; intros prev; cbn; [done|].
  destruct (Col a =? Col prev); [by apply sublist_cons | by apply sublist_skip].
Qed.

Lemma CompactFunc_sublist s : CompactFunc s `sublist_of` s.
Proof. destruct s; cbn; [done|]. apply sublist_skip, compactAfter_sublist. Qed.

Lemma compactAfter_id prev s :
  Col prev ∉ map Col s -> NoDup (map Col s) -> compactAfter prev s = s.
Proof.
  revert prev. induction s as [|a s IH]; intros prev Hprev Hnd; cbn; [done|].
  cbn in Hprev, Hnd. apply NoDup_cons in Hnd as [Ha Hnd].
  destruct (Z.eqb_spec (Col a) (Col prev)) as [Heq|Hne].
  - exfalso. apply Hprev. rewrite <- Heq. left.
  - f_equal. by apply IH.
Qed.

Lemma CompactFunc_id s : NoDup (map Col s) -> CompactFunc s = s.
Proof.
  destruct s as [|a s]; cbn; [done|]. intros [Ha Hnd]%NoDup_cons.
  f_equal. by apply compactAfter_id.
Qed.

Lemma insertLeft_perm x rp : insertLeft x rp ≡ₚ x :: rp.
Proof.
  induction rp as [|y rp IH]; cbn; [done|].
  destruct (cmpCol x y <? 0); [|done].
  rewrite IH. apply perm_swap.
Qed.

Lemma sortLoop_perm s acc :
  fold_left (fun revPrefix x => insertLeft x revPrefix) s acc ≡ₚ (s ++ acc)%list.
Proof.
  revert acc. induction s as [|x s IH]; intros acc; cbn; [done|].
  rewrite IH, insertLeft_perm. by rewrite Permutation_middle.
Qed.

Lemma SortFunc_perm s : SortFunc s ≡ₚ s.
Proof.
  unfold SortFunc.
  etrans; [symmetry; apply Permutation_rev|].
  rewrite sortLoop_perm. by rewrite app_nil_r.
Qed.

Lemma wrap_small z : - 2 ^ 63 <= z < 2 ^ 63 -> wrap z = z.
Proof. intros Hz. unfold wrap. rewrite Z.mod_small by lia. lia. Qed.

Lemma sub64_small a b : - 2 ^ 63 <= a - b < 2 ^ 63 -> sub64 a b = a - b.
Proof. apply wrap_small. Qed.

Lemma add64_small a b : - 2 ^ 63 <= a + b < 2 ^ 63 -> add64 a b = a + b.
Proof. apply wrap_small. Qed.

Lemma cmpCol_valid x y :
  validCol x -> validCol y -> cmpCol x y = Col x - Col y.
Proof.
  unfold validCol, maxInt, cmpCol. intros Hx Hy. apply sub64_small. lia.
Qed.

Lemma insertLeft_sorted x rp :
  validCol x -> Forall validCol rp ->
  StronglySorted (flip colLe) rp -> StronglySorted (flip colLe) (insertLeft x rp).
Proof.
  intros Hx. induction rp as [|y rp IH]; intros Hv Hs; cbn.
  { repeat constructor. }
  inversion Hv as [|? ? Hy Hv']; subst.
  inversion Hs as [|? ? Hs' Hall]; subst.
  rewrite (cmpCol_valid x y Hx Hy).
  destruct (Z.ltb_spec (Col x - Col y) 0) as [Hlt|Hge].
  - constructor; [by apply IH|].
    rewrite insertLeft_perm. constructor; [unfold flip, colLe; lia | done].
  - constructor; [done|]. constructor; [unfold flip, colLe; lia|].
    eapply Forall_impl; [exact Hall|]. unfold flip, colLe. intros z Hz. lia.
Qed.

Lemma sortLoop_sorted s acc :
  Forall validCol s -> Forall validCol acc -> StronglySorted (flip colLe) acc ->
  StronglySorted (flip colLe)
    (fold_left (fun revPrefix x => insertLeft x revPrefix) s acc).
Proof.
  revert acc. induction s as [|x s IH]; intros acc Hs Hacc Hsorted; cbn; [done|].
  inversion Hs; subst. apply IH; [done | | by apply insertLeft_sorted].
  rewrite insertLeft_perm. by constructor.
Qed.

Lemma StronglySorted_rev_flip {A} (R : A -> A -> Prop) l :
  StronglySorted (flip R) l -> StronglySorted R (rev l).
Proof.
  induction 1 as [|x l Hl IH Hx]; simpl; [constructor|].
  apply StronglySorted_app. split; [| split; [exact IH | repeat constructor]].
  intros x1 x2 Hx1 Hx2. apply list_elem_of_singleton in Hx2 as ->.
  rewrite Forall_forall in Hx. apply Hx.
  by apply list_elem_of_In, in_rev, list_elem_of_In in Hx1.
Qed.

Lemma SortFunc_sorted s :
  Forall validCol s -> StronglySorted colLe (SortFunc s).
Proof.
  intros Hs. unfold SortFunc. apply StronglySorted_rev_flip.
  apply sortLoop_sorted; [done | constructor | constructor].
Qed.

Lemma SortFunc_unique s s' :
  s ≡ₚ s' -> NoDup (map Col s) -> Forall validCol s -> SortFunc s = SortFunc s'.
Proof.
  intros Hp Hnd Hv.
  assert (Hv' : Forall validCol s') by (by rewrite <- Hp).
  apply (StronglySorted_unique_strong colLe);
    [| by apply SortFunc_sorted | by apply SortFunc_sorted
     | by rewrite !SortFunc_perm].
  intros x1 x2 Hx1 Hx2 H12 H21.
  rewrite SortFunc_perm in Hx1. rewrite SortFunc_perm, <- Hp in Hx2.
  assert (Col x1 = Col x2) as Hc by (unfold colLe in *; lia).
  clear -Hx1 Hx2 Hc Hnd.
  induction s as [|a s IH]; [by inversion Hx1|].
  cbn in Hnd. apply NoDup_cons in Hnd as [Ha Hnd].
  inversion Hx1 as [|? ? ? Hx1']; inversion Hx2 as [|? ? ? Hx2']; subst; auto.
  - exfalso. apply Ha. rewrite Hc. apply list_elem_of_fmap. eauto.
  - exfalso. apply Ha. rewrite <- Hc. apply list_elem_of_fmap. eauto.
Qed.

(** * [place] *)

Lemma createLines_Col sw a : Col (createLines sw a) = Col a.
Proof. unfold createLines. by destruct (len (Lines a) =? 0). Qed.

Lemma createLines_row sw a : row (createLines sw a) = row a.
Proof. unfold createLines. by destruct (len (Lines a) =? 0). Qed.

Lemma createLines_fresh_hasPipeSlots sw a : fresh a -> hasPipeSlots (createLines sw a).
Proof.
  intros (Hr & _ & _). unfold hasPipeSlots. rewrite createLines_row, Hr. apply len_nonneg.
Qed.

Lemma annotFits_nil r a : annotFits r a [] = true.
Proof. unfold annotFits. apply forallb_forall. by intros i _. Qed.

Lemma last_lookup_length {A} (l : list A) (x : A) :
  last l = Some x -> l !! (List.length l - 1)%nat = Some x.
Proof. rewrite last_lookup. by replace (Nat.pred (List.length l)) with (List.length l - 1)%nat by lia. Qed.

Lemma place_spec sw l :
  Forall fresh l ->
  exists st,
    place sw l = Done st
    /\ Forall2 sameLabel (map (createLines sw) (SortFunc l)) st
    /\ (forall i a, st !! i = Some a -> minimalRow a (drop (S i) st))
    /\ (forall a, last st = Some a -> row a = 0).
Proof.
  intros Hfresh. unfold place.
  set (st0 := map (createLines sw) (SortFunc l)).
  assert (Hfresh0 : Forall fresh (SortFunc l)) by (by rewrite SortFunc_perm).
  assert (Hrow0 : forall i a, st0 !! i = Some a -> row a = 0).
  { intros i a Ha. unfold st0 in Ha. rewrite list_lookup_fmap in Ha.
    destruct (SortFunc l !! i) as [b|] eqn:Hb; [|done]. cbn in Ha. simplify_eq.
    rewrite createLines_row.
    by destruct (Forall_lookup_1 _ _ _ _ Hfresh0 Hb) as (? & _). }
  assert (Hwf0 : Forall hasPipeSlots st0).
  { unfold st0. apply Forall_fmap. eapply Forall_impl; [exact Hfresh0|].
    intros a. apply createLines_fresh_hasPipeSlots. }
  destruct (setRows_spec (List.length st0 - 1) st0)
    as (st & Hst & Htail & Hlabel & Hmin); [lia | done | by eauto |].
  exists st. split; [done|]. split; [done|].
  pose proof (Forall2_length _ _ _ Hlabel) as Hlen.
  assert (Hlast : forall a, st !! (List.length st0 - 1)%nat = Some a ->
                            row a = 0 /\ minimalRow a (drop (S (List.length st0 - 1)) st)).
  { intros a Ha.
    assert (Ha' : drop (List.length st0 - 1) st !! O = Some a).
    { by rewrite lookup_drop, Nat.add_0_r. }
    destruct (Forall2_lookup_r _ _ _ _ _ Htail Ha') as (a0 & Ha0 & Hshape).
    rewrite lookup_drop, Nat.add_0_r in Ha0.
    assert (row a = 0) as Hr.
    { destruct Hshape as (_&_&<-&_). by eapply Hrow0. }
    split; [done|].
    rewrite drop_ge by (apply lookup_lt_Some in Ha; lia).
    unfold minimalRow. rewrite Hr. split; [lia|]. split; [apply annotFits_nil | lia]. }
  split.
  - intros i a Ha.
    destruct (decide (i < List.length st0 - 1)%nat) as [Hi|Hi]; [by apply Hmin|].
    assert (i = (List.length st0 - 1)%nat) as ->.
    { apply lookup_lt_Some in Ha. lia. }
    by apply Hlast.
  - intros a Ha. apply last_lookup_length in Ha. rewrite <- Hlen in Ha.
    by apply Hlast.
Qed.

(** * Strings *)

Lemma append_assoc (s1 s2 s3 : string) :
  (s1 +:+ s2) +:+ s3 = s1 +:+ (s2 +:+ s3).
Proof.
  induction s1 as [|c s1 IH]; [reflexivity|].
  change (String.String c ((s1 +:+ s2) +:+ s3)
          = String.String c (s1 +:+ s2 +:+ s3)).
  by rewrite IH.
Qed.

Lemma append_nil_r (s : string) : s +:+ "" = s.
Proof.
  induction s as [|c s IH]; [reflexivity|].
  change (String.String c (s +:+ "") = String.String c s). by rewrite IH.
Qed.

Lemma Repeat_nonneg s n :
  0 <= n -> Repeat s n = Done (repeatString s (Z.to_nat n)).
Proof.
  intros Hn. unfold Repeat. destruct (Z.ltb_spec n 0); [lia | reflexivity].
Qed.

Lemma headerCells_app c1 c2 :
  headerCells (c1 ++ c2) = headerCells c1 +:+ headerCells c2.
Proof.
  induction c1 as [|c c1 IH]; [reflexivity|].
  cbn [app headerCells foldr]. fold (headerCells (c1 ++ c2)).
  fold (headerCells c1). by rewrite IH, append_assoc.
Qed.

Lemma headerCells_blanks n :
  headerCells (replicate n false) = repeatString " " n.
Proof.
  induction n as [|n IH]; [reflexivity|].
  cbn [replicate headerCells foldr repeatString].
  fold (headerCells (replicate n false)). by rewrite IH.
Qed.

(** * The width function matters on the label lines only *)

Lemma createLines_ext sw1 sw2 a :
  (forall s, s ∈ Lines a -> sw1 s = sw2 s) ->
  createLines sw1 a = createLines sw2 a.
Proof.
  intros H. unfold createLines. destruct (len (Lines a) =? 0); [done|].
  f_equal. f_equal. apply map_ext_in. intros s Hs. f_equal.
  apply H. by apply list_elem_of_In.
Qed.

Lemma place_ext sw1 sw2 l :
  (forall a s, a ∈ l -> s ∈ Lines a -> sw1 s = sw2 s) ->
  place sw1 l = place sw2 l.
Proof.
  intros H. unfold place.
  assert (map (createLines sw1) (SortFunc l) = map (createLines sw2) (SortFunc l))
    as ->; [|done].
  apply map_ext_in. intros a Ha. apply createLines_ext. intros s Hs.
  apply (H a); [|done]. rewrite <- (SortFunc_perm l). by apply list_elem_of_In.
Qed.

Lemma String_ext sw1 sw2 l :
  (forall a s, a ∈ l -> s ∈ Lines a -> sw1 s = sw2 s) ->
  String sw1 l = String sw2 l.
Proof.
  intros H. unfold String, Write.
  rewrite (place_ext sw1 sw2 (CompactFunc l)); [done|].
  intros a s Ha. apply H.
  eapply elem_of_sublist; [done | apply CompactFunc_sublist].
Qed.

(** * The header row *)

Lemma isCol_before annots (c : nat) :
  Forall (fun a => Z.of_nat c < Col a) annots -> isCol annots c = false.
Proof.
  induction 1 as [|a l Ha _ IH]; [done|]. cbn [isCol existsb].
  fold (isCol l c). rewrite IH.
  destruct (Z.eqb_spec (Col a) (Z.of_nat c)); [lia | done].
Qed.

Lemma StronglySorted_colLt_head a l :
  StronglySorted colLt (a :: l) -> Forall (fun b => Col a < Col b) l.
Proof. intros H. by apply StronglySorted_inv in H as [_ H]. Qed.

Lemma headerWidth_cons a b l : headerWidth (a :: b :: l) = headerWidth (b :: l).
Proof. reflexivity. Qed.

Lemma headerWidth_ge a l :
  StronglySorted colLt (a :: l) -> Forall validCol (a :: l) ->
  (Z.to_nat (Col a) + 1 <= headerWidth (a :: l))%nat.
Proof.
  revert a. induction l as [|b l IH]; intros a Hs Hv.
  { unfold headerWidth. cbn. inversion Hv as [|? ? [? ?] _]; subst. lia. }
  rewrite headerWidth_cons.
  apply StronglySorted_inv in Hs as [Hs Hall].
  inversion Hv as [|? ? [? ?] Hv']; subst.
  inversion Hall as [|? ? Hab _]; subst. unfold colLt in Hab.
  specialize (IH b Hs Hv'). inversion Hv' as [|? ? [? ?] _]; subst. lia.
Qed.

Lemma map_all_false {A} (f : A -> bool) (l : list A) :
  (forall x, In x l -> f x = false) ->
  map f l = replicate (List.length l) false.
Proof.
  induction l as [|x l IH]; intros H; [done|]. cbn.
  rewrite (H x) by (by left). f_equal. apply IH. intros y Hy. apply H. by right.
Qed.

Lemma writeArrows_spec annots b lastColPos rowCount :
  StronglySorted colLt annots -> Forall validCol annots ->
  (forall a, head annots = Some a -> 0 <= lastColPos <= Col a) ->
  writeArrows annots b lastColPos rowCount
  = Done (b +:+ headerCells
                  (map (isCol annots)
                     (seq (Z.to_nat lastColPos)
                        (headerWidth annots - Z.to_nat lastColPos))),
          fold_left (fun m a => Z.max m (row a + len (lines a))) annots rowCount).
Proof.
  revert b lastColPos rowCount.
  induction annots as [|a rest IH]; intros b p rc Hs Hv Hp.
  { cbn. by rewrite append_nil_r. }
  specialize (Hp a eq_refl).
  pose proof (headerWidth_ge a rest Hs Hv) as Hw.
  pose proof (StronglySorted_colLt_head a rest Hs) as Hlt.
  apply StronglySorted_inv in Hs as [Hs _].
  inversion Hv as [|? ? Ha Hv']; subst. unfold validCol, maxInt in Ha.
  cbn [writeArrows fold_left].
  rewrite sub64_small by lia. rewrite Repeat_nonneg by lia.
  cbn [mbind outcome_bind].
  set (ca := Z.to_nat (Col a)). set (np := Z.to_nat p).
  assert (Hsplit : seq np (headerWidth (a :: rest) - np)
                   = (seq np (ca - np) ++ [ca]
                      ++ seq (S ca) (headerWidth (a :: rest) - S ca))%list).
  { replace (headerWidth (a :: rest) - np)%nat
      with ((ca - np) + (1 + (headerWidth (a :: rest) - S ca)))%nat
      by (unfold ca, np in *; lia).
    rewrite seq_app. f_equal.
    replace (np + (ca - np))%nat with ca by (unfold ca, np; lia).
    reflexivity. }
  rewrite Hsplit, !map_app, !headerCells_app.
  assert (Hblank : map (isCol (a :: rest)) (seq np (ca - np))
                   = replicate (ca - np) false).
  { rewrite map_all_false; [by rewrite length_seq|].
    intros c Hc. apply in_seq in Hc. apply isCol_before.
    constructor; [unfold ca in *; lia|].
    eapply Forall_impl; [exact Hlt|]. intros x Hx. cbn in Hx. unfold ca in *. lia. }
  assert (Harrow : map (isCol (a :: rest)) [ca] = [true]).
  { cbn [map isCol existsb].
    destruct (Z.eqb_spec (Col a) (Z.of_nat ca)); [done | unfold ca in *; lia]. }
  assert (Hrest : map (isCol (a :: rest)) (seq (S ca) (headerWidth (a :: rest) - S ca))
                  = map (isCol rest) (seq (S ca) (headerWidth (a :: rest) - S ca))).
  { apply map_ext_in. intros c Hc. apply in_seq in Hc. cbn [isCol existsb].
    destruct (Z.eqb_spec (Col a) (Z.of_nat c)); [unfold ca in *; lia | done]. }
  rewrite Hblank, Harrow, Hrest, headerCells_blanks.
  replace (ca - np)%nat with (Z.to_nat (Col a - p)) by (unfold ca, np; lia).
  change (headerCells [true]) with "↑".
  destruct rest as [|h tl].
  { cbn [writeArrows fold_left].
    replace (headerWidth [a] - S ca)%nat with O
      by (unfold headerWidth, ca; cbn [last]; lia).
    cbn [seq map]. change (headerCells []) with "".
    by rewrite ?append_nil_r, ?append_assoc. }
  inversion Hlt as [|? ? Hah _]; subst.
  inversion Hv' as [|? ? Hh _]; subst. unfold validCol, maxInt in Hh.
  rewrite add64_small by lia.
  rewrite IH; [| done | done | intros ? [= <-]; lia].
  rewrite headerWidth_cons.
  replace (Z.to_nat (Col a + 1)) with (S ca) by (unfold ca; lia).
  f_equal. f_equal. by rewrite !append_assoc.
Qed.

Lemma writeArrows_header annots :
  StronglySorted colLt annots -> Forall validCol annots ->
  writeArrows annots "" 0 0
  = Done (headerCells (map (isCol annots) (seq 0 (headerWidth annots))),
          rowCountOf annots).
Proof.
  intros Hs Hv. rewrite writeArrows_spec; [| done | done |].
  - change (Z.to_nat 0) with O. by rewrite Nat.sub_0_r.
  - intros a Ha. destruct annots as [|b l]; [done|].
    cbn in Ha. injection Ha as ->. inversion Hv as [|? ? [? ?] _]; subst. lia.
Qed.

(** * Errors come from the writer *)

Lemma writeRows_error {W : Type} `{Writer W} n r (w : W) annots w' e :
  writeRows n r w annots = Done (w', Some e) ->
  exists w0 s, Fprint w0 s = (w', Some e).
Proof.
  revert r w. induction n as [|n IH]; intros r w Hw; cbn [writeRows] in Hw;
    [done|].
  destruct (writeRow r annots "") as [b| |]; cbn [mbind outcome_bind] in Hw;
    try done.
  destruct (Fprint w (b +:+ newline)) as [w1 [e1|]] eqn:HF.
  - injection Hw as <- <-. eauto.
  - eauto.
Qed.

Lemma write_error {W : Type} `{Writer W} (w : W) annots w' e :
  write w annots = Done (w', Some e) ->
  exists w0 s, Fprint w0 s = (w', Some e).
Proof.
  unfold write. intros Hw.
  destruct (writeArrows annots "" 0 0) as [[b rc]| |];
    cbn [mbind outcome_bind] in Hw; try done.
  destruct (Fprint w (b +:+ newline)) as [w1 [e1|]] eqn:HF.
  - injection Hw as <- <-. eauto.
  - by eapply writeRows_error.
Qed.

(** * A rejected candidate row *)

Lemma annotFits_false_of_line r i a rights :
  0 <= i < len (lines a) -> lineFits r i a rights = false ->
  annotFits r a rights = false.
Proof.
  intros Hi Hfit. unfold annotFits.
  destruct (forallb _ _) eqn:Hall; [|done].
  rewrite forallb_forall in Hall.
  specialize (Hall (Z.to_nat i)). rewrite Z2Nat.id in Hall by lia.
  rewrite Hall in Hfit; [done|]. apply in_seq. unfold len in Hi. lia.
Qed.

Lemma setRowLoop_reject r a rights :
  0 <= r -> Forall hasPipeSlots rights -> annotFits r a rights = false ->
  exists rs, Forall2 sameShape rights rs
    /\ forall fuel, setRowLoop (S fuel) r a rights
                    = setRowLoop fuel (r + 1) (pushedDown a) rs.
Proof.
  intros Hr Hwf Hfit.
  assert (exists rs0, (if r - 1 =? -1 then Done rights else setSpace (r - 1) a rights)
                      = Done rs0 /\ Forall2 sameShape rights rs0)
    as (rs0 & Hrs0 & Hshape0).
  { destruct (Z.eqb_spec (r - 1) (-1)).
    - eexists; split; [reflexivity | apply sameShapes_refl].
    - apply setSpace_spec; [lia | done]. }
  destruct (checkLinesAndSetSpaces_spec r a rs0) as (rs1 & Hrs1 & Hshape1);
    [done | by eapply sameShapes_hasPipeSlots |].
  rewrite <- (annotFits_shape r a a rights rs0), Hfit in Hrs1
    by (done || apply sameShape_refl).
  exists rs1. split; [by eapply sameShapes_trans|].
  intros fuel. cbn [setRowLoop]. rewrite Hrs0. cbn [mbind outcome_bind].
  rewrite Hrs1. done.
Qed.

(** * No blank count becomes negative *)

Lemma index_Done_inv {A} (s : list A) (i : Z) (x : A) :
  index s i = Done x -> 0 <= i < len s /\ s !! Z.to_nat i = Some x.
Proof.
  unfold index.
  destruct (Z.leb_spec 0 i); [|done].
  destruct (Z.ltb_spec i (len s)); cbn [andb]; [|done].
  destruct (s !! Z.to_nat i) as [y|]; [|done].
  intros [= <-]. split; [lia | done].
Qed.

Lemma nonneg_setPipeLeadingSpace rights p i v rs :
  Forall nonneg rights -> 0 <= v ->
  setPipeLeadingSpace rights p i v = Done rs -> Forall nonneg rs.
Proof.
  intros Hn Hv H. unfold setPipeLeadingSpace in H.
  destruct p as [k|]; [|done]. cbn [deref] in H.
  destruct (rights !! k) as [N|] eqn:Hk; cbn [mbind outcome_bind] in H; [|done].
  unfold assign in H.
  destruct ((0 <=? i) && (i <? len (pipeLeadingSpaces N)));
    cbn [mbind outcome_bind] in H; [|done].
  injection H as <-. apply Forall_insert; [done|].
  destruct (Forall_lookup_1 _ _ _ _ Hn Hk) as [Hp Hl]. split; cbn; [|done].
  by apply Forall_insert.
Qed.

Lemma nonneg_setLeadingSpaces rights p i v rs :
  Forall nonneg rights -> 0 <= v ->
  setLeadingSpaces rights p i v = Done rs -> Forall nonneg rs.
Proof.
  intros Hn Hv H. unfold setLeadingSpaces in H.
  destruct p as [k|]; [|done]. cbn [deref] in H.
  destruct (rights !! k) as [N|] eqn:Hk; cbn [mbind outcome_bind] in H; [|done].
  destruct (index (lines N) i) as [x| |]; cbn [mbind outcome_bind] in H;
    try done.
  unfold assign in H.
  destruct ((0 <=? i) && (i <? len (lines N)));
    cbn [mbind outcome_bind] in H; [|done].
  injection H as <-. apply Forall_insert; [done|].
  destruct (Forall_lookup_1 _ _ _ _ Hn Hk) as [Hp Hl]. split; cbn; [done|].
  by apply Forall_insert.
Qed.

Lemma placing_lookup a rights k N :
  placing a rights -> rights !! k = Some N ->
  validCol N /\ Col a < Col N.
Proof.
  intros (_&_&_&_&Hv&Hlt&_) Hk.
  split; [by eapply (Forall_lookup_1 _ _ _ _ Hv) | by eapply (Forall_lookup_1 _ _ _ _ Hlt)].
Qed.

Lemma sorted_lookup_le l i j x y :
  StronglySorted colLt l -> l !! i = Some x -> l !! j = Some y ->
  (i <= j)%nat -> Col x <= Col y.
Proof.
  intros Hs. revert i j. induction Hs as [|z l Hs IH Hz]; intros i j Hi Hj Hij;
    [done|].
  destruct i as [|i], j as [|j]; cbn in Hi, Hj; simplify_eq; try lia.
  - rewrite Forall_forall in Hz. apply list_elem_of_lookup_2 in Hj.
    specialize (Hz _ Hj). unfold colLt in Hz. lia.
  - apply (IH i j); [done | done | lia].
Qed.

Lemma sectionOf_count_mono r N :
  sectionOf r N 1 = noAnnot -> sectionOf r N 0 = noAnnot.
Proof.
  unfold sectionOf.
  destruct (r <? row N); [done|].
  destruct ((row N <=? r) && (r <? row N + len (lines N)) && (r <? 2)); [done|].
  destruct ((2 <=? r) && (r <? row N + len (lines N))); [done|].
  destruct (Z.leb_spec (row N + len (lines N)) r);
    destruct (Z.ltb_spec r (row N + len (lines N) + 1));
    destruct (Z.ltb_spec r (row N + len (lines N) + 0)); cbn [andb];
    try done; lia.
Qed.

Lemma nonneg_setSpace rowBefore a rights rs :
  placing a rights -> setSpace rowBefore a rights = Done rs -> Forall nonneg rs.
Proof.
  intros Hp. pose proof Hp as ((Ha0 & Ha1) &_&_&_&_&_&_&_&Hn).
  unfold maxInt in *. unfold setSpace.
  destruct (closestAnnot_spec rowBefore rights 0)
    as [-> | (k & N & s & -> & Hk & Hin & _)].
  { by intros [= <-]. }
  destruct (placing_lookup _ _ _ _ Hp Hk) as [[HN0 HN1] Hlt]. unfold maxInt in *.
  assert (Hv : 0 <= sub64 (sub64 (Col N) (Col a)) 1).
  { rewrite (sub64_small (Col N)) by lia. rewrite sub64_small by lia. lia. }
  destruct s; cbn [deref]; rewrite ?Hk; cbn [mbind outcome_bind]; intros H.
  - by eapply nonneg_setPipeLeadingSpace.
  - by eapply nonneg_setLeadingSpaces.
  - by eapply nonneg_setLeadingSpaces.
  - by injection H as <-.
  - by injection H as <-.
Qed.

Lemma nonneg_pushedDown a : validCol a -> nonneg a -> nonneg (pushedDown a).
Proof.
  intros [Ha _] [Hp Hl]. split; cbn; [|done].
  apply Forall_app. split; [done|]. by constructor.
Qed.

Lemma checkLineAndSetSpace_unfold r i a rights k s N x :
  closestAnnot (r + i) rights 1 = (Some k, s) -> s <> noAnnot ->
  index (lines a) i = Done x -> rights !! k = Some N ->
  checkLineAndSetSpace r i a rights =
  let lineLength := add64 3 (line.length x) in
  let remainingSpaces := sub64 (sub64 (Col N) (Col a)) lineLength in
  if (remainingSpaces <? 0)
     || (match s with above | linesFirstTwo => true | _ => false end)
        && (remainingSpaces <? 2)
  then Done (false, pushedDown a, rights)
  else
    match s with
    | above =>
        rs ← setPipeLeadingSpace rights (Some k) (r + i) remainingSpaces;
        Done (true, a, rs)
    | linesFirstTwo | linesAfterSecond =>
        rs ← setLeadingSpaces rights (Some k) (r + i - row N) remainingSpaces;
        Done (true, a, rs)
    | trailingSpaceLines =>
        let '(closestA2, s2) := closestAnnot (r + i) rights 0 in
        match s2 with
        | noAnnot => Done (true, a, rights)
        | above =>
            cA2 ← deref rights closestA2;
            rs ← setPipeLeadingSpace rights closestA2 (r + i)
                   (sub64 (sub64 (Col cA2) (Col a)) lineLength);
            Done (true, a, rs)
        | _ =>
            cA2 ← deref rights closestA2;
            rs ← setLeadingSpaces rights closestA2 (r + i - row cA2)
                   (sub64 (sub64 (Col cA2) (Col a)) lineLength);
            Done (true, a, rs)
        end
    | noAnnot => Panics ShouldNeverBeReached
    end.
Proof.
  intros Hc Hs Hx Hk. unfold checkLineAndSetSpace. rewrite Hc, Hx.
  cbn [deref]. rewrite Hk. by destruct s.
Qed.

Lemma nonneg_checkLineAndSetSpace r i a rights b a' rs :
  placing a rights ->
  checkLineAndSetSpace r i a rights = Done (b, a', rs) ->
  nonneg a' /\ Forall nonneg rs.
Proof.
  intros Hp. pose proof Hp as (Hva & Hwa &_& Hna &_&_& Hsorted &_& Hn).
  pose proof Hva as [Ha0 Ha1]. unfold maxInt in *.
  destruct (closestAnnot_spec (r + i) rights 1)
    as [Hc | (k & N & s & Hc & Hk & Hin & Hsec & Hfirst)].
  { unfold checkLineAndSetSpace. rewrite Hc. by intros [= <- <- <-]. }
  assert (Hs : s <> noAnnot) by (intros ->; done).
  destruct (placing_lookup _ _ _ _ Hp Hk) as [[HN0 HN1] Hlt]. unfold maxInt in *.
  destruct (index (lines a) i) as [x| |] eqn:Hx.
  2,3: unfold checkLineAndSetSpace; rewrite Hc, Hx; by destruct s.
  rewrite (checkLineAndSetSpace_unfold r i a rights k s N x) by done.
  apply index_Done_inv in Hx as [_ Hx].
  assert (Hw : 0 <= line.length x <= 2 ^ 63 - 1 - 3).
  { unfold widthsOK in Hwa. rewrite Forall_forall in Hwa. apply Hwa.
    apply list_elem_of_fmap. exists x. split; [done|].
    by eapply list_elem_of_lookup_2. }
  cbn zeta.
  rewrite (add64_small 3) by lia.
  rewrite (sub64_small (Col N)) by lia.
  rewrite (sub64_small (Col N - Col a)) by lia.
  set (remainingSpaces := Col N - Col a - (3 + line.length x)).
  destruct (Z.ltb_spec remainingSpaces 0) as [|Hrem]; cbn [orb].
  { intros [= <- <- <-]. split; [by apply nonneg_pushedDown | done]. }
  destruct ((match s with above | linesFirstTwo => true | _ => false end)
            && (remainingSpaces <? 2)).
  { intros [= <- <- <-]. split; [by apply nonneg_pushedDown | done]. }
  destruct s; try done.
  - (* above *)
    destruct (setPipeLeadingSpace rights (Some k) (r + i) remainingSpaces)
      as [rs'| |] eqn:Hset; cbn [mbind outcome_bind]; try done.
    intros [= <- <- <-]. split; [done|].
    by eapply nonneg_setPipeLeadingSpace.
  - (* linesFirstTwo *)
    destruct (setLeadingSpaces rights (Some k) (r + i - row N) remainingSpaces)
      as [rs'| |] eqn:Hset; cbn [mbind outcome_bind]; try done.
    intros [= <- <- <-]. split; [done|].
    by eapply nonneg_setLeadingSpaces.
  - (* linesAfterSecond *)
    destruct (setLeadingSpaces rights (Some k) (r + i - row N) remainingSpaces)
      as [rs'| |] eqn:Hset; cbn [mbind outcome_bind]; try done.
    intros [= <- <- <-]. split; [done|].
    by eapply nonneg_setLeadingSpaces.
  - (* trailingSpaceLines *)
    destruct (closestAnnot_spec (r + i) rights 0)
      as [-> | (k2 & N2 & s2 & -> & Hk2 & Hin2 & Hsec2 & _)].
    { by intros [= <- <- <-]. }
    destruct (placing_lookup _ _ _ _ Hp Hk2) as [[HN20 HN21] Hlt2].
    unfold maxInt in *.
    assert (Hkk : (k <= k2)%nat).
    { destruct (decide (k <= k2)%nat) as [|Hgt]; [done|]. exfalso.
      assert (sectionOf (r + i) N2 1 = noAnnot) as Hno
        by (apply (Hfirst k2); [lia | done]).
      apply sectionOf_count_mono in Hno.
      rewrite <- Hsec2, Hno in Hin2. done. }
    pose proof (sorted_lookup_le _ _ _ _ _ Hsorted Hk Hk2 Hkk) as Hcols.
    cbn [deref]. rewrite Hk2. cbn [mbind outcome_bind].
    rewrite (sub64_small (Col N2)) by lia.
    rewrite (sub64_small (Col N2 - Col a)) by lia.
    assert (0 <= Col N2 - Col a - (3 + line.length x))
      by (unfold remainingSpaces in *; lia).
    destruct s2; try done.
    + destruct (setPipeLeadingSpace rights (Some k2) (r + i) _)
        as [rs'| |] eqn:Hset; cbn [mbind outcome_bind]; try done.
      intros [= <- <- <-]. split; [done|].
      by eapply nonneg_setPipeLeadingSpace.
    + destruct (setLeadingSpaces rights (Some k2) (r + i - row N2) _)
        as [rs'| |] eqn:Hset; cbn [mbind outcome_bind]; try done.
      intros [= <- <- <-]. split; [done|].
      by eapply nonneg_setLeadingSpaces.
    + destruct (setLeadingSpaces rights (Some k2) (r + i - row N2) _)
        as [rs'| |] eqn:Hset; cbn [mbind outcome_bind]; try done.
      intros [= <- <- <-]. split; [done|].
      by eapply nonneg_setLeadingSpaces.
    + destruct (setLeadingSpaces rights (Some k2) (r + i - row N2) _)
        as [rs'| |] eqn:Hset; cbn [mbind outcome_bind]; try done.
      intros [= <- <- <-]. split; [done|].
      by eapply nonneg_setLeadingSpaces.
Qed.

Lemma Forall_Forall2 {A} (P : A -> Prop) (R : A -> A -> Prop) l l' :
  (forall x y, R x y -> P x -> P y) ->
  Forall2 R l l' -> Forall P l -> Forall P l'.
Proof.
  intros HR. induction 1; intros HP; inversion HP; subst; constructor; eauto.
Qed.

Lemma StronglySorted_Col_Forall2 (R : Z -> Z -> Prop) s s' :
  Forall2 (fun x y => Col x = Col y) s s' ->
  StronglySorted (fun a b => R (Col a) (Col b)) s ->
  StronglySorted (fun a b => R (Col a) (Col b)) s'.
Proof.
  induction 1 as [|x y s s' Hxy Hss IH]; intros Hs; [constructor|].
  apply StronglySorted_inv in Hs as [Hs Hall]. constructor; [by apply IH|].
  clear IH Hs. induction Hss as [|u v s s' Huv _ IH]; [constructor|].
  inversion Hall; subst. constructor; [congruence | by apply IH].
Qed.

Lemma sameShapes_Col l l' :
  Forall2 sameShape l l' -> Forall2 (fun x y => Col x = Col y) l l'.
Proof. intros H. eapply Forall2_impl; [exact H|]. by intros x y (?&_). Qed.

Lemma widthsOK_shape a b : sameShape a b -> widthsOK a -> widthsOK b.
Proof. intros (_&_&_&H&_). unfold widthsOK. by rewrite H. Qed.

Lemma validCol_shape a b : sameShape a b -> validCol a -> validCol b.
Proof. intros (H&_). unfold validCol. by rewrite H. Qed.

Lemma placing_shape a rights rs :
  placing a rights -> Forall2 sameShape rights rs -> Forall nonneg rs ->
  placing a rs.
Proof.
  intros (?&?&?&?&Hv&Hlt&Hs&Hw&_) Hshape Hn.
  unfold placing. split_and!; try done.
  - eapply Forall_Forall2; [|exact Hshape|exact Hv]. apply validCol_shape.
  - eapply Forall_Forall2; [|exact Hshape|exact Hlt].
    intros x y (Hc&_) Hx. by rewrite <- Hc.
  - by apply (StronglySorted_Col_Forall2 Z.lt rights rs (sameShapes_Col _ _ Hshape)).
  - by eapply sameShapes_hasPipeSlots.
Qed.

Lemma placing_pushedDown a rights : placing a rights -> placing (pushedDown a) rights.
Proof.
  intros (Hv&?&Hw&Hn&?&?&?&?&?). unfold placing. split_and!; try done.
  - unfold hasPipeSlots in *. cbn. rewrite len_app. unfold len at 2. cbn. lia.
  - by apply nonneg_pushedDown.
Qed.

Lemma nonneg_checkLinesLoop n (i0 : nat) r a rights b a' rs :
  0 <= r -> (i0 + n)%nat = List.length (lines a) -> placing a rights ->
  checkLinesLoop n (Z.of_nat i0) r a rights = Done (b, a', rs) ->
  nonneg a' /\ Forall nonneg rs.
Proof.
  revert i0 rights. induction n as [|n IH]; intros i0 rights Hr Hn Hp;
    cbn [checkLinesLoop].
  { intros [= <- <- <-]. by destruct Hp as (_&_&_&?&_&_&_&_&?). }
  pose proof Hp as (_&_&_&_&_&_&_&Hwf&_).
  destruct (checkLineAndSetSpace_spec r (Z.of_nat i0) a rights)
    as (rs1 & Heq & Hshape); [lia | unfold len; lia | done |].
  destruct (nonneg_checkLineAndSetSpace _ _ _ _ _ _ _ Hp Heq) as [Ha1 Hrs1].
  rewrite Heq. cbn [mbind outcome_bind].
  destruct (lineFits r (Z.of_nat i0) a rights).
  - replace (Z.of_nat i0 + 1) with (Z.of_nat (S i0)) by lia.
    apply IH; [done | lia | by apply (placing_shape a rights)].
  - by intros [= <- <- <-].
Qed.

Lemma nonneg_setRowLoop fuel r a rights a' rs :
  0 <= r -> placing a rights ->
  setRowLoop fuel r a rights = Done (a', rs) ->
  nonneg a' /\ Forall nonneg rs.
Proof.
  revert r a rights. induction fuel as [|fuel IH]; intros r a rights Hr Hp;
    cbn [setRowLoop]; [done|].
  pose proof Hp as (_&_&_&_&_&_&_&Hwf&Hnn).
  assert (exists rs0, (if r - 1 =? -1 then Done rights else setSpace (r - 1) a rights)
                      = Done rs0 /\ placing a rs0) as (rs0 & -> & Hp0).
  { destruct (Z.eqb_spec (r - 1) (-1)); [by exists rights|].
    destruct (setSpace_spec (r - 1) a rights) as (rs0 & Heq & Hshape);
      [lia | done |].
    exists rs0. split; [done|]. apply (placing_shape a rights); [done | done |].
    by eapply nonneg_setSpace. }
  cbn [mbind outcome_bind].
  pose proof Hp0 as (_&_&_&_&_&_&_&Hwf0&_).
  destruct (checkLinesAndSetSpaces_spec r a rs0) as (rs1 & Heq & Hshape);
    [done | done |].
  rewrite Heq. cbn [mbind outcome_bind].
  destruct (nonneg_checkLinesLoop (List.length (lines a)) O r a rs0 _ _ _ Hr
              eq_refl Hp0 Heq) as [Ha1 Hrs1].
  destruct (annotFits r a rs0).
  - by intros [= <- <-].
  - apply IH; [lia|].
    apply placing_pushedDown. by apply (placing_shape a rs0).
Qed.

Lemma placed_placing a rights : placed (a :: rights) -> placing a rights.
Proof.
  intros (Hs & Hv & Hw & Hwf & Hn).
  apply StronglySorted_inv in Hs as [Hs Hlt].
  inversion Hv; inversion Hw; inversion Hwf; inversion Hn; subst.
  unfold placing. split_and!; done.
Qed.

Lemma placed_drop n st : placed st -> placed (drop n st).
Proof.
  intros (Hs & Hv & Hw & Hwf & Hn). unfold placed.
  split_and!; try by apply Forall_drop.
  rewrite <- (take_drop n st) in Hs. by apply StronglySorted_app in Hs as (_&_&?).
Qed.

Lemma placed_setRows n st st' :
  (n <= List.length st)%nat -> placed st ->
  setRows n st = Done st' -> placed st'.
Proof.
  revert st. induction n as [|k IH]; intros st Hn Hp; cbn [setRows].
  { by intros [= <-]. }
  destruct (drop k st) as [|a rights] eqn:Hdrop.
  { apply (f_equal List.length) in Hdrop. rewrite length_drop in Hdrop.
    cbn in Hdrop. lia. }
  assert (Hst : st = (take k st ++ a :: rights)%list).
  { rewrite <- Hdrop. by rewrite take_drop. }
  pose proof (placed_drop k st Hp) as Hpd. rewrite Hdrop in Hpd.
  pose proof (placed_placing _ _ Hpd) as Hpl.
  pose proof Hpl as (Hva & Hwa & Hwfa & _ & _ & _ & _ & Hwfr & _).
  destruct (setRow_spec a rights Hwfr) as (m & rs & Heq & Hshape & _).
  rewrite Heq. cbn [mbind outcome_bind].
  assert (Hnn : nonneg (pushedDownBy m a) /\ Forall nonneg rs).
  { unfold setRow in Heq. by eapply (nonneg_setRowLoop _ 0 a rights). }
  apply IH.
  { rewrite length_app, length_take. cbn.
    rewrite <- (Forall2_length _ _ _ Hshape).
    apply (f_equal List.length) in Hdrop. rewrite length_drop in Hdrop.
    cbn in Hdrop. lia. }
  destruct Hp as (Hs & Hv & Hw & Hwf & Hn').
  assert (Hcols : Forall2 (fun x y => Col x = Col y) st
                    (take k st ++ pushedDownBy m a :: rs)).
  { rewrite Hst at 1. apply Forall2_app.
    - apply Forall2_same_length_lookup_2; [done|].
      intros i x y Hx Hy. rewrite Hx in Hy. by injection Hy as <-.
    - constructor; [by rewrite pushedDownBy_Col | by apply sameShapes_Col]. }
  split; [|split; [|split; [|split]]].
  - by apply (StronglySorted_Col_Forall2 Z.lt st).
  - eapply Forall_Forall2; [|exact Hcols|exact Hv].
    intros x y Hxy. unfold validCol. by rewrite Hxy.
  - apply Forall_app. split; [by apply Forall_take|]. constructor.
    + unfold widthsOK. by rewrite pushedDownBy_lines.
    + destruct Hpl as (_&_&_&_&_&_&_&_&_).
      destruct Hpd as (_&_&Hwd&_). inversion Hwd; subst.
      eapply Forall_Forall2; [|exact Hshape|done]. apply widthsOK_shape.
  - apply Forall_app. split; [by apply Forall_take|]. constructor.
    + by apply hasPipeSlots_pushedDownBy.
    + by eapply sameShapes_hasPipeSlots.
  - apply Forall_app. split; [by apply Forall_take|].
    destruct Hnn. by constructor.
Qed.

(** * [write] returns *)

Lemma linesOK_label a b : sameLabel a b -> linesOK a -> linesOK b.
Proof.
  intros (_ & HL & Hl) H. unfold linesOK in *. rewrite <- HL.
  assert (List.length (lines a) = List.length (lines b)) as <-; [|done].
  by rewrite <- (length_map line.length (lines a)), Hl, length_map.
Qed.

Lemma nonneg_index_pipe a r n :
  nonneg a -> index (pipeLeadingSpaces a) r = Done n -> 0 <= n.
Proof.
  intros [Hp _] H. apply index_Done_inv in H as [_ H].
  rewrite Forall_forall in Hp. apply Hp. by eapply list_elem_of_lookup_2.
Qed.

Lemma nonneg_index_line a r l :
  nonneg a -> index (lines a) r = Done l -> 0 <= line.leadingSpaces l.
Proof.
  intros [_ Hl] H. apply index_Done_inv in H as [_ H].
  rewrite Forall_forall in Hl. apply Hl. by eapply list_elem_of_lookup_2.
Qed.

Lemma writeSegment_Done r a b :
  0 <= r -> ready a -> exists b', writeSegment r a b = Done b'.
Proof.
  intros Hr (Hwf & Hnn & Hok). unfold writeSegment, hasPipeSlots in *.
  assert (Hlines : 1 <= len (lines a)
                   /\ (Lines a = [] -> len (lines a) = 1)
                   /\ (Lines a <> [] -> len (lines a) = len (Lines a))).
  { unfold len. destruct Hok as [[H1 H2] | [H1 H2]]; rewrite H2.
    - split; [lia|]. split; [done | by intros []].
    - split; [|split; [by intros ? | done]].
      destruct (Lines a); [done | cbn; lia]. }
  destruct Hlines as (Hl1 & Hl2 & Hl3).
  destruct (Z.ltb_spec r (row a)).
  { destruct (index_Done (pipeLeadingSpaces a) r) as (n & _ & Hn); [lia|].
    rewrite Hn. cbn [mbind outcome_bind].
    rewrite Repeat_nonneg by (by eapply nonneg_index_pipe). by eexists. }
  destruct (Z.eqb_spec r (row a)) as [->|Hne].
  { destruct (index_Done (lines a) (row a - row a)) as (l & _ & Hl); [lia|].
    rewrite Hl. cbn [mbind outcome_bind].
    rewrite Repeat_nonneg by (by eapply nonneg_index_line).
    cbn [mbind outcome_bind].
    destruct (Z.eqb_spec (len (Lines a)) 0) as [|Hlen]; [by eexists|].
    destruct (index_Done (Lines a) 0) as (s & _ & Hs).
    { pose proof (len_nonneg (Lines a)). lia. }
    rewrite Hs. by eexists. }
  destruct (Z.ltb_spec r (row a + len (lines a))); [|by eexists].
  destruct (index_Done (lines a) (r - row a)) as (l & _ & Hl); [lia|].
  rewrite Hl. cbn [mbind outcome_bind].
  rewrite Repeat_nonneg by (by eapply nonneg_index_line).
  cbn [mbind outcome_bind].
  destruct (index_Done (Lines a) (r - row a)) as (s & _ & Hs).
  { destruct (Lines a) as [|s0 L] eqn:HL.
    - specialize (Hl2 eq_refl). lia.
    - rewrite <- Hl3 by done. lia. }
  rewrite Hs. by eexists.
Qed.

Lemma writeRow_Done r annots b :
  0 <= r -> Forall ready annots -> exists b', writeRow r annots b = Done b'.
Proof.
  intros Hr H. revert b. induction H as [|a l Ha _ IH]; intros b; cbn [writeRow].
  { by eexists. }
  destruct (writeSegment_Done r a b Hr Ha) as (b1 & ->).
  cbn [mbind outcome_bind]. apply IH.
Qed.

Lemma writeRows_Builder n r (w : Builder) annots :
  0 <= r -> Forall ready annots ->
  exists body, writeRows n r w annots = Done (w +:+ body, None).
Proof.
  revert r w. induction n as [|n IH]; intros r w Hr H; cbn [writeRows].
  { exists "". by rewrite append_nil_r. }
  destruct (writeRow_Done r annots "" Hr H) as (b & ->).
  cbn [mbind outcome_bind]. unfold Fprint at 1, Builder_Writer at 1.
  destruct (IH (r + 1) (w +:+ b +:+ newline)) as (body & ->); [lia | done |].
  exists ((b +:+ newline) +:+ body). by rewrite !append_assoc.
Qed.

Lemma write_Builder (w : Builder) annots :
  StronglySorted colLt annots -> Forall validCol annots -> Forall ready annots ->
  exists body,
    write w annots
    = Done (w +:+ headerCells (map (isCol annots) (seq 0 (headerWidth annots)))
              +:+ newline +:+ body, None).
Proof.
  intros Hs Hv Hr. unfold write. rewrite writeArrows_header by done.
  cbn [mbind outcome_bind]. unfold Fprint at 1, Builder_Writer at 1.
  destruct (writeRows_Builder (Z.to_nat (rowCountOf annots)) 0
              (w +:+ headerCells (map (isCol annots) (seq 0 (headerWidth annots)))
                 +:+ newline) annots) as (body & ->); [done | done |].
  exists body. by rewrite !append_assoc.
Qed.

(** * [String] returns *)

Lemma StronglySorted_colLe_strict s :
  StronglySorted colLe s -> NoDup (map Col s) -> StronglySorted colLt s.
Proof.
  induction 1 as [|x l Hl IH Hx]; intros Hnd; [constructor|].
  cbn in Hnd. apply NoDup_cons in Hnd as [Hx' Hnd].
  constructor; [by apply IH|].
  rewrite Forall_forall in *. intros y Hy. specialize (Hx y Hy).
  unfold colLe, colLt in *.
  destruct (decide (Col x = Col y)) as [Heq|]; [|lia].
  exfalso. apply Hx'. rewrite Heq. apply list_elem_of_fmap. eauto.
Qed.

Lemma Forall2_Col_map l l' :
  Forall2 (fun x y => Col x = Col y) l l' -> map Col l = map Col l'.
Proof. induction 1; cbn; congruence. Qed.

Lemma createLines_cols sw l :
  Forall2 (fun x y => Col x = Col y) l (map (createLines sw) l).
Proof.
  induction l; cbn; constructor; [by rewrite createLines_Col | done].
Qed.

Lemma createLines_nil sw a :
  Lines a = [] -> createLines sw a = with_lines a (lines a ++ [line.mk 0 0]).
Proof. intros H. unfold createLines. by rewrite H. Qed.

Lemma createLines_cons sw a :
  Lines a <> [] ->
  createLines sw a
  = with_pipeLeadingSpaces
      (with_lines a (map (fun s => line.mk (sw s) (Col a)) (Lines a))) [].
Proof. intros H. unfold createLines. by destruct (Lines a). Qed.

Lemma createLines_fresh_ready sw a :
  fresh a -> validCol a ->
  (forall s, s ∈ Lines a -> 0 <= sw s <= maxInt - 3) ->
  widthsOK (createLines sw a) /\ ready (createLines sw a).
Proof.
  intros (Hr & Hl & Hp) [Ha _] Hw.
  unfold ready, hasPipeSlots, nonneg, linesOK, widthsOK.
  destruct (decide (Lines a = [])) as [HL|HL].
  - rewrite createLines_nil by done. cbn. rewrite Hl, Hp, Hr. cbn.
    unfold maxInt. split_and!.
    + repeat constructor; cbn; lia.
    + unfold len. cbn. lia.
    + constructor.
    + repeat constructor. cbn. lia.
    + by left.
  - rewrite createLines_cons by done. cbn. rewrite Hr.
    split_and!.
    + rewrite map_map. cbn.
      apply Forall_fmap, Forall_forall. intros s Hs. by apply Hw.
    + apply len_nonneg.
    + constructor.
    + apply Forall_fmap, Forall_forall. intros s Hs. cbn. done.
    + right. split; [done|]. by rewrite length_map.
Qed.

Lemma isCol_true l c : isCol l c = true <-> Z.of_nat c ∈ map Col l.
Proof.
  unfold isCol. rewrite existsb_exists. split.
  - intros (a & Ha & Heq). apply Z.eqb_eq in Heq. rewrite <- Heq.
    apply list_elem_of_fmap. exists a. split; [done | by apply list_elem_of_In].
  - intros (a & Heq & Ha)%list_elem_of_fmap. exists a.
    split; [by apply list_elem_of_In | by apply Z.eqb_eq].
Qed.

Lemma isCol_ext l l' c :
  (forall z, z ∈ map Col l <-> z ∈ map Col l') -> isCol l c = isCol l' c.
Proof.
  intros H. destruct (isCol l c) eqn:E1, (isCol l' c) eqn:E2; try done.
  - apply isCol_true, H, isCol_true in E1. congruence.
  - apply isCol_true, H, isCol_true in E2. congruence.
Qed.

Lemma compactAfter_cols prev s z :
  z ∈ map Col s -> z = Col prev \/ z ∈ map Col (compactAfter prev s).
Proof.
  revert prev. induction s as [|a s IH]; intros prev Hz; cbn in *; [by inversion Hz|].
  apply elem_of_cons in Hz as [-> | Hz].
  - destruct (Z.eqb_spec (Col a) (Col prev)); [by left | right; cbn; left].
  - destruct (IH a Hz) as [-> | Hin].
    + destruct (Z.eqb_spec (Col a) (Col prev)); [by left | right; cbn; left].
    + right. destruct (Col a =? Col prev); [done | cbn; by right].
Qed.

Lemma CompactFunc_cols s z : z ∈ map Col (CompactFunc s) <-> z ∈ map Col s.
Proof.
  split.
  - intros (a & -> & Ha)%list_elem_of_fmap. apply list_elem_of_fmap. exists a.
    split; [done|]. eapply elem_of_sublist; [done | apply CompactFunc_sublist].
  - destruct s as [|a s]; cbn; [done|].
    intros [-> | Hz]%elem_of_cons; [left|].
    destruct (compactAfter_cols a s z Hz) as [-> | H]; [left | by right].
Qed.

Lemma String_returns sw annots :
  annots <> [] ->
  Forall fresh annots -> Forall validCol annots ->
  NoDup (map Col (CompactFunc annots)) ->
  (forall a s, a ∈ annots -> s ∈ Lines a -> 0 <= sw s <= maxInt - 3) ->
  exists st body,
    String sw annots
    = Done (st, headerCells (map (isCol annots) (seq 0 (headerWidth st)))
                +:+ newline +:+ body)
    /\ place sw (CompactFunc annots) = Done st.
Proof.
  intros Hne Hfresh Hvalid Hnd Hw.
  set (l := CompactFunc annots).
  assert (Hsub : forall a, a ∈ SortFunc l -> a ∈ annots).
  { intros a Ha. rewrite SortFunc_perm in Ha.
    eapply elem_of_sublist; [done | apply CompactFunc_sublist]. }
  assert (Hfl : Forall fresh l).
  { rewrite Forall_forall in *. intros a Ha. apply Hfresh.
    eapply elem_of_sublist; [done | apply CompactFunc_sublist]. }
  destruct (place_spec sw l Hfl) as (st & Hplace & Hlabel & _ & _).
  set (st0 := map (createLines sw) (SortFunc l)) in *.
  assert (Hready0 : Forall (fun a => widthsOK a /\ ready a) st0).
  { unfold st0. apply Forall_fmap, Forall_forall. intros a Ha. cbn.
    rewrite Forall_forall in Hfresh, Hvalid.
    apply createLines_fresh_ready; [by apply Hfresh, Hsub | by apply Hvalid, Hsub |].
    intros s Hs. apply (Hw a); [by apply Hsub | done]. }
  assert (Hvs : Forall validCol (SortFunc l)).
  { rewrite Forall_forall in *. intros a Ha. by apply Hvalid, Hsub. }
  assert (Hsorted0 : StronglySorted colLt st0).
  { apply (StronglySorted_Col_Forall2 Z.lt (SortFunc l) st0);
      [apply createLines_cols|].
    apply StronglySorted_colLe_strict.
    - apply SortFunc_sorted. rewrite Forall_forall in *. intros a Ha.
      apply Hvalid. eapply elem_of_sublist; [done | apply CompactFunc_sublist].
    - by rewrite SortFunc_perm. }
  assert (Hplaced0 : placed st0).
  { unfold placed. split_and!; try done.
    - eapply Forall_Forall2; [|apply createLines_cols|exact Hvs].
      intros x y Hxy. unfold validCol. by rewrite Hxy.
    - eapply Forall_impl; [exact Hready0|]. by intros a [? _].
    - eapply Forall_impl; [exact Hready0|]. by intros a (_ & ? & _).
    - eapply Forall_impl; [exact Hready0|]. by intros a (_ & _ & ? & _). }
  assert (Hplaced : placed st).
  { unfold place in Hplace. fold st0 in Hplace.
    eapply placed_setRows; [| exact Hplaced0 | exact Hplace]. lia. }
  destruct Hplaced as (Hs & Hv & _ & Hwf & Hnn).
  assert (Hready : Forall ready st).
  { apply Forall_forall. intros a Ha. rewrite Forall_forall in Hwf, Hnn.
    unfold ready. split_and!; [by apply Hwf | by apply Hnn |].
    apply list_elem_of_lookup in Ha as [i Ha].
    destruct (Forall2_lookup_r _ _ _ _ _ Hlabel Ha) as (a0 & Ha0 & Hl0).
    apply (linesOK_label a0 a Hl0).
    apply list_elem_of_lookup_2 in Ha0. rewrite Forall_forall in Hready0.
    by destruct (Hready0 _ Ha0) as (_ & _ & _ & ?). }
  destruct (write_Builder "" st Hs Hv Hready) as (body & Hwrite).
  exists st, body. split; [|done].
  unfold String, Write. fold l.
  assert ((len l =? 0) = false) as ->.
  { unfold l. destruct annots; [done | reflexivity]. }
  assert (Hcells : map (isCol st) (seq 0 (headerWidth st))
                   = map (isCol annots) (seq 0 (headerWidth st))).
  { apply map_ext. intros c. apply isCol_ext. intros z.
    rewrite <- (CompactFunc_cols annots). fold l.
    assert (map Col st = map Col (SortFunc l)) as ->.
    { symmetry. apply Forall2_Col_map.
      eapply Forall2_trans; [| apply createLines_cols | ].
      2:{ eapply Forall2_impl; [exact Hlabel|]. intros x y (Hc & _). exact Hc. }
      cbn. intros x y z' -> ->. done. }
    by rewrite (SortFunc_perm l). }
  rewrite Hcells in Hwrite.
  rewrite Hplace. cbn [mbind outcome_bind]. rewrite Hwrite. reflexivity.
Qed.

Lemma Forall2_map_l {A B C : Type} (f : A -> B) (P : B -> C -> Prop) l k :
  Forall2 P (map f l) k -> Forall2 (fun x y => P (f x) y) l k.
Proof.
  revert k. induction l as [|x l IH]; intros k H; inversion H; subst;
    constructor; auto.
Qed.

Lemma StronglySorted_colLe_last s a :
  StronglySorted colLe s -> last s = Some a -> forall b, b ∈ s -> Col b <= Col a.
Proof.
  induction 1 as [|x l Hl IH Hx]; intros Hlast b Hb; [done|].
  destruct l as [|y l'].
  - cbn in Hlast. injection Hlast as <-. apply list_elem_of_singleton in Hb as ->.
    lia.
  - change (last (x :: y :: l')) with (last (y :: l')) in Hlast.
    apply elem_of_cons in Hb as [-> | Hb]; [|by apply IH].
    rewrite Forall_forall in Hx. apply Hx.
    apply last_Some_elem_of in Hlast. done.
Qed.

(** * What [Write] leaves on the annotations *)

Lemma Write_leaves_placed sw {W : Type} `{Writer W} (w : W) annots st st' w' err :
  place sw (CompactFunc annots) = Done st ->
  Write sw w annots = Done (st', w', err) -> st' = st.
Proof.
  intros Hplace. unfold Write.
  destruct (CompactFunc annots) as [|a l] eqn:Hc.
  - cbn. intros [= <- _ _]. cbn in Hplace. by injection Hplace as <-.
  - change (len (a :: l) =? 0) with false. cbv iota. rewrite Hplace.
    cbn [mbind outcome_bind].
    destruct (write w st) as [[w1 e1]| |]; cbn [mbind outcome_bind]; try done.
    by intros [= <- _ _].
Qed.

(** * The claims *)

(** C1, as stated, fails.  [a] at column 0 with the label line "line1" is
    tried at row 1 next to [N] at column 9, which holds two label lines from
    row 0 on.  Row 1 is [N.row + 1]; with an anchor shift of 3 the remaining
    space would be [9 + 3 - 0 - (3 + 5) = 4], which a minimum gap of 4
    accepts.  [checkLineAndSetSpace] classifies the row as [linesFirstTwo],
    computes [9 - 0 - (3 + 5) = 1] and rejects the row. *)
Lemma second_line_shift_counterexample :
  let a := createLines asciiWidth (newAnnot 0 ["line1"]) in
  let N := createLines asciiWidth (newAnnot 9 ["line1"; "line2"]) in
  1 + 0 = row N + 1
  /\ (4 <=? Col N + 3 - Col a - (3 + asciiWidth "line1")) = true
  /\ closestAnnot (1 + 0) [N] 1 = (Some O, linesFirstTwo)
  /\ checkLineAndSetSpace 1 0 a [N] = Done (false, pushedDown a, [N]).
Proof. vm_compute. repeat split; reflexivity. Qed.

(** C1 (amended): when label line [i] of [a] is tested at absolute row
    [r + i], below row 2, and the nearest active right neighbour [N] has its
    second label line there ([r + i = N.row + 1], at least two lines), the
    row is classified [linesFirstTwo], there is no anchor shift and the
    minimum gap is 2: the line is accepted iff
    [N.Col - a.Col - (3 + width) >= 2].  When accepted, the remaining space
    becomes the leading space of [N]'s second line.  When rejected, [a.row]
    is incremented, [a.Col] is appended as fallback pipe space, the right
    annotations are left as they are, and [setRow] goes on with row [r + 1]. *)
Theorem second_label_line_gap (r i : Z) (a N : Annot) (rightAnnots : list Annot)
    (k : nat) (s : section) (l : line.t) :
  closestAnnot (r + i) rightAnnots 1 = (Some k, s) ->
  rightAnnots !! k = Some N ->
  r + i = row N + 1 ->
  r + i < 2 ->
  2 <= len (lines N) ->
  0 <= i ->
  lines a !! Z.to_nat i = Some l ->
  validCol a -> validCol N -> Col a <= Col N ->
  0 <= line.length l <= maxInt - 3 ->
  let remaining := Col N - Col a - (3 + line.length l) in
  s = linesFirstTwo
  /\ lineFits r i a rightAnnots = (2 <=? remaining)
  /\ (2 <= remaining ->
      exists l1, lines N !! 1%nat = Some l1
        /\ checkLineAndSetSpace r i a rightAnnots
           = Done (true, a,
                   <[k := with_lines N
                            (<[1%nat := with_leadingSpaces l1 remaining]>
                               (lines N))]> rightAnnots))
  /\ (remaining < 2 ->
      checkLineAndSetSpace r i a rightAnnots
      = Done (false, pushedDown a, rightAnnots)
      /\ (0 <= r -> Forall hasPipeSlots rightAnnots ->
          exists rs, forall fuel,
            setRowLoop (S fuel) r a rightAnnots
            = setRowLoop fuel (r + 1) (pushedDown a) rs)).
Proof.
  intros Hclosest Hk Hrow Hrow2 Hlen Hi Hl Ha HN HaN Hw remaining.
  unfold validCol, maxInt in *.
  assert (Hs : s = linesFirstTwo).
  { destruct (closestAnnot_spec (r + i) rightAnnots 1)
      as [H | (k' & N' & s' & H & Hk' & _ & Hsec & _)];
      rewrite H in Hclosest; [done|].
    injection Hclosest as -> ->. rewrite Hk in Hk'. injection Hk' as <-.
    rewrite <- Hsec. unfold sectionOf.
    destruct (Z.ltb_spec (r + i) (row N)); [lia|].
    destruct (Z.leb_spec (row N) (r + i)); [|lia].
    destruct (Z.ltb_spec (r + i) (row N + len (lines N))); [|lia].
    destruct (Z.ltb_spec (r + i) 2); [done | lia]. }
  subst s.
  assert (Hidx : index (lines a) i = Done l).
  { pose proof (lookup_lt_Some _ _ _ Hl).
    destruct (index_Done (lines a) i) as (x & Hx & ->); [unfold len; lia|].
    congruence. }
  assert (Hrem : sub64 (sub64 (Col N) (Col a)) (add64 3 (line.length l))
                 = remaining).
  { unfold remaining. rewrite (add64_small 3) by lia.
    rewrite (sub64_small (Col N)) by lia. rewrite sub64_small by lia. lia. }
  assert (Hfits : lineFits r i a rightAnnots = (2 <=? remaining)).
  { unfold lineFits. rewrite Hclosest, Hidx. cbn [deref]. rewrite Hk, Hrem.
    destruct (Z.ltb_spec remaining 0); destruct (Z.ltb_spec remaining 2);
      cbn [negb orb andb]; symmetry;
      first [apply Z.leb_le; lia | apply Z.leb_gt; lia]. }
  assert (Hcheck :
            checkLineAndSetSpace r i a rightAnnots
            = if 2 <=? remaining
              then rs ← setLeadingSpaces rightAnnots (Some k)
                        (r + i - row N) remaining;
                   Done (true, a, rs)
              else Done (false, pushedDown a, rightAnnots)).
  { unfold checkLineAndSetSpace.
    rewrite Hclosest, Hidx. cbn [mbind outcome_bind deref]. rewrite Hk.
    cbn [mbind outcome_bind]. rewrite Hrem.
    destruct (Z.ltb_spec remaining 0); destruct (Z.ltb_spec remaining 2);
      destruct (Z.leb_spec 2 remaining); cbn [orb andb]; (reflexivity || lia). }
  split; [done|]. split; [done|]. split.
  - intros Hgap.
    destruct (index_Done (lines N) 1) as (l1 & Hl1 & Hidx1); [lia|].
    exists l1. split; [done|].
    rewrite Hcheck. destruct (Z.leb_spec 2 remaining); [|lia].
    replace (r + i - row N) with 1 by lia.
    unfold setLeadingSpaces. cbn [deref]. rewrite Hk.
    cbn [mbind outcome_bind]. rewrite Hidx1. cbn [mbind outcome_bind].
    rewrite assign_Done by lia. reflexivity.
  - intros Hgap. split.
    + rewrite Hcheck. destruct (Z.leb_spec 2 remaining); [lia | done].
    + intros Hr Hwf.
      destruct (setRowLoop_reject r a rightAnnots) as (rs & _ & Hrs);
        [done | done | | by exists rs].
      apply (annotFits_false_of_line r i).
      * pose proof (lookup_lt_Some _ _ _ Hl). unfold len. lia.
      * rewrite Hfits. apply Z.leb_gt. lia.
Qed.

Lemma second_label_line_gap_witness :
  let a := createLines asciiWidth (newAnnot 0 ["line1"]) in
  let N := createLines asciiWidth (newAnnot 9 ["line1"; "line2"]) in
  lineFits 1 0 a [N] = (2 <=? 9 - 0 - (3 + 5)).
Proof.
  intros a N.
  refine (proj1 (proj2 (second_label_line_gap 1 0 a N [N] O linesFirstTwo
                          (line.mk 5 0) _ _ _ _ _ _ _ _ _ _ _)));
    try reflexivity; try (vm_compute; intuition discriminate).
Defined.



(** C3: two annotations at columns 0 and 10, each with the label lines
    "line1" and "line2", both five cells wide, render as the header and two
    body rows below; both annotations stay on row 0. *)
Theorem two_annotations_ten_columns_apart (StringWidth : string -> Z) :
  StringWidth "line1" = 5 -> StringWidth "line2" = 5 ->
  String StringWidth
    [newAnnot 0 ["line1"; "line2"]; newAnnot 10 ["line1"; "line2"]]
  = Done ([mkAnnot 0 ["line1"; "line2"] 0 [line.mk 5 0; line.mk 5 0] [];
           mkAnnot 10 ["line1"; "line2"] 0 [line.mk 5 2; line.mk 5 2] []],
          "↑         ↑" +:+ newline +:+
          "└─ line1  └─ line1" +:+ newline +:+
          "   line2     line2" +:+ newline).
Proof.
  intros H1 H2.
  rewrite (String_ext StringWidth asciiWidth).
  - vm_compute. reflexivity.
  - intros a s Ha Hs.
    assert (s = "line1" \/ s = "line2") as [-> | ->].
    { apply list_elem_of_In in Ha. cbn in Ha.
      destruct Ha as [<- | [<- | []]]; apply list_elem_of_In in Hs; cbn in Hs;
        intuition. }
    + by rewrite H1.
    + by rewrite H2.
Qed.

Lemma two_annotations_ten_columns_apart_witness :
  String asciiWidth
    [newAnnot 0 ["line1"; "line2"]; newAnnot 10 ["line1"; "line2"]]
  = Done ([mkAnnot 0 ["line1"; "line2"] 0 [line.mk 5 0; line.mk 5 0] [];
           mkAnnot 10 ["line1"; "line2"] 0 [line.mk 5 2; line.mk 5 2] []],
          "↑         ↑" +:+ newline +:+
          "└─ line1  └─ line1" +:+ newline +:+
          "   line2     line2" +:+ newline).
Proof.
  apply (two_annotations_ten_columns_apart asciiWidth); reflexivity.
Defined.

(** C4 fails on the code for duplicates that are not adjacent in the list
    passed.  [slices.CompactFunc] runs before the sort and only drops an
    annotation whose column equals that of its predecessor, so both
    annotations at column 0 survive, the sort puts them side by side and
    [write] panics on [strings.Repeat(" ", 0 - 1)] before anything is
    written.  The list without the later duplicate renders. *)
Theorem nonadjacent_duplicate_column_panics :
  String asciiWidth [newAnnot 0 ["a"]; newAnnot 5 ["b"]; newAnnot 0 ["c"]]
  = Panics NegativeRepeatCount
  /\ rendered (String asciiWidth [newAnnot 0 ["a"]; newAnnot 5 ["b"]])
     = Done ("↑    ↑" +:+ newline +:+ "│    └─ b" +:+ newline +:+
             "└─ a" +:+ newline)
  /\ rendered (String asciiWidth [newAnnot 0 ["a"]; newAnnot 0 ["c"]; newAnnot 5 ["b"]])
     = Done ("↑    ↑" +:+ newline +:+ "│    └─ b" +:+ newline +:+
             "└─ a" +:+ newline).
Proof. vm_compute. repeat split; reflexivity. Qed.

(** C7: for a non-empty list of annotations no [Write] call has touched
    yet, the placement returns, and the last annotation of the compacted and
    sorted list, whose column is the greatest, is on row 0.  These are the
    annotations as [Write] leaves them. *)
Theorem rightmost_annotation_on_row_0 (StringWidth : string -> Z)
    (annots : list Annot) :
  annots <> [] -> Forall fresh annots -> Forall validCol annots ->
  exists st a,
    place StringWidth (CompactFunc annots) = Done st
    /\ last st = Some a /\ row a = 0
    /\ (forall b, b ∈ st -> Col b <= Col a)
    /\ (forall (W : Type) (H : Writer W) (w : W) st' w' err,
          Write StringWidth w annots = Done (st', w', err) -> st' = st).
Proof.
  intros Hne Hfresh Hvalid.
  set (l := CompactFunc annots).
  assert (Hsub : forall a, a ∈ l -> a ∈ annots).
  { intros a Ha. eapply elem_of_sublist; [done | apply CompactFunc_sublist]. }
  destruct (place_spec StringWidth l) as (st & Hst & Hlabel & _ & Hrow).
  { rewrite Forall_forall in *. auto. }
  assert (Hlen : List.length st = List.length l).
  { rewrite <- (Forall2_length _ _ _ Hlabel), length_map.
    by rewrite (Permutation_length (SortFunc_perm l)). }
  assert (Hl : l <> []) by (unfold l; by destruct annots).
  destruct (last st) as [a|] eqn:Hlast.
  2:{ apply last_None in Hlast. subst st. destruct l; cbn in Hlen; done. }
  exists st, a. split; [done|]. split; [done|]. split; [by apply Hrow|].
  split; [|intros W H w st' w' err; by apply Write_leaves_placed].
  apply StronglySorted_colLe_last; [|done].
  apply (StronglySorted_Col_Forall2 Z.le (SortFunc l)).
  - assert (Hlabel' : Forall2 (fun x y => sameLabel (createLines StringWidth x) y)
                         (SortFunc l) st) by (by apply Forall2_map_l).
    eapply Forall2_impl; [exact Hlabel'|].
    intros x y (Hc & _). by rewrite createLines_Col in Hc.
  - apply SortFunc_sorted. rewrite Forall_forall in *. auto.
Qed.

Lemma rightmost_annotation_on_row_0_witness :
  exists st a,
    place asciiWidth
      (CompactFunc [newAnnot 10 ["line1"]; newAnnot 0 ["line1"; "line2"]])
    = Done st
    /\ last st = Some a /\ row a = 0
    /\ (forall b, b ∈ st -> Col b <= Col a)
    /\ (forall (W : Type) (H : Writer W) (w : W) st' w' err,
          Write asciiWidth w
            [newAnnot 10 ["line1"]; newAnnot 0 ["line1"; "line2"]]
          = Done (st', w', err) -> st' = st).
Proof.
  apply (rightmost_annotation_on_row_0 asciiWidth).
  - discriminate.
  - repeat constructor.
  - repeat constructor; unfold maxInt; cbn; lia.
Defined.

(** C8: annotations with pairwise distinct, valid columns render the same
    in whatever order the list holds them: the call returns the same text
    and leaves the annotations in the same state. *)
Theorem permutation_renders_identically (StringWidth : string -> Z)
    (annots annots' : list Annot) :
  annots ≡ₚ annots' -> NoDup (map Col annots) -> Forall validCol annots ->
  String StringWidth annots = String StringWidth annots'.
Proof.
  intros Hperm Hnd Hvalid.
  assert (Hnd' : NoDup (map Col annots')).
  { by rewrite <- Hperm. }
  unfold String, Write. rewrite !CompactFunc_id by done.
  assert (len annots = len annots') as ->.
  { unfold len. f_equal. by apply Permutation_length. }
  unfold place.
  rewrite (SortFunc_unique annots annots' Hperm Hnd Hvalid).
  destruct annots' as [|a' rest'].
  - apply Permutation_nil_r in Hperm. by subst annots.
  - reflexivity.
Qed.

Lemma permutation_renders_identically_witness :
  String asciiWidth
    [newAnnot 0 ["line1"]; newAnnot 8 ["line1"; "line2"; "line3"]]
  = String asciiWidth
      [newAnnot 8 ["line1"; "line2"; "line3"]; newAnnot 0 ["line1"]].
Proof.
  apply permutation_renders_identically.
  - apply perm_swap.
  - cbn. repeat constructor; rewrite ?list_elem_of_In; cbn; intuition lia.
  - repeat constructor; unfold maxInt; cbn; lia.
Defined.

(** C9 fails on the code.  A first call leaves [a.row] as placed and, for an
    annotation without label lines, one entry in [a.lines]; the second call
    starts from that state.  It appends a second entry to [a.lines] of the
    annotation without label lines and panics in [write] on [a.Lines[1]];
    with label lines, [a.row] is counted up from where the first call left it
    while [a.pipeLeadingSpaces] starts empty, and [write] panics on
    [a.pipeLeadingSpaces[row]]. *)
Theorem second_render_panics (StringWidth : string -> Z) :
  String StringWidth [newAnnot 0 []]
  = Done ([with_lines (newAnnot 0 []) [line.mk 0 0]],
          "↑" +:+ newline +:+ "└─ " +:+ newline)
  /\ String StringWidth [with_lines (newAnnot 0 []) [line.mk 0 0]]
     = Panics IndexOutOfRange
  /\ (st ← String asciiWidth
             [newAnnot 0 ["line1"; "line2"]; newAnnot 1 ["line1"; "line2"]];
      String asciiWidth st.1)
     = Panics IndexOutOfRange.
Proof. vm_compute. repeat split; reflexivity. Qed.

(** C10: a single annotation at column [c] with no label lines renders as
    the header, [c] blanks and the arrow, followed by one body row that is
    the connector with no blank before it; the line made up for it has zero
    leading spaces. *)
Theorem single_annotation_without_lines (StringWidth : string -> Z) (c : Z) :
  0 <= c <= maxInt ->
  String StringWidth [newAnnot c []]
  = Done ([with_lines (newAnnot c []) [line.mk 0 0]],
          repeatString " " (Z.to_nat c) +:+ "↑" +:+ newline +:+
          "└─ " +:+ newline).
Proof.
  intros Hc. unfold maxInt in Hc.
  unfold String, Write, place.
  change (CompactFunc [newAnnot c []]) with [newAnnot c []].
  change (SortFunc [newAnnot c []]) with [newAnnot c []].
  change (map (createLines StringWidth) [newAnnot c []])
    with [with_lines (newAnnot c []) [line.mk 0 0]].
  change (len [newAnnot c []] =? 0) with false. cbv iota.
  unfold write.
  cbn [List.length Nat.sub setRows mbind outcome_bind writeArrows
       Col with_lines newAnnot row lines].
  rewrite sub64_small by lia. rewrite Z.sub_0_r, Repeat_nonneg by lia.
  generalize (repeatString " " (Z.to_nat c)) as blanks; intros blanks.
  cbn [mbind outcome_bind].
  change (0 `max` (0 + len [line.mk 0 0])) with 1.
  vm_compute (Z.to_nat 1).
  cbv -[String.append]. cbn [String.append]. rewrite !append_assoc.
  reflexivity.
Qed.

Lemma single_annotation_without_lines_witness :
  String asciiWidth [newAnnot 3 []]
  = Done ([with_lines (newAnnot 3 []) [line.mk 0 0]],
          "   ↑" +:+ newline +:+ "└─ " +:+ newline).
Proof.
  apply (single_annotation_without_lines asciiWidth 3).
  unfold maxInt. lia.
Defined.

(** * Further properties *)

(** The hypotheses of a statement, on concrete arguments. *)
Ltac concrete_cols :=
  repeat constructor; unfold validCol, intCol, maxInt; cbn; lia.
Ltac concrete_nodup :=
  vm_compute; repeat constructor; rewrite ?list_elem_of_In; cbn; intuition lia.
Ltac concrete_widths :=
  let a := fresh "a" in let s := fresh "s" in
  let Ha := fresh "Ha" in let Hs := fresh "Hs" in
  intros a s Ha Hs;
  repeat (apply elem_of_cons in Ha as [-> | Ha]); try (by inversion Ha);
  cbn in Hs;
  repeat (apply elem_of_cons in Hs as [-> | Hs]); try (by inversion Hs);
  vm_compute; intuition discriminate.
Ltac concrete_labelled :=
  repeat (apply Forall_cons_2; [left; discriminate|]); apply Forall_nil_2.

(** ** Where the segments of a row start *)

Lemma aligned_cons r N rest pos :
  aligned r (N :: rest) pos
  <-> if drawnOn r N
      then pos + blanksBefore r N = Col N /\ aligned r rest (Col N + cellsOf r N)
      else aligned r rest pos.
Proof.
  unfold aligned. cbn [startCols]. destruct (drawnOn r N); [|done].
  cbn zeta. rewrite Forall_cons. cbn [fst snd].
  split; intros [H1 H2]; (split; [done|]).
  - by rewrite <- H1.
  - by rewrite H1.
Qed.

Lemma sectionOf_0 r N :
  sectionOf r N 0 = (if r <? row N then above
                     else if r <? row N + len (lines N)
                     then (if r <? 2 then linesFirstTwo else linesAfterSecond)
                     else noAnnot).
Proof.
  unfold sectionOf.
  destruct (Z.ltb_spec r (row N)); [done|].
  destruct (Z.leb_spec (row N) r); [|lia].
  destruct (Z.ltb_spec r (row N + len (lines N))); cbn [andb].
  - destruct (Z.ltb_spec r 2); [done|].
    destruct (Z.leb_spec 2 r); [done | lia].
  - rewrite andb_false_r.
    destruct (Z.leb_spec (row N + len (lines N)) r); [|lia].
    destruct (Z.ltb_spec r (row N + len (lines N) + 0)); [lia | done].
Qed.

Lemma setPipeLeadingSpace_S N rest k i v :
  setPipeLeadingSpace (N :: rest) (Some (S k)) i v
  = (fun l => N :: l) <$> setPipeLeadingSpace rest (Some k) i v.
Proof.
  unfold setPipeLeadingSpace. cbn [deref lookup list_lookup].
  change ((N :: rest) !! S k) with (rest !! k).
  destruct (rest !! k) as [M|]; [|done]. cbn [mbind outcome_bind].
  destruct (assign (pipeLeadingSpaces M) i v); done.
Qed.

Lemma setLeadingSpaces_S N rest k i v :
  setLeadingSpaces (N :: rest) (Some (S k)) i v
  = (fun l => N :: l) <$> setLeadingSpaces rest (Some k) i v.
Proof.
  unfold setLeadingSpaces. cbn [deref].
  change ((N :: rest) !! S k) with (rest !! k).
  destruct (rest !! k) as [M|]; [|done]. cbn [mbind outcome_bind].
  destruct (index (lines M) i); [|done..]. cbn [mbind outcome_bind].
  destruct (assign (lines M) i _); done.
Qed.

(** [setBlanks] is the write that [setSpace] and [checkLineAndSetSpace]
    do through the pointer of [closestAnnot(row, rightAnnots, 0)]. *)
Lemma setBlanks_closest r f l :
  0 <= r -> Forall hasPipeSlots l ->
  (closestAnnot r l 0 = (None, noAnnot) /\ setBlanks r f l = l)
  \/ exists k N, l !! k = Some N
       /\ ((closestAnnot r l 0 = (Some k, above)
            /\ setPipeLeadingSpace l (Some k) r (f N) = Done (setBlanks r f l))
           \/ ((closestAnnot r l 0 = (Some k, linesFirstTwo)
                \/ closestAnnot r l 0 = (Some k, linesAfterSecond))
               /\ setLeadingSpaces l (Some k) (r - row N) (f N)
                  = Done (setBlanks r f l))).
Proof.
  intros Hr. induction l as [|N rest IH]; intros Hwf; [by left|].
  apply Forall_cons in Hwf as [HN Hwf]. unfold hasPipeSlots in HN.
  pose proof (len_nonneg (lines N)) as Hlen.
  rewrite closestAnnot_cons, sectionOf_0. cbn [setBlanks].
  unfold drawnOn, setBlank.
  destruct (Z.ltb_spec r (row N)).
  { destruct (Z.ltb_spec r (row N + len (lines N))); [|lia].
    right. exists O, N. split; [done|]. left. split; [done|].
    unfold setPipeLeadingSpace. cbn [deref]. cbn [lookup list_lookup].
    cbn [mbind outcome_bind]. rewrite assign_Done by lia. done. }
  destruct (Z.ltb_spec r (row N + len (lines N))).
  { right. exists O, N. split; [done|]. right. split.
    { destruct (r <? 2); [by left | by right]. }
    unfold setLeadingSpaces. cbn [deref]. cbn [lookup list_lookup].
    cbn [mbind outcome_bind].
    destruct (index_Done (lines N) (r - row N)) as (x & Hx & ->); [lia|].
    cbn [mbind outcome_bind]. rewrite Hx. rewrite assign_Done by lia. done. }
  destruct (IH Hwf) as [[-> ->] | (k & M & Hk & HM)]; [by left|].
  right. exists (S k), M. split; [done|].
  destruct HM as [[-> Hset] | [Hc Hset]].
  - left. split; [done|]. by rewrite setPipeLeadingSpace_S, Hset.
  - right. split.
    + destruct Hc as [-> | ->]; [by left | by right].
    + by rewrite setLeadingSpaces_S, Hset.
Qed.

Lemma sectionOf_1_0 r N :
  sectionOf r N 1 <> trailingSpaceLines -> sectionOf r N 0 = sectionOf r N 1.
Proof.
  rewrite sectionOf_0. unfold sectionOf.
  destruct (Z.ltb_spec r (row N)); [done|].
  destruct (Z.leb_spec (row N) r); [|lia].
  destruct (Z.ltb_spec r (row N + len (lines N))); cbn [andb].
  - destruct (Z.ltb_spec r 2); [done|].
    destruct (Z.leb_spec 2 r); [done | lia].
  - rewrite andb_false_r.
    destruct (Z.leb_spec (row N + len (lines N)) r); [|lia].
    destruct (Z.ltb_spec r (row N + len (lines N) + 1)); done.
Qed.

Lemma closestAnnot_1_0 r l p s :
  closestAnnot r l 1 = (p, s) -> s <> trailingSpaceLines ->
  closestAnnot r l 0 = (p, s).
Proof.
  revert p. induction l as [|N rest IH]; intros p; [done|].
  rewrite !closestAnnot_cons. intros Hc Hs.
  destruct (sectionOf r N 1) eqn:H1.
  1-4: injection Hc as <- <-; rewrite sectionOf_1_0, H1; congruence.
  rewrite sectionOf_1_0, H1 by congruence.
  destruct (closestAnnot r rest 1) as [p1 s1].
  injection Hc as <- <-. by rewrite (IH p1).
Qed.

Lemma setSpace_exact rowBefore a rights :
  0 <= rowBefore -> Forall hasPipeSlots rights ->
  setSpace rowBefore a rights
  = Done (setBlanks rowBefore (fun N => sub64 (sub64 (Col N) (Col a)) 1) rights).
Proof.
  intros Hr Hwf. unfold setSpace.
  destruct (setBlanks_closest rowBefore
              (fun N => sub64 (sub64 (Col N) (Col a)) 1) rights Hr Hwf)
    as [[-> ->] | (k & N & Hk & [[-> Hset] | [[-> | ->] Hset]])]; [done|..];
    cbn [deref]; rewrite Hk; cbn [mbind outcome_bind]; exact Hset.
Qed.

Lemma checkLineAndSetSpace_exact r i a rights x :
  0 <= r + i -> 0 <= i -> lines a !! Z.to_nat i = Some x ->
  Forall hasPipeSlots rights ->
  checkLineAndSetSpace r i a rights
  = Done (lineFits r i a rights,
          (if lineFits r i a rights then a else pushedDown a),
          (if lineFits r i a rights
           then setBlanks (r + i)
                  (fun N => sub64 (sub64 (Col N) (Col a)) (add64 3 (line.length x)))
                  rights
           else rights)).
Proof.
  intros Hr Hi Hx Hwf.
  assert (index (lines a) i = Done x) as Hidx.
  { destruct (index_Done (lines a) i) as (y & Hy & ->); [|congruence].
    apply lookup_lt_Some in Hx. unfold len. lia. }
  set (f := fun N => sub64 (sub64 (Col N) (Col a)) (add64 3 (line.length x))).
  destruct (closestAnnot_spec (r + i) rights 1)
    as [Hc | (k & N & s & Hc & Hk & Hin & _)].
  { unfold checkLineAndSetSpace, lineFits. cbn zeta. rewrite Hc.
    apply closestAnnot_1_0 in Hc; [|done].
    destruct (setBlanks_closest (r + i) f rights Hr Hwf)
      as [[_ ->] | (k & N & Hk & [[Hc' _] | [[Hc' | Hc'] _]])];
      [done | congruence..]. }
  assert (s <> noAnnot) as Hs by (by destruct s).
  rewrite (checkLineAndSetSpace_unfold r i a rights k s N x) by done.
  unfold lineFits. rewrite Hc, Hidx. cbn [deref]. rewrite Hk. cbn zeta.
  fold (f N).
  destruct ((f N <? 0)
            || (match s with above | linesFirstTwo => true | _ => false end)
               && (f N <? 2)) eqn:Hrej; cbn [negb].
  { by destruct s. }
  destruct (setBlanks_closest (r + i) f rights Hr Hwf)
    as [[Hc0 Hid] | (k0 & N0 & Hk0 & Hcase)].
  - (* nothing is drawn on the row *)
    destruct s; try done.
    + apply closestAnnot_1_0 in Hc; [congruence | done].
    + apply closestAnnot_1_0 in Hc; [congruence | done].
    + apply closestAnnot_1_0 in Hc; [congruence | done].
    + rewrite Hc0, Hid. done.
  - destruct s; try done.
    + apply closestAnnot_1_0 in Hc; [|done].
      destruct Hcase as [[Hc0 Hset] | [[Hc0 | Hc0] _]]; try congruence.
      assert (k0 = k) as -> by congruence. assert (N0 = N) as -> by congruence.
      rewrite Hset. done.
    + apply closestAnnot_1_0 in Hc; [|done].
      destruct Hcase as [[Hc0 _] | [[Hc0 | Hc0] Hset]]; try congruence.
      assert (k0 = k) as -> by congruence. assert (N0 = N) as -> by congruence.
      rewrite Hset. done.
    + apply closestAnnot_1_0 in Hc; [|done].
      destruct Hcase as [[Hc0 _] | [[Hc0 | Hc0] Hset]]; try congruence.
      assert (k0 = k) as -> by congruence. assert (N0 = N) as -> by congruence.
      rewrite Hset. done.
    + destruct Hcase as [[-> Hset] | [[-> | ->] Hset]];
        cbn [deref]; rewrite Hk0; cbn [mbind outcome_bind];
        fold (f N0); rewrite Hset; done.
Qed.

Lemma setBlank_row r v N : row (setBlank r v N) = row N.
Proof.
  unfold setBlank. destruct (r <? row N); [done|].
  by destruct (lines N !! Z.to_nat (r - row N)).
Qed.

Lemma setBlank_Col r v N : Col (setBlank r v N) = Col N.
Proof.
  unfold setBlank. destruct (r <? row N); [done|].
  by destruct (lines N !! Z.to_nat (r - row N)).
Qed.

Lemma setBlank_lengths r v N :
  line.length <$> lines (setBlank r v N) = line.length <$> lines N.
Proof.
  unfold setBlank. destruct (r <? row N); [done|].
  destruct (lines N !! Z.to_nat (r - row N)) as [x|] eqn:Hx; [|done]. cbn.
  rewrite list_fmap_insert. cbn. apply list_insert_id.
  by rewrite list_lookup_fmap, Hx.
Qed.

Lemma setBlank_len r v N : len (lines (setBlank r v N)) = len (lines N).
Proof.
  unfold len. rewrite <- (length_fmap line.length), setBlank_lengths.
  by rewrite length_fmap.
Qed.

Lemma setBlank_drawnOn r v N r' : drawnOn r' (setBlank r v N) = drawnOn r' N.
Proof. unfold drawnOn. by rewrite setBlank_row, setBlank_len. Qed.

Lemma setBlank_cellsOf r v N r' : cellsOf r' (setBlank r v N) = cellsOf r' N.
Proof.
  unfold cellsOf. rewrite setBlank_row. destruct (r' <? row N); [done|].
  by rewrite <- !list_lookup_fmap, setBlank_lengths.
Qed.

Lemma setBlank_blanksBefore r v N :
  0 <= r -> hasPipeSlots N -> drawnOn r N = true ->
  blanksBefore r (setBlank r v N) = v.
Proof.
  unfold hasPipeSlots, drawnOn, blanksBefore, len. intros Hr HN Hd.
  rewrite setBlank_row. unfold setBlank.
  destruct (Z.ltb_spec r (row N)).
  - cbn. rewrite list_lookup_insert_eq; [done | lia].
  - apply Z.ltb_lt in Hd.
    destruct (lookup_lt_is_Some_2 (lines N) (Z.to_nat (r - row N))) as [x Hx];
      [lia|].
    rewrite Hx. cbn. rewrite list_lookup_insert_eq; [done|].
    by eapply lookup_lt_Some.
Qed.

Lemma setBlank_blanksBefore_ne r v N r' :
  0 <= r -> 0 <= r' -> r <> r' ->
  blanksBefore r' (setBlank r v N) = blanksBefore r' N.
Proof.
  unfold blanksBefore. intros Hr Hr' Hne.
  rewrite setBlank_row. unfold setBlank.
  destruct (Z.ltb_spec r (row N)); destruct (Z.ltb_spec r' (row N)); cbn.
  - rewrite list_lookup_insert_ne; [done | lia].
  - done.
  - by destruct (lines N !! Z.to_nat (r - row N)).
  - destruct (lines N !! Z.to_nat (r - row N)) as [x|]; [|done]. cbn.
    rewrite list_lookup_insert_ne; [done | lia].
Qed.

Lemma aligned_setBlanks r f l pos pos' :
  0 <= r -> Forall hasPipeSlots l ->
  (forall N, N ∈ l -> f N = Col N - pos') ->
  aligned r l pos -> aligned r (setBlanks r f l) pos'.
Proof.
  intros Hr. revert pos.
  induction l as [|N rest IH]; intros pos Hwf Hf; [done|].
  apply Forall_cons in Hwf as [HN Hwf].
  rewrite aligned_cons. cbn [setBlanks].
  destruct (drawnOn r N) eqn:Hd.
  - intros [_ Hrest]. rewrite aligned_cons, setBlank_drawnOn, Hd.
    rewrite setBlank_blanksBefore, setBlank_Col, setBlank_cellsOf by done.
    split; [|done]. rewrite Hf by (apply elem_of_cons; by left). lia.
  - intros Hrest. rewrite aligned_cons, Hd.
    apply (IH pos); [done | | done]. intros M HM. apply Hf. apply elem_of_cons. by right.
Qed.

Lemma aligned_setBlanks_ne r r' f l pos :
  0 <= r -> 0 <= r' -> r <> r' ->
  aligned r' l pos -> aligned r' (setBlanks r f l) pos.
Proof.
  intros Hr Hr' Hne. revert pos.
  induction l as [|N rest IH]; intros pos; [done|].
  rewrite aligned_cons. cbn [setBlanks].
  destruct (drawnOn r N) eqn:Hd.
  - rewrite aligned_cons, setBlank_drawnOn, setBlank_Col, setBlank_cellsOf.
    by rewrite setBlank_blanksBefore_ne.
  - rewrite aligned_cons. destruct (drawnOn r' N); [|by apply IH].
    intros [? ?]. split; [done | by apply IH].
Qed.

Lemma setBlank_shape r v N : sameShape N (setBlank r v N).
Proof.
  unfold sameShape.
  rewrite setBlank_Col, setBlank_row.
  change (map line.length) with (fmap (M := list) line.length).
  rewrite setBlank_lengths.
  split_and!; try done; unfold setBlank; destruct (r <? row N); cbn;
    try done; try (by rewrite length_insert);
    by destruct (lines N !! Z.to_nat (r - row N)).
Qed.

Lemma setBlanks_shape r f l : Forall2 sameShape l (setBlanks r f l).
Proof.
  induction l as [|N rest IH]; [constructor|]. cbn [setBlanks].
  destruct (drawnOn r N).
  - constructor; [apply setBlank_shape | apply sameShapes_refl].
  - constructor; [apply sameShape_refl | done].
Qed.

(** The blank counts the placement writes, in exact arithmetic. *)
Lemma blanks_exact a rights N w :
  placing a rights -> N ∈ rights -> 0 <= w <= maxInt ->
  sub64 (sub64 (Col N) (Col a)) w = Col N - (Col a + w).
Proof.
  intros (Hva & _ & _ & _ & Hv & Hlt & _) HN Hw.
  rewrite Forall_forall in Hv, Hlt.
  pose proof (Hv _ HN) as HvN. pose proof (Hlt _ HN) as HltN.
  unfold validCol, maxInt in *.
  rewrite (sub64_small (Col N) (Col a)) by lia.
  rewrite sub64_small by lia. lia.
Qed.

Lemma widthsOK_lookup a i x :
  widthsOK a -> lines a !! i = Some x -> 0 <= line.length x <= maxInt - 3.
Proof.
  unfold widthsOK. intros Hw Hx. rewrite Forall_forall in Hw. apply Hw.
  apply list_elem_of_fmap. exists x. split; [done|].
  by eapply list_elem_of_lookup_2.
Qed.

Lemma checkLinesLoop_aligned n (i0 : nat) r a rights b a' rs :
  0 <= r -> (i0 + n)%nat = List.length (lines a) -> placing a rights ->
  checkLinesLoop n (Z.of_nat i0) r a rights = Done (b, a', rs) ->
  (forall q pos, 0 <= q ->
     q < r + Z.of_nat i0 \/ r + Z.of_nat i0 + Z.of_nat n <= q ->
     aligned q rights pos -> aligned q rs pos)
  /\ (forall q, 0 <= q ->
        (exists pos, aligned q rights pos) -> exists pos, aligned q rs pos)
  /\ (b = true ->
      forall (i : nat) x pos, (i0 <= i < i0 + n)%nat -> lines a !! i = Some x ->
        aligned (r + Z.of_nat i) rights pos ->
        aligned (r + Z.of_nat i) rs (Col a + (3 + line.length x))).
Proof.
  revert i0 rights. induction n as [|n IH]; intros i0 rights Hr Hn Hp;
    cbn [checkLinesLoop].
  { intros [= <- <- <-]. split_and!; [done | done | intros; lia]. }
  pose proof Hp as (_ & Hwa & _ & _ & _ & _ & _ & Hwf & _).
  destruct (lookup_lt_is_Some_2 (lines a) i0) as [x0 Hx0]; [lia|].
  pose proof (widthsOK_lookup _ _ _ Hwa Hx0) as Hw0.
  set (f := fun N => sub64 (sub64 (Col N) (Col a)) (add64 3 (line.length x0))).
  assert (Hf : forall N, N ∈ rights -> f N = Col N - (Col a + (3 + line.length x0))).
  { intros N HN. unfold f. rewrite add64_small by (unfold maxInt in *; lia).
    apply (blanks_exact a rights); [done | done | unfold maxInt in *; lia]. }
  pose proof (checkLineAndSetSpace_exact r (Z.of_nat i0) a rights x0) as Heq.
  rewrite Nat2Z.id in Heq. specialize (Heq ltac:(lia) ltac:(lia) Hx0 Hwf).
  fold f in Heq.
  destruct (nonneg_checkLineAndSetSpace _ _ _ _ _ _ _ Hp Heq) as [_ Hnn1].
  rewrite Heq. cbn [mbind outcome_bind].
  destruct (lineFits r (Z.of_nat i0) a rights).
  2:{ intros [= <- <- <-]. split_and!; [done | done | done]. }
  replace (Z.of_nat i0 + 1) with (Z.of_nat (S i0)) by lia.
  intros Hloop.
  assert (placing a (setBlanks (r + Z.of_nat i0) f rights)) as Hp1.
  { apply (placing_shape a rights); [done | apply setBlanks_shape | done]. }
  destruct (IH (S i0) _ Hr ltac:(lia) Hp1 Hloop) as (IH1 & IH2 & IH3).
  split_and!.
  - intros q pos Hq Hout Hal. apply IH1; [done | lia |].
    apply aligned_setBlanks_ne; [lia | done | lia | done].
  - intros q Hq [pos Hal]. apply IH2; [done|].
    destruct (decide (q = r + Z.of_nat i0)) as [-> | Hne].
    + eexists. eapply aligned_setBlanks; [lia | done | exact Hf | exact Hal].
    + exists pos. apply aligned_setBlanks_ne; [lia | done | lia | done].
  - intros Hb i x pos Hi Hx Hal.
    destruct (decide (i = i0)) as [-> | Hne].
    + assert (x = x0) as -> by congruence.
      apply IH1; [lia | lia |].
      eapply aligned_setBlanks; [lia | done | exact Hf | exact Hal].
    + apply (IH3 Hb i x pos); [lia | done |].
      apply aligned_setBlanks_ne; [lia | lia | lia | done].
Qed.

Lemma setRowLoop_aligned (sh : Z -> Z) fuel r a rights a' rs :
  0 <= r -> row a = r -> placing a rights ->
  (forall q, 0 <= q ->
     (q < r - 1 -> aligned q rights (Col a + 1))
     /\ (exists pos, aligned q rights pos)
     /\ (r + len (lines a) <= q -> aligned q rights (sh q))) ->
  setRowLoop fuel r a rights = Done (a', rs) ->
  forall q, 0 <= q ->
    if drawnOn q a' then aligned q rs (Col a + cellsOf q a')
    else aligned q rs (sh q).
Proof.
  revert r a rights. induction fuel as [|fuel IH]; intros r a rights Hr Hrow Hp HE;
    cbn [setRowLoop]; [done|].
  pose proof Hp as (_ & _ & _ & _ & _ & _ & _ & Hwf & _).
  pose proof (len_nonneg (lines a)) as Hlen.
  assert (exists rs0,
            (if r - 1 =? -1 then Done rights else setSpace (r - 1) a rights)
            = Done rs0 /\ placing a rs0
            /\ forall q, 0 <= q ->
                 (q < r -> aligned q rs0 (Col a + 1))
                 /\ (exists pos, aligned q rs0 pos)
                 /\ (r + len (lines a) <= q -> aligned q rs0 (sh q)))
    as (rs0 & -> & Hp0 & HE0).
  { destruct (Z.eqb_spec (r - 1) (-1)) as [H0 | H0].
    { exists rights. split_and!; [done | done |]. intros q Hq.
      destruct (HE q Hq) as (_ & ? & ?). split_and!; [lia | done | done]. }
    rewrite setSpace_exact by (done || lia).
    set (f := fun N => sub64 (sub64 (Col N) (Col a)) 1).
    assert (Hf : forall N, N ∈ rights -> f N = Col N - (Col a + 1)).
    { intros N HN. apply (blanks_exact a rights); [done | done |].
      unfold maxInt. lia. }
    eexists. split; [reflexivity|]. split.
    { apply (placing_shape a rights); [done | apply setBlanks_shape |].
      eapply (nonneg_setSpace (r - 1) a rights); [done|].
      apply setSpace_exact; [lia | done]. }
    intros q Hq. destruct (HE q Hq) as (H1 & [pos H2] & H3).
    destruct (decide (q = r - 1)) as [-> | Hne].
    - split_and!.
      + intros _. eapply aligned_setBlanks; [lia | done | exact Hf | exact H2].
      + eexists. eapply aligned_setBlanks; [lia | done | exact Hf | exact H2].
      + lia.
    - split_and!.
      + intros Hlt. apply aligned_setBlanks_ne; [lia | lia | lia |].
        apply H1. lia.
      + exists pos. apply aligned_setBlanks_ne; [lia | lia | lia | done].
      + intros Hge. apply aligned_setBlanks_ne; [lia | lia | lia | by apply H3]. }
  cbn [mbind outcome_bind].
  pose proof Hp0 as (_ & _ & _ & _ & _ & _ & _ & Hwf0 & _).
  destruct (checkLinesAndSetSpaces_spec r a rs0) as (rs1 & Heq & Hshape);
    [done | done |].
  rewrite Heq. cbn [mbind outcome_bind].
  destruct (nonneg_checkLinesLoop (List.length (lines a)) O r a rs0 _ _ _ Hr
              eq_refl Hp0 Heq) as [_ Hnn1].
  destruct (checkLinesLoop_aligned (List.length (lines a)) O r a rs0 _ _ _ Hr
              eq_refl Hp0 Heq) as (C1 & C2 & C3).
  destruct (annotFits r a rs0) eqn:Hfit.
  - intros [= <- <-] q Hq. destruct (HE0 q Hq) as (H1 & [pos H2] & H3).
    unfold drawnOn, cellsOf. rewrite Hrow.
    destruct (Z.ltb_spec q r).
    + destruct (Z.ltb_spec q (r + len (lines a))); [|lia].
      apply C1; [done | lia | by apply H1].
    + destruct (Z.ltb_spec q (r + len (lines a))).
      * destruct (lookup_lt_is_Some_2 (lines a) (Z.to_nat (q - r))) as [x Hx];
          [unfold len in *; lia|].
        rewrite Hx. cbn.
        replace q with (r + Z.of_nat (Z.to_nat (q - r))) at 1 by lia.
        eapply (C3 eq_refl (Z.to_nat (q - r)) x pos);
          [unfold len in *; lia | done |].
        by replace (r + Z.of_nat (Z.to_nat (q - r))) with q by lia.
      * apply C1; [done | unfold len in *; lia | by apply H3].
  - intros Hloop.
    assert (Col (pushedDown a) = Col a) as HC by done.
    rewrite <- HC.
    apply (IH (r + 1) (pushedDown a) rs1); [lia | cbn; lia | | | done].
    { apply placing_pushedDown. by apply (placing_shape a rs0). }
    intros q Hq. destruct (HE0 q Hq) as (H1 & H2 & H3).
    change (lines (pushedDown a)) with (lines a). rewrite HC.
    split_and!.
    + intros Hlt. apply C1; [done | lia |]. apply H1. lia.
    + by apply C2.
    + intros Hge. apply C1; [done | unfold len in *; lia |]. apply H3. lia.
Qed.

Lemma initial_blanksBefore m a q :
  initial a -> 0 <= q -> drawnOn q (pushedDownBy m a) = true ->
  blanksBefore q (pushedDownBy m a)
  = Col a - (if (q =? row (pushedDownBy m a)) && (len (Lines a) =? 0)
             then Col a else 0).
Proof.
  intros (Hrow & Hps & Hls) Hq. unfold drawnOn, blanksBefore.
  rewrite pushedDownBy_row, pushedDownBy_lines, pushedDownBy_pipes, Hrow, Hps.
  intros Hd. apply Z.ltb_lt in Hd. cbn [app].
  destruct (Z.ltb_spec q (0 + Z.of_nat m)).
  { rewrite lookup_replicate_2 by lia.
    destruct (Z.eqb_spec q (0 + Z.of_nat m)); [lia|]. cbn. lia. }
  destruct (lookup_lt_is_Some_2 (lines a) (Z.to_nat (q - (0 + Z.of_nat m))))
    as [x Hx]; [unfold len in *; lia|].
  rewrite Hx. cbn [fmap option_fmap option_map default].
  destruct (len (Lines a) =? 0).
  - rewrite Hls in Hx, Hd. unfold len in Hd. cbn in Hd.
    destruct (Z.eqb_spec q (0 + Z.of_nat m)); [|lia].
    replace (Z.to_nat (q - (0 + Z.of_nat m))) with O in Hx by lia.
    injection Hx as <-. cbn. lia.
  - rewrite andb_false_r. rewrite Forall_forall in Hls.
    rewrite (Hls x); [cbn; lia|]. by eapply list_elem_of_lookup_2.
Qed.

Lemma drawnOn_shape q a b : sameShape a b -> drawnOn q a = drawnOn q b.
Proof.
  intros Hs. unfold drawnOn. rewrite (sameShape_len_lines a b Hs).
  destruct Hs as (_ & _ & -> & _). done.
Qed.

Lemma shiftOf_shape q l l' : Forall2 sameShape l l' -> shiftOf q l = shiftOf q l'.
Proof.
  induction 1 as [|a b l l' Hab _ IH]; [done|]. cbn [shiftOf].
  rewrite (drawnOn_shape q a b Hab), IH.
  destruct Hab as (-> & -> & -> & _). done.
Qed.

Lemma setRows_aligned n st st' :
  (n <= List.length st)%nat -> placed st ->
  (forall i a, (i < n)%nat -> st !! i = Some a -> initial a) ->
  (forall q, 0 <= q -> aligned q (drop n st) (shiftOf q (drop n st))) ->
  setRows n st = Done st' ->
  forall q, 0 <= q -> aligned q st' (shiftOf q st').
Proof.
  revert st. induction n as [|k IH]; intros st Hn Hp Hlab Hal; cbn [setRows].
  { intros [= <-]. exact Hal. }
  destruct (drop k st) as [|a rights] eqn:Hdrop.
  { apply (f_equal List.length) in Hdrop. rewrite length_drop in Hdrop.
    cbn in Hdrop. lia. }
  assert (Hst : st = (take k st ++ a :: rights)%list).
  { rewrite <- Hdrop. by rewrite take_drop. }
  assert (Hka : st !! k = Some a).
  { rewrite <- (Nat.add_0_r k), <- lookup_drop, Hdrop. done. }
  assert (Hrights : drop (S k) st = rights).
  { replace (S k) with (k + 1)%nat by lia. by rewrite <- drop_drop, Hdrop. }
  pose proof (Hlab k a ltac:(lia) Hka) as Hla.
  pose proof (placed_drop k st Hp) as Hpd. rewrite Hdrop in Hpd.
  pose proof (placed_placing _ _ Hpd) as Hpl.
  pose proof Hpl as (_ & _ & _ & _ & _ & _ & _ & Hwfr & _).
  destruct (setRow_spec a rights Hwfr) as (m & rs & Heq & Hshape & _).
  rewrite Heq. cbn [mbind outcome_bind]. intros Hrows.
  assert (Hlen : (k < List.length st)%nat) by lia.
  assert (Hp1 : placed (take k st ++ pushedDownBy m a :: rs)).
  { assert (setRows 1 (a :: rights) = Done (pushedDownBy m a :: rs)) as H1.
    { cbn [setRows drop]. rewrite Heq. done. }
    pose proof (placed_setRows 1 (a :: rights) _ ltac:(cbn; lia) Hpd H1) as Hp1.
    destruct Hp as (Hs & Hv & Hw & Hwf & Hn').
    destruct Hp1 as (Hs1 & Hv1 & Hw1 & Hwf1 & Hn1).
    assert (Hcols : Forall2 (fun x y => Col x = Col y) st
                      (take k st ++ pushedDownBy m a :: rs)).
    { rewrite Hst at 1. apply Forall2_app.
      - apply Forall2_same_length_lookup_2; [done|].
        intros i x y Hx Hy. rewrite Hx in Hy. by injection Hy as <-.
      - constructor; [by rewrite pushedDownBy_Col | by apply sameShapes_Col]. }
    unfold placed. split_and!.
    - by apply (StronglySorted_Col_Forall2 Z.lt st).
    - apply Forall_app. split; [by apply Forall_take | done].
    - apply Forall_app. split; [by apply Forall_take | done].
    - apply Forall_app. split; [by apply Forall_take | done].
    - apply Forall_app. split; [by apply Forall_take | done]. }
  apply (IH (take k st ++ pushedDownBy m a :: rs)%list); [| done | | | done].
  { rewrite length_app, length_take. lia. }
  { intros i b Hi Hb. apply (Hlab i b); [lia|].
    rewrite lookup_app_l in Hb by (rewrite length_take; lia).
    by rewrite lookup_take_lt in Hb by lia. }
  intros q Hq.
  rewrite drop_app_length' by (rewrite length_take; lia).
  rewrite aligned_cons.
  assert (Hloop : if drawnOn q (pushedDownBy m a)
                  then aligned q rs (Col a + cellsOf q (pushedDownBy m a))
                  else aligned q rs (shiftOf q rights)).
  { apply (setRowLoop_aligned (fun q => shiftOf q rights)
             (S (Z.to_nat (rowBound rights))) 0 a rights);
      [lia | exact (proj1 Hla) | done | | exact Heq | done].
    intros q' Hq'. specialize (Hal q' Hq'). rewrite Hrights in Hal.
    split_and!; [lia | by eexists | done]. }
  cbn [shiftOf]. rewrite pushedDownBy_Col, pushedDownBy_Lines.
  destruct (drawnOn q (pushedDownBy m a)) eqn:Hd.
  - split; [|done]. rewrite initial_blanksBefore by done. lia.
  - by rewrite <- (shiftOf_shape q rights rs Hshape).
Qed.

(** What a call with valid arguments goes through: the slice after the
    first loop of [Write] and the slice after the second. *)
Lemma place_valid sw annots :
  Forall fresh annots -> Forall validCol annots ->
  NoDup (map Col (CompactFunc annots)) ->
  (forall a s, a ∈ annots -> s ∈ Lines a -> 0 <= sw s <= maxInt - 3) ->
  let st0 := map (createLines sw) (SortFunc (CompactFunc annots)) in
  placed st0
  /\ exists st, place sw (CompactFunc annots) = Done st
       /\ setRows (List.length st0 - 1) st0 = Done st
       /\ placed st /\ Forall ready st /\ Forall2 sameLabel st0 st.
Proof.
  intros Hfresh Hvalid Hnd Hw.
  set (l := CompactFunc annots).
  assert (Hsub : forall a, a ∈ SortFunc l -> a ∈ annots).
  { intros a Ha. rewrite SortFunc_perm in Ha.
    eapply elem_of_sublist; [done | apply CompactFunc_sublist]. }
  assert (Hfl : Forall fresh l).
  { rewrite Forall_forall in *. intros a Ha. apply Hfresh.
    eapply elem_of_sublist; [done | apply CompactFunc_sublist]. }
  destruct (place_spec sw l Hfl) as (st & Hplace & Hlabel & _ & _).
  cbn zeta. set (st0 := map (createLines sw) (SortFunc l)) in *.
  assert (Hready0 : Forall (fun a => widthsOK a /\ ready a) st0).
  { unfold st0. apply Forall_fmap, Forall_forall. intros a Ha. cbn.
    rewrite Forall_forall in Hfresh, Hvalid.
    apply createLines_fresh_ready; [by apply Hfresh, Hsub | by apply Hvalid, Hsub |].
    intros s Hs. apply (Hw a); [by apply Hsub | done]. }
  assert (Hvs : Forall validCol (SortFunc l)).
  { rewrite Forall_forall in *. intros a Ha. by apply Hvalid, Hsub. }
  assert (Hsorted0 : StronglySorted colLt st0).
  { apply (StronglySorted_Col_Forall2 Z.lt (SortFunc l) st0);
      [apply createLines_cols|].
    apply StronglySorted_colLe_strict.
    - apply SortFunc_sorted. rewrite Forall_forall in *. intros a Ha.
      apply Hvalid. eapply elem_of_sublist; [done | apply CompactFunc_sublist].
    - by rewrite SortFunc_perm. }
  assert (Hplaced0 : placed st0).
  { unfold placed. split_and!; try done.
    - eapply Forall_Forall2; [|apply createLines_cols|exact Hvs].
      intros x y Hxy. unfold validCol. by rewrite Hxy.
    - eapply Forall_impl; [exact Hready0|]. by intros a [? _].
    - eapply Forall_impl; [exact Hready0|]. by intros a (_ & ? & _).
    - eapply Forall_impl; [exact Hready0|]. by intros a (_ & _ & ? & _). }
  split; [done|]. exists st.
  assert (Hplaced : placed st).
  { unfold place in Hplace. fold st0 in Hplace.
    eapply placed_setRows; [| exact Hplaced0 | exact Hplace]. lia. }
  split_and!; try done.
  pose proof Hplaced as (Hs & Hv & _ & Hwf & Hnn).
  apply Forall_forall. intros a Ha. rewrite Forall_forall in Hwf, Hnn.
  unfold ready. split_and!; [by apply Hwf | by apply Hnn |].
  apply list_elem_of_lookup in Ha as [i Ha].
  destruct (Forall2_lookup_r _ _ _ _ _ Hlabel Ha) as (a0 & Ha0 & Hl0).
  apply (linesOK_label a0 a Hl0).
  apply list_elem_of_lookup_2 in Ha0. rewrite Forall_forall in Hready0.
  by destruct (Hready0 _ Ha0) as (_ & _ & _ & ?).
Qed.

Lemma createLines_initial sw a : fresh a -> initial (createLines sw a).
Proof.
  intros (Hrow & Hls & Hps). unfold initial, createLines.
  destruct (Lines a) as [|s ss] eqn:HL.
  - change (len (@nil string) =? 0) with true. cbv iota.
    cbn [Lines with_lines]. rewrite HL.
    change (len (@nil string) =? 0) with true. cbv iota.
    split_and!; [done | done |]. cbn [lines with_lines]. by rewrite Hls.
  - change (len (s :: ss) =? 0) with false. cbv iota.
    cbn [Lines with_lines with_pipeLeadingSpaces]. rewrite HL.
    change (len (s :: ss) =? 0) with false. cbv iota.
    split_and!; [done | done |]. cbn [lines with_pipeLeadingSpaces with_lines Col].
    apply Forall_fmap, Forall_forall. by intros.
Qed.

(** The segments of every body row, up to the shift of the row. *)
Lemma place_aligned sw annots :
  Forall fresh annots -> Forall validCol annots ->
  NoDup (map Col (CompactFunc annots)) ->
  (forall a s, a ∈ annots -> s ∈ Lines a -> 0 <= sw s <= maxInt - 3) ->
  exists st,
    place sw (CompactFunc annots) = Done st
    /\ placed st
    /\ Forall2 sameLabel (map (createLines sw) (SortFunc (CompactFunc annots))) st
    /\ forall q, 0 <= q -> aligned q st (shiftOf q st).
Proof.
  intros Hfresh Hvalid Hnd Hw.
  destruct (place_valid sw annots Hfresh Hvalid Hnd Hw)
    as (Hp0 & st & Hplace & Hrows & Hp & _ & Hlabel).
  exists st. split_and!; [done | done | done |].
  set (st0 := map (createLines sw) (SortFunc (CompactFunc annots))) in *.
  assert (Hl0 : Forall initial st0).
  { unfold st0. apply Forall_fmap, Forall_forall. intros a Ha. cbn.
    rewrite SortFunc_perm in Ha.
    assert (a ∈ annots) as Hin
      by (eapply elem_of_sublist; [done | apply CompactFunc_sublist]).
    rewrite Forall_forall in Hfresh. by apply createLines_initial, Hfresh. }
  apply (setRows_aligned (List.length st0 - 1) st0 st); [lia | done | | | done].
  { intros i a _ Ha. rewrite Forall_forall in Hl0. apply Hl0.
    by eapply list_elem_of_lookup_2. }
  intros q Hq.
  destruct (drop (List.length st0 - 1) st0) as [|a [|b rest]] eqn:Hdrop.
  - constructor.
  - rewrite aligned_cons. cbn [shiftOf].
    destruct (drawnOn q a) eqn:Hd; [|constructor].
    split; [|constructor].
    assert (initial a) as Hla.
    { rewrite Forall_forall in Hl0. apply Hl0.
      apply (list_elem_of_lookup_2 _ (List.length st0 - 1 + 0)).
      by rewrite <- lookup_drop, Hdrop. }
    pose proof (initial_blanksBefore O a q Hla Hq Hd) as Hb.
    cbn [pushedDownBy] in Hb. rewrite Hb. lia.
  - apply (f_equal List.length) in Hdrop. rewrite length_drop in Hdrop.
    cbn in Hdrop. lia.
Qed.

Lemma shiftOf_zero q l :
  Forall (fun a => Lines a <> [] \/ Col a = 0) l -> shiftOf q l = 0.
Proof.
  induction 1 as [|a l Ha _ IH]; [done|]. cbn [shiftOf].
  destruct (drawnOn q a); [|done].
  destruct Ha as [Ha | ->]; [|by destruct (_ && _)].
  destruct (Lines a); [done|]. by rewrite andb_false_r.
Qed.

Lemma startCols_shift q l pos d :
  startCols q l (pos + d) = map (fun p => (p.1, p.2 + d)) (startCols q l pos).
Proof.
  revert pos. induction l as [|a l IH]; intros pos; cbn [startCols]; [done|].
  destruct (drawnOn q a); [|apply IH]. cbn zeta. cbn [map fst snd].
  f_equal; [f_equal; lia|].
  rewrite <- IH. f_equal. lia.
Qed.

(** X1: segments start in their annotation's column.  For annotations no
    [Write] call has touched yet, in valid columns that are pairwise
    distinct once compacted, with label widths that leave room for the
    connector, and each with a label line (or in column 0), the placement
    returns, no blank count it leaves is negative, and on every body row the
    blank counts bring each segment [write] draws (a pipe, one cell; the
    connector or the indent, three cells, and then the label line) exactly
    to the column of its annotation.  So no two segments of a row
    overlap. *)
Theorem segments_start_in_their_columns (StringWidth : string -> Z)
    (annots : list Annot) :
  Forall fresh annots -> Forall validCol annots ->
  NoDup (map Col (CompactFunc annots)) ->
  (forall a s, a ∈ annots -> s ∈ Lines a -> 0 <= StringWidth s <= maxInt - 3) ->
  Forall (fun a => Lines a <> [] \/ Col a = 0) annots ->
  exists st,
    place StringWidth (CompactFunc annots) = Done st
    /\ Forall nonneg st
    /\ forall r, 0 <= r -> Forall (fun p => p.2 = Col p.1) (startCols r st 0).
Proof.
  intros Hfresh Hvalid Hnd Hw Hlab.
  destruct (place_aligned StringWidth annots Hfresh Hvalid Hnd Hw)
    as (st & Hplace & Hp & Hlabel & Hal).
  exists st. split_and!; [done | by destruct Hp as (_&_&_&_&?) |].
  intros r Hr. specialize (Hal r Hr). rewrite shiftOf_zero in Hal; [done|].
  apply Forall2_map_l in Hlabel.
  apply Forall_forall. intros a Ha.
  apply list_elem_of_lookup in Ha as [i Hi].
  destruct (Forall2_lookup_r _ _ _ _ _ Hlabel Hi) as (x & Hx & (Hc & HL & _)).
  apply list_elem_of_lookup_2 in Hx. rewrite SortFunc_perm in Hx.
  assert (x ∈ annots) as Hin
    by (eapply elem_of_sublist; [done | apply CompactFunc_sublist]).
  rewrite Forall_forall in Hlab. specialize (Hlab x Hin).
  rewrite createLines_Col in Hc. rewrite <- Hc, <- HL.
  unfold createLines. by destruct (len (Lines x) =? 0).
Qed.

Lemma segments_start_in_their_columns_witness :
  exists st,
    place asciiWidth
      (CompactFunc [newAnnot 4 ["b"]; newAnnot 0 ["line1"; "line2"]]) = Done st
    /\ Forall nonneg st
    /\ forall r, 0 <= r -> Forall (fun p => p.2 = Col p.1) (startCols r st 0).
Proof.
  apply (segments_start_in_their_columns asciiWidth
           [newAnnot 4 ["b"]; newAnnot 0 ["line1"; "line2"]]).
  - repeat constructor.
  - concrete_cols.
  - concrete_nodup.
  - concrete_widths.
  - concrete_labelled.
Defined.

(** X18: X1 without the requirement of a label line.  On every body row
    each segment starts in the column of its annotation less the shift of
    the row: the column of the first annotation drawn on the row when that
    annotation has no label lines and the row is its own, and 0 otherwise
    (the first loop of [Write] indents label lines by the column, and not
    the one line it makes up for an annotation without label lines).  On
    such a row the connector of that annotation starts in column 0, and
    what is drawn to its right stands that many columns left of its
    arrow. *)
Theorem segments_start_up_to_the_shift (StringWidth : string -> Z)
    (annots : list Annot) :
  Forall fresh annots -> Forall validCol annots ->
  NoDup (map Col (CompactFunc annots)) ->
  (forall a s, a ∈ annots -> s ∈ Lines a -> 0 <= StringWidth s <= maxInt - 3) ->
  exists st,
    place StringWidth (CompactFunc annots) = Done st
    /\ forall r, 0 <= r ->
         Forall (fun p => p.2 = Col p.1 - shiftOf r st) (startCols r st 0).
Proof.
  intros Hfresh Hvalid Hnd Hw.
  destruct (place_aligned StringWidth annots Hfresh Hvalid Hnd Hw)
    as (st & Hplace & _ & _ & Hal).
  exists st. split; [done|]. intros r Hr. specialize (Hal r Hr).
  unfold aligned in Hal.
  replace (shiftOf r st) with (0 + shiftOf r st) in Hal at 1 by lia.
  rewrite startCols_shift in Hal. rewrite Forall_fmap in Hal.
  eapply Forall_impl; [exact Hal|]. intros [a c]. cbn. lia.
Qed.

Lemma segments_start_up_to_the_shift_witness :
  exists st,
    place asciiWidth (CompactFunc [newAnnot 2 []; newAnnot 10 ["x"]]) = Done st
    /\ forall r, 0 <= r ->
         Forall (fun p => p.2 = Col p.1 - shiftOf r st) (startCols r st 0).
Proof.
  apply (segments_start_up_to_the_shift asciiWidth
           [newAnnot 2 []; newAnnot 10 ["x"]]).
  - repeat constructor.
  - concrete_cols.
  - concrete_nodup.
  - concrete_widths.
Defined.

(** The annotation at column 2 has no label line: its connector is drawn in
    column 0 and the connector of the annotation at column 10 in column 8. *)
Example segments_shifted_by_two :
  rendered (String asciiWidth [newAnnot 2 []; newAnnot 10 ["x"]])
  = Done ("  ↑       ↑" +:+ newline +:+ "└─      └─ x" +:+ newline).
Proof. vm_compute. reflexivity. Qed.

(** ** The lines of the rendering *)

Lemma writeSegment_text r a b :
  0 <= r -> ready a ->
  writeSegment r a b
  = Done (b +:+ (if drawnOn r a
                 then repeatString " " (Z.to_nat (blanksBefore r a))
                      +:+ segmentText r a
                 else "")).
Proof.
  intros Hr (Hwf & Hnn & Hok).
  unfold writeSegment, hasPipeSlots, drawnOn, blanksBefore, segmentText in *.
  assert (Hlines : 1 <= len (lines a)
                   /\ (Lines a = [] -> len (lines a) = 1)
                   /\ (Lines a <> [] -> len (lines a) = len (Lines a))).
  { unfold len. destruct Hok as [[H1 H2] | [H1 H2]]; rewrite H2.
    - split; [lia|]. split; [done | by intros []].
    - split; [|split; [by intros ? | done]].
      destruct (Lines a); [done | cbn; lia]. }
  destruct Hlines as (Hl1 & Hl2 & Hl3).
  destruct (Z.ltb_spec r (row a)).
  { destruct (Z.ltb_spec r (row a + len (lines a))); [|lia].
    destruct (index_Done (pipeLeadingSpaces a) r) as (n & Hn' & Hn); [lia|].
    rewrite Hn, Hn'. cbn [mbind outcome_bind default].
    rewrite Repeat_nonneg by (by eapply nonneg_index_pipe). done. }
  destruct (Z.eqb_spec r (row a)) as [->|Hne].
  { destruct (Z.ltb_spec (row a) (row a + len (lines a))); [|lia].
    destruct (index_Done (lines a) (row a - row a)) as (l & Hl' & Hl); [lia|].
    rewrite Hl, Hl'. cbn [mbind outcome_bind default fmap option_fmap option_map].
    rewrite Repeat_nonneg by (by eapply nonneg_index_line).
    cbn [mbind outcome_bind].
    destruct (Z.eqb_spec (len (Lines a)) 0) as [Hlen|Hlen].
    { destruct (Lines a); [done | by cbn in Hlen]. }
    destruct (index_Done (Lines a) 0) as (s & Hs' & Hs).
    { pose proof (len_nonneg (Lines a)). lia. }
    rewrite Hs. change (Z.to_nat 0) with O in Hs'. rewrite Hs'. done. }
  destruct (Z.ltb_spec r (row a + len (lines a))); [|by rewrite append_nil_r].
  destruct (index_Done (lines a) (r - row a)) as (l & Hl' & Hl); [lia|].
  rewrite Hl, Hl'. cbn [mbind outcome_bind default fmap option_fmap option_map].
  rewrite Repeat_nonneg by (by eapply nonneg_index_line).
  cbn [mbind outcome_bind].
  destruct (index_Done (Lines a) (r - row a)) as (s & Hs' & Hs).
  { destruct (Lines a) as [|s0 L] eqn:HL.
    - specialize (Hl2 eq_refl). lia.
    - rewrite <- Hl3 by done. lia. }
  rewrite Hs, Hs'. done.
Qed.

Lemma writeRow_text r annots b :
  0 <= r -> Forall ready annots ->
  writeRow r annots b = Done (b +:+ rowText r annots).
Proof.
  intros Hr H. revert b. induction H as [|a l Ha _ IH]; intros b;
    cbn [writeRow rowText foldr].
  { by rewrite append_nil_r. }
  rewrite (writeSegment_text r a b Hr Ha). cbn [mbind outcome_bind].
  rewrite IH. fold (rowText r l).
  destruct (drawnOn r a); by rewrite ?append_nil_r, ?append_assoc.
Qed.

Lemma writeRows_feed {W : Type} `{Writer W} n (r : nat) (w : W) annots :
  Forall ready annots ->
  writeRows n (Z.of_nat r) w annots
  = Done (feed w (map (fun r => rowText (Z.of_nat r) annots +:+ newline)
                    (seq r n))).
Proof.
  intros Hready. revert r w. induction n as [|n IH]; intros r w;
    cbn [writeRows seq map feed]; [done|].
  rewrite writeRow_text by (lia || done). cbn [mbind outcome_bind].
  change ("" +:+ rowText (Z.of_nat r) annots) with (rowText (Z.of_nat r) annots).
  destruct (Fprint w (rowText (Z.of_nat r) annots +:+ newline)) as [w' [e|]];
    [done|].
  replace (Z.of_nat r + 1) with (Z.of_nat (S r)) by lia. apply IH.
Qed.

Lemma write_feed {W : Type} `{Writer W} (w : W) annots :
  StronglySorted colLt annots -> Forall validCol annots -> Forall ready annots ->
  write w annots = Done (feed w (textLines annots)).
Proof.
  intros Hs Hv Hr. unfold write, textLines. rewrite writeArrows_header by done.
  cbn [mbind outcome_bind feed].
  destruct (Fprint w _) as [w' [e|]]; [done|].
  apply (writeRows_feed _ O). done.
Qed.

Lemma feed_Builder (w : Builder) chunks :
  feed w chunks = (w +:+ foldr String.append "" chunks, None).
Proof.
  revert w. induction chunks as [|s rest IH]; intros w; cbn [feed foldr].
  { by rewrite append_nil_r. }
  unfold Fprint at 1, Builder_Writer at 1. rewrite IH.
  by rewrite append_assoc.
Qed.

(** X2: what [Write] hands to its writer.  For a non-empty list of
    annotations no [Write] call has touched yet, in valid columns that are
    pairwise distinct once compacted and with label widths that leave room
    for the connector, the call returns for every writer: it makes one
    [Fprint] call per line, the header row first and then the body rows
    [0 .. max(a.row + len(a.lines)) - 1] in order, each ended by a newline,
    stops at the first call that fails and returns that call's error, and
    [nil] when none fails.  A body row is, for the annotations drawn on it
    from left to right, the blanks and then the pipe, the connector with the
    first label line, or three blanks with a later label line. *)
Theorem Write_feeds_lines (StringWidth : string -> Z)
    (annots : list Annot) :
  annots <> [] ->
  Forall fresh annots -> Forall validCol annots ->
  NoDup (map Col (CompactFunc annots)) ->
  (forall a s, a ∈ annots -> s ∈ Lines a -> 0 <= StringWidth s <= maxInt - 3) ->
  exists st,
    place StringWidth (CompactFunc annots) = Done st
    /\ forall (W : Type) (H : Writer W) (w : W),
         Write StringWidth w annots
         = Done (st, (feed w (textLines st)).1, (feed w (textLines st)).2).
Proof.
  intros Hne Hfresh Hvalid Hnd Hw.
  destruct (place_valid StringWidth annots Hfresh Hvalid Hnd Hw)
    as (_ & st & Hplace & _ & Hp & Hready & _).
  exists st. split; [done|]. intros W H w. unfold Write.
  assert ((len (CompactFunc annots) =? 0) = false) as ->.
  { destruct annots; [done | reflexivity]. }
  rewrite Hplace. cbn [mbind outcome_bind].
  destruct Hp as (Hs & Hv & _).
  rewrite write_feed by done. cbn [mbind outcome_bind].
  by destruct (feed w (textLines st)).
Qed.

Lemma Write_feeds_lines_witness :
  exists st,
    place asciiWidth
      (CompactFunc [newAnnot 4 ["b"]; newAnnot 0 ["line1"; "line2"]]) = Done st
    /\ forall (W : Type) (H : Writer W) (w : W),
         Write asciiWidth w [newAnnot 4 ["b"]; newAnnot 0 ["line1"; "line2"]]
         = Done (st, (feed w (textLines st)).1, (feed w (textLines st)).2).
Proof.
  apply (Write_feeds_lines asciiWidth
           [newAnnot 4 ["b"]; newAnnot 0 ["line1"; "line2"]]).
  - discriminate.
  - repeat constructor.
  - concrete_cols.
  - concrete_nodup.
  - concrete_widths.
Defined.

(** X3: on the same arguments [String] returns the concatenation of those
    lines. *)
Theorem String_joins_lines (StringWidth : string -> Z)
    (annots : list Annot) :
  annots <> [] ->
  Forall fresh annots -> Forall validCol annots ->
  NoDup (map Col (CompactFunc annots)) ->
  (forall a s, a ∈ annots -> s ∈ Lines a -> 0 <= StringWidth s <= maxInt - 3) ->
  exists st,
    place StringWidth (CompactFunc annots) = Done st
    /\ String StringWidth annots = Done (st, foldr String.append "" (textLines st)).
Proof.
  intros Hne Hfresh Hvalid Hnd Hw.
  destruct (place_valid StringWidth annots Hfresh Hvalid Hnd Hw)
    as (_ & st & Hplace & _ & Hp & Hready & _).
  exists st. split; [done|]. unfold String, Write.
  assert ((len (CompactFunc annots) =? 0) = false) as ->.
  { destruct annots; [done | reflexivity]. }
  rewrite Hplace. cbn [mbind outcome_bind].
  destruct Hp as (Hs & Hv & _).
  rewrite write_feed by done. cbn [mbind outcome_bind].
  rewrite feed_Builder. done.
Qed.

Lemma String_joins_lines_witness :
  exists st,
    place asciiWidth
      (CompactFunc [newAnnot 4 ["b"]; newAnnot 0 ["line1"; "line2"]]) = Done st
    /\ String asciiWidth [newAnnot 4 ["b"]; newAnnot 0 ["line1"; "line2"]]
       = Done (st, foldr String.append "" (textLines st)).
Proof.
  apply (String_joins_lines asciiWidth
           [newAnnot 4 ["b"]; newAnnot 0 ["line1"; "line2"]]).
  - discriminate.
  - repeat constructor.
  - concrete_cols.
  - concrete_nodup.
  - concrete_widths.
Defined.

(** ** closestAnnot *)

Lemma closestAnnot_Some_section r l t k s :
  closestAnnot r l t = (Some k, s) -> s <> noAnnot.
Proof.
  destruct (closestAnnot_spec r l t) as [H | (k' & N & s' & H & _ & Hin & _)];
    rewrite H; [done|].
  intros [= <- <-] ->. done.
Qed.

(** X4: [closestAnnot] returns the first annotation of [rightAnnots], the
    nearest to the right, for which one of the tests of its loop holds at
    the row, with the section of the first test that holds; it returns the
    nil pointer exactly with [noAnnot], when no test holds for any
    annotation.  With a trailing-line count of 0 or less it never answers
    [trailingSpaceLines]. *)
Theorem closestAnnot_finds_first (r : Z) (rightAnnots : list Annot) (t : Z) :
  match closestAnnot r rightAnnots t with
  | (None, s) =>
      s = noAnnot
      /\ Forall (fun N => sectionOf r N t = noAnnot) rightAnnots
  | (Some k, s) =>
      s <> noAnnot
      /\ (t <= 0 -> s <> trailingSpaceLines)
      /\ exists N, rightAnnots !! k = Some N /\ sectionOf r N t = s
           /\ Forall (fun M => sectionOf r M t = noAnnot) (take k rightAnnots)
  end.
Proof.
  induction rightAnnots as [|N rest IH]; [by split|].
  rewrite closestAnnot_cons.
  assert (Ht : t <= 0 -> sectionOf r N t <> trailingSpaceLines).
  { intros Ht. unfold sectionOf.
    destruct (r <? row N); [done|].
    destruct ((row N <=? r) && (r <? row N + len (lines N)) && (r <? 2)); [done|].
    destruct ((2 <=? r) && (r <? row N + len (lines N))); [done|].
    destruct (Z.leb_spec (row N + len (lines N)) r); [|done].
    destruct (Z.ltb_spec r (row N + len (lines N) + t)); [lia | done]. }
  destruct (sectionOf r N t) eqn:Hs.
  1-4: (split; [done|]; split; [done|]; exists N; cbn [take];
        split_and!; [done | done | constructor]).
  destruct (closestAnnot r rest t) as [[k|] s]; cbn [fmap option_fmap option_map].
  - destruct IH as (Hne & Htr & M & HM & HsM & Hbefore).
    split; [done|]. split; [done|]. exists M. cbn [take].
    split_and!; [done | done | by constructor].
  - destruct IH as [-> Hall]. split; [done | by constructor].
Qed.

(** ** setRow *)

(** X5: [setRow] returns whenever each right annotation has a pipe slot
    for every row above it.  With [n] the first candidate row, counted from
    0, at which every label line of [a] fits (the fit check fails at each of
    the rows [0 .. n-1] and holds at row [n]), it adds [n] to the row of [a]
    and appends [n] pipe slots holding [a.Col]; [Col], [Lines] and the lines
    stay.  Of the right annotations it changes blank counts only: columns,
    labels, rows, widths and the number of pipe slots stay. *)
Theorem setRow_moves_only_a (a : Annot) (rightAnnots : list Annot) :
  Forall hasPipeSlots rightAnnots ->
  exists (n : nat) a' rs,
    setRow a rightAnnots = Done (a', rs)
    /\ annotFits (Z.of_nat n) a rightAnnots = true
    /\ (forall r, 0 <= r < Z.of_nat n -> annotFits r a rightAnnots = false)
    /\ Col a' = Col a /\ Lines a' = Lines a /\ lines a' = lines a
    /\ row a' = row a + Z.of_nat n
    /\ pipeLeadingSpaces a' = (pipeLeadingSpaces a ++ replicate n (Col a))%list
    /\ Forall2 sameShape rightAnnots rs.
Proof.
  intros Hwf.
  destruct (setRow_spec a rightAnnots Hwf) as (n & rs & Heq & Hsh & Hfit & Hrej).
  exists n, (pushedDownBy n a), rs.
  split_and!; [done | done | done | apply pushedDownBy_Col
              | apply pushedDownBy_Lines | apply pushedDownBy_lines
              | apply pushedDownBy_row | apply pushedDownBy_pipes | done].
Qed.

Lemma setRow_moves_only_a_witness :
  exists (n : nat) a' rs,
    setRow (createLines asciiWidth (newAnnot 0 ["line1"]))
      [createLines asciiWidth (newAnnot 4 ["b"])] = Done (a', rs)
    /\ annotFits (Z.of_nat n) (createLines asciiWidth (newAnnot 0 ["line1"]))
         [createLines asciiWidth (newAnnot 4 ["b"])] = true
    /\ (forall r, 0 <= r < Z.of_nat n ->
          annotFits r (createLines asciiWidth (newAnnot 0 ["line1"]))
            [createLines asciiWidth (newAnnot 4 ["b"])] = false)
    /\ Col a' = 0 /\ Lines a' = ["line1"] /\ lines a' = [line.mk 5 0]
    /\ row a' = 0 + Z.of_nat n
    /\ pipeLeadingSpaces a' = ([] ++ replicate n 0)%list
    /\ Forall2 sameShape [createLines asciiWidth (newAnnot 4 ["b"])] rs.
Proof.
  apply (setRow_moves_only_a (createLines asciiWidth (newAnnot 0 ["line1"]))
           [createLines asciiWidth (newAnnot 4 ["b"])]).
  repeat constructor. unfold hasPipeSlots. vm_compute. discriminate.
Defined.

(** ** The gap a label line needs *)

(** X6: the gap a label line needs.  When [closestAnnot] finds the
    annotation [N] in section [s] for label line [i] of [a] tried at row
    [r], and no subtraction wraps, [checkLineAndSetSpace] accepts the line
    iff [N.Col - a.Col - (3 + width)] is at least 2 for [above] and
    [linesFirstTwo] and at least 0 for [linesAfterSecond] and
    [trailingSpaceLines]; it leaves [a] as it is when it accepts and moves
    it down one row, with one more pipe slot, when it rejects. *)
Theorem line_fits_iff_gap (r i : Z) (a N : Annot) (rightAnnots : list Annot)
    (k : nat) (s : section) (l : line.t) b a' rs :
  closestAnnot (r + i) rightAnnots 1 = (Some k, s) ->
  rightAnnots !! k = Some N ->
  0 <= i -> lines a !! Z.to_nat i = Some l ->
  validCol a -> validCol N -> Col a <= Col N ->
  0 <= line.length l <= maxInt - 3 ->
  checkLineAndSetSpace r i a rightAnnots = Done (b, a', rs) ->
  b = (minGap s <=? Col N - Col a - (3 + line.length l))
  /\ a' = (if b then a else pushedDown a).
Proof.
  intros Hc Hk Hi Hl Hva HvN Hle Hw.
  assert (index (lines a) i = Done l) as Hidx.
  { destruct (index_Done (lines a) i) as (y & Hy & ->); [|congruence].
    apply lookup_lt_Some in Hl. unfold len. lia. }
  assert (s <> noAnnot) as Hs by (by eapply closestAnnot_Some_section).
  rewrite (checkLineAndSetSpace_unfold r i a rightAnnots k s N l) by done.
  cbn zeta. unfold validCol, maxInt in *.
  rewrite add64_small by lia.
  rewrite (sub64_small (Col N) (Col a)) by lia.
  rewrite sub64_small by lia.
  set (rem := Col N - Col a - (3 + line.length l)).
  destruct s; cbn [minGap andb orb]; try done.
  - destruct (Z.ltb_spec rem 0), (Z.ltb_spec rem 2), (Z.leb_spec 2 rem);
      cbn [orb]; try lia; try (by intros [= <- <- <-]).
    all: destruct (setPipeLeadingSpace _ _ _ _); cbn [mbind outcome_bind];
      try done; by intros [= <- <- <-].
  - destruct (Z.ltb_spec rem 0), (Z.ltb_spec rem 2), (Z.leb_spec 2 rem);
      cbn [orb]; try lia; try (by intros [= <- <- <-]).
    all: destruct (setLeadingSpaces _ _ _ _); cbn [mbind outcome_bind];
      try done; by intros [= <- <- <-].
  - rewrite orb_false_r.
    destruct (Z.ltb_spec rem 0), (Z.leb_spec 0 rem);
      try lia; try (by intros [= <- <- <-]).
    destruct (setLeadingSpaces _ _ _ _); cbn [mbind outcome_bind];
      try done; by intros [= <- <- <-].
  - rewrite orb_false_r.
    destruct (Z.ltb_spec rem 0), (Z.leb_spec 0 rem);
      try lia; try (by intros [= <- <- <-]).
    destruct (closestAnnot (r + i) rightAnnots 0) as [p2 s2].
    destruct s2; try (by intros [= <- <- <-]).
    all: destruct (deref rightAnnots p2); cbn [mbind outcome_bind]; try done.
    + destruct (setPipeLeadingSpace _ _ _ _); cbn [mbind outcome_bind];
        try done; by intros [= <- <- <-].
    + destruct (setLeadingSpaces _ _ _ _); cbn [mbind outcome_bind];
        try done; by intros [= <- <- <-].
    + destruct (setLeadingSpaces _ _ _ _); cbn [mbind outcome_bind];
        try done; by intros [= <- <- <-].
    + destruct (setLeadingSpaces _ _ _ _); cbn [mbind outcome_bind];
        try done; by intros [= <- <- <-].
Qed.

Lemma line_fits_iff_gap_witness :
  let a := createLines asciiWidth (newAnnot 0 ["line1"]) in
  false = (minGap linesFirstTwo <=? 9 - 0 - (3 + 5))
  /\ pushedDown a = (if false then a else pushedDown a).
Proof.
  apply (line_fits_iff_gap 1 0
           (createLines asciiWidth (newAnnot 0 ["line1"]))
           (createLines asciiWidth (newAnnot 9 ["line1"; "line2"]))
           [createLines asciiWidth (newAnnot 9 ["line1"; "line2"])]
           O linesFirstTwo (line.mk 5 0) false
           (pushedDown (createLines asciiWidth (newAnnot 0 ["line1"])))
           [createLines asciiWidth (newAnnot 9 ["line1"; "line2"])]).
  - reflexivity.
  - reflexivity.
  - lia.
  - reflexivity.
  - unfold validCol, maxInt. rewrite createLines_Col. cbn. lia.
  - unfold validCol, maxInt. rewrite createLines_Col. cbn. lia.
  - rewrite !createLines_Col. cbn. lia.
  - unfold maxInt. cbn. lia.
  - reflexivity.
Defined.

(** ** CompactFunc *)

Lemma compactAfter_adjacent prev s i a b :
  (prev :: compactAfter prev s) !! i = Some a ->
  (prev :: compactAfter prev s) !! S i = Some b -> Col a <> Col b.
Proof.
  revert prev i a b. induction s as [|x s IH]; intros prev i a b;
    cbn [compactAfter].
  { destruct i; done. }
  destruct (Z.eqb_spec (Col x) (Col prev)) as [Heq|Hne].
  - destruct i as [|i]; cbn.
    + intros [= <-] Hb. rewrite <- Heq. by apply (IH x O x b).
    + intros Ha Hb. by apply (IH x (S i) a b).
  - destruct i as [|i]; cbn.
    + intros [= <-] [= <-]. congruence.
    + intros Ha Hb. by apply (IH x i a b).
Qed.

Lemma compactAfter_idem prev s :
  compactAfter prev (compactAfter prev s) = compactAfter prev s.
Proof.
  revert prev. induction s as [|x s IH]; intros prev; cbn [compactAfter]; [done|].
  destruct (Z.eqb_spec (Col x) (Col prev)) as [Heq|Hne].
  - rewrite <- (IH x) at 2. clear IH.
    generalize (compactAfter x s). intros l.
    destruct l as [|y l]; cbn [compactAfter]; [done|].
    by rewrite Heq.
  - cbn [compactAfter]. destruct (Z.eqb_spec (Col x) (Col prev)); [done|].
    by rewrite IH.
Qed.

(** X7: the compaction at the head of [Write] keeps a subsequence of the
    slice that starts with the same annotation, in which no annotation has
    the column of the one before it; the columns that occur are the same,
    and compacting again changes nothing. *)
Theorem CompactFunc_drops_adjacent_duplicates (s : list Annot) :
  CompactFunc s `sublist_of` s
  /\ head (CompactFunc s) = head s
  /\ (forall i a b, CompactFunc s !! i = Some a -> CompactFunc s !! S i = Some b ->
        Col a <> Col b)
  /\ (forall z, z ∈ map Col (CompactFunc s) <-> z ∈ map Col s)
  /\ CompactFunc (CompactFunc s) = CompactFunc s.
Proof.
  split_and!.
  - apply CompactFunc_sublist.
  - by destruct s.
  - destruct s as [|x s]; [done|]. intros i a b. apply compactAfter_adjacent.
  - apply CompactFunc_cols.
  - destruct s as [|x s]; [done|]. cbn [CompactFunc]. by rewrite compactAfter_idem.
Qed.

(** ** SortFunc *)

Lemma insertLeft_sorted_narrow x rp :
  (forall y, y ∈ rp -> - 2 ^ 63 <= Col x - Col y < 2 ^ 63) ->
  StronglySorted (flip colLe) rp -> StronglySorted (flip colLe) (insertLeft x rp).
Proof.
  induction rp as [|y rp IH]; intros Hn Hs; cbn.
  { repeat constructor. }
  inversion Hs as [|? ? Hs' Hall]; subst.
  unfold cmpCol. rewrite sub64_small by (apply Hn; left).
  destruct (Z.ltb_spec (Col x - Col y) 0) as [Hlt|Hge].
  - constructor; [apply IH; [|done]; intros z Hz; apply Hn; by right|].
    rewrite insertLeft_perm. constructor; [unfold flip, colLe; lia | done].
  - constructor; [done|]. constructor; [unfold flip, colLe; lia|].
    eapply Forall_impl; [exact Hall|]. unfold flip, colLe. intros z Hz. lia.
Qed.

Lemma sortLoop_sorted_narrow s acc :
  narrow (s ++ acc) -> StronglySorted (flip colLe) acc ->
  StronglySorted (flip colLe)
    (fold_left (fun revPrefix x => insertLeft x revPrefix) s acc).
Proof.
  revert acc. induction s as [|x s IH]; intros acc Hn Hsorted; cbn; [done|].
  assert (Hsub : forall y, y ∈ (s ++ insertLeft x acc)%list
                            -> y ∈ ((x :: s) ++ acc)%list).
  { intros y Hy. apply elem_of_app in Hy as [Hy | Hy].
    - apply elem_of_app. left. by right.
    - rewrite insertLeft_perm in Hy. apply elem_of_cons in Hy as [-> | Hy].
      + apply elem_of_app. left. by left.
      + apply elem_of_app. by right. }
  apply IH.
  - intros y z Hy Hz. apply Hn; by apply Hsub.
  - apply insertLeft_sorted_narrow; [|done].
    intros y Hy. apply Hn; apply elem_of_app; [left; by left | by right].
Qed.

Lemma SortFunc_sorted_narrow s : narrow s -> StronglySorted colLe (SortFunc s).
Proof.
  intros Hs. unfold SortFunc. apply StronglySorted_rev_flip.
  apply sortLoop_sorted_narrow; [by rewrite app_nil_r | constructor].
Qed.

(** X8: the sort of [Write] returns the same annotations in ascending
    column order whenever [a.Col - b.Col] wraps for no two of them (as for
    all columns in [0 .. maxInt], or all in [-2^62 .. 2^62]). *)
Theorem SortFunc_sorts (s : list Annot) :
  narrow s -> SortFunc s ≡ₚ s /\ StronglySorted colLe (SortFunc s).
Proof.
  intros Hn. split; [apply SortFunc_perm | by apply SortFunc_sorted_narrow].
Qed.

Lemma SortFunc_sorts_witness :
  SortFunc [newAnnot 7 []; newAnnot (-3) ["x"]; newAnnot 7 ["y"]]
  ≡ₚ [newAnnot 7 []; newAnnot (-3) ["x"]; newAnnot 7 ["y"]]
  /\ StronglySorted colLe
       (SortFunc [newAnnot 7 []; newAnnot (-3) ["x"]; newAnnot 7 ["y"]]).
Proof.
  apply (SortFunc_sorts [newAnnot 7 []; newAnnot (-3) ["x"]; newAnnot 7 ["y"]]).
  intros x y Hx Hy.
  repeat (apply elem_of_cons in Hx as [-> | Hx]); try (by inversion Hx);
    repeat (apply elem_of_cons in Hy as [-> | Hy]); try (by inversion Hy);
    cbn; lia.
Defined.

(** X9: when [a.Col - b.Col] wraps below [-2^63] the comparator of
    [Write] answers that [a] is the greater, and the two annotations are
    sorted with [b] first although [a.Col < b.Col]. *)
Theorem SortFunc_overflow_misorders (a b : Annot) :
  intCol a -> intCol b -> Col a - Col b < - 2 ^ 63 ->
  Col a < Col b /\ SortFunc [a; b] = [b; a] /\ SortFunc [b; a] = [b; a].
Proof.
  unfold intCol, maxInt. intros Ha Hb Hd.
  assert (cmpCol a b = Col a - Col b + 2 ^ 64) as Hab.
  { unfold cmpCol, sub64, wrap.
    replace (Col a - Col b + 2 ^ 63) with (Col a - Col b + 2 ^ 64 + 2 ^ 63 + (-1) * 2 ^ 64) by lia.
    rewrite Z.mod_add by lia. rewrite Z.mod_small by lia. lia. }
  assert (cmpCol b a = Col b - Col a - 2 ^ 64) as Hba.
  { unfold cmpCol, sub64, wrap.
    replace (Col b - Col a + 2 ^ 63) with (Col b - Col a - 2 ^ 64 + 2 ^ 63 + 1 * 2 ^ 64) by lia.
    rewrite Z.mod_add by lia. rewrite Z.mod_small by lia. lia. }
  split; [lia|]. unfold SortFunc. cbn [fold_left insertLeft].
  rewrite Hab, Hba.
  destruct (Z.ltb_spec (Col b - Col a - 2 ^ 64) 0); [|lia].
  destruct (Z.ltb_spec (Col a - Col b + 2 ^ 64) 0); [lia|].
  done.
Qed.

Lemma SortFunc_overflow_misorders_witness :
  Col (newAnnot (- 2 ^ 63) []) < Col (newAnnot 1 [])
  /\ SortFunc [newAnnot (- 2 ^ 63) []; newAnnot 1 []]
     = [newAnnot 1 []; newAnnot (- 2 ^ 63) []]
  /\ SortFunc [newAnnot 1 []; newAnnot (- 2 ^ 63) []]
     = [newAnnot 1 []; newAnnot (- 2 ^ 63) []].
Proof.
  apply (SortFunc_overflow_misorders (newAnnot (- 2 ^ 63) []) (newAnnot 1 []));
    unfold intCol, maxInt; cbn [Col newAnnot]; lia.
Defined.

(** ** A negative column *)

Lemma CompactFunc_elem a s : a ∈ CompactFunc s -> a ∈ s.
Proof. intros Ha. eapply elem_of_sublist; [done | apply CompactFunc_sublist]. Qed.

(** X10: a negative column makes [String] panic.  For annotations no
    [Write] call has touched yet, whose columns are [int]s on which the
    comparator does not wrap, and one of which is negative, the header loop
    of [write] calls [strings.Repeat] with a negative count. *)
Theorem negative_column_panics (StringWidth : string -> Z) (annots : list Annot) :
  Forall fresh annots -> Forall intCol annots -> narrow annots ->
  (exists a, a ∈ annots /\ Col a < 0) ->
  String StringWidth annots = Panics NegativeRepeatCount.
Proof.
  intros Hfresh Hint Hnarrow (a & Ha & Hneg).
  set (l := CompactFunc annots).
  assert (Hfl : Forall fresh l).
  { rewrite Forall_forall in *. intros y Hy. by apply Hfresh, CompactFunc_elem. }
  assert (Hnl : narrow (SortFunc l)).
  { intros y z Hy Hz. rewrite SortFunc_perm in Hy, Hz.
    apply Hnarrow; by apply CompactFunc_elem. }
  assert (Hsorted : StronglySorted colLe (SortFunc l)).
  { apply SortFunc_sorted_narrow. intros y z Hy Hz.
    apply Hnarrow; by apply CompactFunc_elem. }
  assert (exists y, y ∈ SortFunc l /\ Col y = Col a) as (y & Hy & Hya).
  { assert (Col a ∈ map Col l) as Hc.
    { unfold l. rewrite CompactFunc_cols. apply list_elem_of_fmap. eauto. }
    apply list_elem_of_fmap in Hc as (y & Hya & Hy). exists y.
    by rewrite SortFunc_perm. }
  destruct (place_spec StringWidth l Hfl) as (st & Hplace & Hlabel & _ & _).
  destruct (SortFunc l) as [|x xs] eqn:Hsort; [by inversion Hy|].
  assert (Col x < 0) as Hx.
  { apply elem_of_cons in Hy as [-> | Hy]; [lia|].
    apply StronglySorted_inv in Hsorted as [_ Hall].
    rewrite Forall_forall in Hall. specialize (Hall y Hy). unfold colLe in Hall.
    lia. }
  assert (intCol x) as Hix.
  { rewrite Forall_forall in Hint. apply Hint, CompactFunc_elem.
    fold l. rewrite <- (SortFunc_perm l), Hsort. by left. }
  cbn [map] in Hlabel.
  inversion Hlabel as [|x0 x' ? st' (Hcx & _) Hrest]; subst.
  rewrite createLines_Col in Hcx.
  unfold String, Write. fold l.
  assert ((len l =? 0) = false) as ->.
  { destruct l as [|? ?] eqn:Hl; [|reflexivity].
    pose proof (SortFunc_perm []) as Hp. unfold l in Hl. cbn in Hsort. done. }
  rewrite Hplace. cbn [mbind outcome_bind]. unfold write. cbn [writeArrows].
  unfold Repeat. rewrite <- Hcx.
  unfold intCol, maxInt in Hix.
  rewrite sub64_small by lia.
  destruct (Z.ltb_spec (Col x - 0) 0); [done | lia].
Qed.

Lemma negative_column_panics_witness :
  String asciiWidth [newAnnot 2 ["a"]; newAnnot (-1) ["x"]]
  = Panics NegativeRepeatCount.
Proof.
  apply (negative_column_panics asciiWidth
           [newAnnot 2 ["a"]; newAnnot (-1) ["x"]]).
  - repeat constructor.
  - concrete_cols.
  - intros x y Hx Hy.
    repeat (apply elem_of_cons in Hx as [-> | Hx]); try (by inversion Hx);
      repeat (apply elem_of_cons in Hy as [-> | Hy]); try (by inversion Hy);
      cbn; lia.
  - exists (newAnnot (-1) ["x"]). split; [|cbn; lia].
    apply elem_of_cons. right. apply elem_of_cons. by left.
Defined.

(** ** AppendLines *)

(** X11: [AppendLines] appends: two calls amount to one call with both
    lists, a call with no line changes nothing, lines appended to a new
    annotation are its lines, and an annotation that no [Write] call has
    touched stays so. *)
Theorem AppendLines_composes (a : Annot) (c : Z) (ls1 ls2 : list string) :
  AppendLines (AppendLines a ls1) ls2 = AppendLines a (ls1 ++ ls2)
  /\ AppendLines a [] = a
  /\ AppendLines (newAnnot c ls1) ls2 = newAnnot c (ls1 ++ ls2)
  /\ (fresh a -> fresh (AppendLines a ls1)).
Proof.
  unfold AppendLines. cbn. split_and!; try done.
  - by rewrite app_assoc.
  - rewrite app_nil_r. by destruct a.
Qed.

(** ** The empty rendering *)

Lemma append_eq_nil (s t : string) : s +:+ t = "" -> s = "" /\ t = "".
Proof.
  destruct s as [|c s].
  - change ("" +:+ t) with t. by intros ->.
  - change (String.String c s +:+ t) with (String.String c (s +:+ t)).
    discriminate.
Qed.

Lemma writeRows_Builder_prefix n r (w : Builder) annots w' e :
  writeRows n r w annots = Done (w', e) -> exists body, w' = w +:+ body.
Proof.
  revert r w. induction n as [|n IH]; intros r w; cbn [writeRows].
  { intros [= <- _]. exists "". by rewrite append_nil_r. }
  destruct (writeRow r annots "") as [b| |]; cbn [mbind outcome_bind]; try done.
  unfold Fprint at 1, Builder_Writer at 1. intros H.
  destruct (IH _ _ H) as (body & ->).
  exists ((b +:+ newline) +:+ body). by rewrite !append_assoc.
Qed.

(** X12: [String] returns the empty string for no annotation and in no
    other case: any other call that returns has written at least the
    newline of the header row. *)
Theorem String_empty_iff (StringWidth : string -> Z) (annots st : list Annot) :
  String StringWidth annots = Done (st, "") <-> annots = [] /\ st = [].
Proof.
  split; [|by intros [-> ->]].
  destruct annots as [|a annots]; [by intros [= <-]|].
  unfold String, Write. cbn [CompactFunc].
  change (len (a :: compactAfter a annots) =? 0) with false. cbv iota.
  destruct (place _ _) as [st1| |]; cbn [mbind outcome_bind]; try done.
  unfold write.
  destruct (writeArrows st1 "" 0 0) as [[b rc]| |]; cbn [mbind outcome_bind];
    try done.
  unfold Fprint at 1, Builder_Writer at 1.
  destruct (writeRows _ _ _ _) as [[w' e]| |] eqn:Hrows;
    cbn [mbind outcome_bind]; try done.
  intros [= <- ->]. exfalso.
  apply writeRows_Builder_prefix in Hrows as (body & Hbody).
  symmetry in Hbody. apply append_eq_nil in Hbody as [Hb _].
  change ("" +:+ b +:+ newline) with (b +:+ newline) in Hb.
  apply append_eq_nil in Hb as [_ Hb]. discriminate.
Qed.

(** ** What [Write] leaves of the labels *)

(** X13: what the placement leaves of the labels.  For annotations no
    [Write] call has touched yet it returns, and the slice it hands to
    [write] holds the columns and label lines of the compacted and sorted
    slice, unchanged and in that order; the widths it keeps are those of the
    label lines (one line of width 0 for an annotation without label lines),
    and no row is negative. *)
Theorem place_keeps_labels (StringWidth : string -> Z) (annots : list Annot) :
  Forall fresh annots ->
  exists st,
    place StringWidth (CompactFunc annots) = Done st
    /\ map (fun a => (Col a, Lines a)) st
       = map (fun a => (Col a, Lines a)) (SortFunc (CompactFunc annots))
    /\ Forall (fun a => map line.length (lines a)
                        = match Lines a with
                          | [] => [0]
                          | _ => map StringWidth (Lines a)
                          end) st
    /\ Forall (fun a => 0 <= row a) st.
Proof.
  intros Hfresh.
  assert (Hfl : Forall fresh (CompactFunc annots)).
  { rewrite Forall_forall in *. intros y Hy. by apply Hfresh, CompactFunc_elem. }
  destruct (place_spec StringWidth _ Hfl) as (st & Hplace & Hlabel & Hmin & _).
  assert (Hfs : Forall fresh (SortFunc (CompactFunc annots))).
  { rewrite Forall_forall in *. intros y Hy. rewrite SortFunc_perm in Hy.
    by apply Hfl. }
  exists st. split_and!; [done | | |].
  - apply Forall2_map_l in Hlabel. symmetry. clear Hplace Hmin Hfs.
    induction Hlabel as [|x y l l' (Hc & HL & _) _ IH]; [done|].
    cbn [map]. rewrite IH. f_equal.
    rewrite createLines_Col in Hc. rewrite <- Hc, <- HL.
    unfold createLines. by destruct (len (Lines x) =? 0).
  - apply Forall2_map_l in Hlabel. clear Hplace Hmin.
    induction Hlabel as [|x y l l' (_ & HL & Hw) _ IH]; [constructor|].
    apply Forall_cons in Hfs as [(_ & Hx & _) Hfs].
    constructor; [|by apply IH].
    rewrite <- Hw, <- HL. unfold createLines.
    destruct (Lines x) as [|s ss] eqn:HLx.
    + change (len (@nil string) =? 0) with true. cbv iota.
      cbn [lines Lines with_lines]. by rewrite Hx, HLx.
    + change (len (s :: ss) =? 0) with false. cbv iota.
      cbn [lines Lines with_lines with_pipeLeadingSpaces]. rewrite HLx.
      by rewrite map_map.
  - apply Forall_forall. intros a Ha.
    apply list_elem_of_lookup in Ha as [i Hi]. by destruct (Hmin i a Hi).
Qed.

Lemma place_keeps_labels_witness :
  exists st,
    place asciiWidth
      (CompactFunc [newAnnot 4 ["b"]; newAnnot 0 ["line1"; "line2"]]) = Done st
    /\ map (fun a => (Col a, Lines a)) st
       = map (fun a => (Col a, Lines a))
           (SortFunc (CompactFunc [newAnnot 4 ["b"]; newAnnot 0 ["line1"; "line2"]]))
    /\ Forall (fun a => map line.length (lines a)
                        = match Lines a with
                          | [] => [0]
                          | _ => map asciiWidth (Lines a)
                          end) st
    /\ Forall (fun a => 0 <= row a) st.
Proof.
  apply (place_keeps_labels asciiWidth
           [newAnnot 4 ["b"]; newAnnot 0 ["line1"; "line2"]]).
  repeat constructor.
Defined.

(** ** The height of the rendering *)

Lemma rowBound_slotCount st :
  (forall i a, st !! i = Some a -> row a <= rowBound (drop (S i) st)) ->
  rowBound st <= slotCount st.
Proof.
  induction st as [|a st IH]; intros H; [done|].
  rewrite rowBound_cons. cbn [slotCount foldr]. fold (slotCount st).
  pose proof (H O a eq_refl) as Ha. cbn [drop] in Ha. rewrite drop_0 in Ha.
  assert (rowBound st <= slotCount st) as Hst.
  { apply IH. intros i b Hb. apply (H (S i) b Hb). }
  pose proof (len_nonneg (lines a)). lia.
Qed.

Lemma rowCountOf_rowBound st : rowCountOf st <= rowBound st.
Proof.
  unfold rowCountOf.
  assert (forall m, 0 <= m ->
            fold_left (fun m a => Z.max m (row a + len (lines a))) st m
            <= Z.max m (rowBound st)) as H.
  { induction st as [|a st IH]; intros m Hm; cbn [fold_left].
    - cbn. lia.
    - rewrite rowBound_cons. etrans; [apply IH; lia|].
      pose proof (rowBound_nonneg st). lia. }
  specialize (H 0 ltac:(lia)). pose proof (rowBound_nonneg st). lia.
Qed.

(** X14: the height of the rendering.  For annotations no [Write] call
    has touched yet, the row of each annotation is at most the greatest
    [N.row + len(N.lines) + 1] of the annotations [N] to its right, one row
    past the blank row below the lowest of them (and 0 when there is none),
    and the number of body rows is at most the sum of [len(a.lines) + 1]
    over the annotations. *)
Theorem rows_are_bounded (StringWidth : string -> Z) (annots : list Annot) :
  Forall fresh annots ->
  exists st,
    place StringWidth (CompactFunc annots) = Done st
    /\ (forall i a, st !! i = Some a -> 0 <= row a <= rowBound (drop (S i) st))
    /\ rowCountOf st <= slotCount st.
Proof.
  intros Hfresh.
  assert (Hfl : Forall fresh (CompactFunc annots)).
  { rewrite Forall_forall in *. intros y Hy. by apply Hfresh, CompactFunc_elem. }
  destruct (place_spec StringWidth _ Hfl) as (st & Hplace & _ & Hmin & _).
  assert (Hb : forall i a, st !! i = Some a ->
                 0 <= row a <= rowBound (drop (S i) st)).
  { intros i a Hi. destruct (Hmin i a Hi) as (H0 & _ & Hleast).
    split; [done|].
    destruct (Z.le_gt_cases (row a) (rowBound (drop (S i) st))) as [|Hgt]; [done|].
    pose proof (rowBound_nonneg (drop (S i) st)).
    pose proof (Hleast (rowBound (drop (S i) st)) ltac:(lia)) as Hf.
    rewrite annotFits_beyond in Hf; [done | lia]. }
  exists st. split_and!; [done | done |].
  etrans; [apply rowCountOf_rowBound|]. apply rowBound_slotCount.
  intros i a Hi. by apply Hb.
Qed.

Lemma rows_are_bounded_witness :
  exists st,
    place asciiWidth
      (CompactFunc [newAnnot 4 ["b"]; newAnnot 0 ["line1"; "line2"]]) = Done st
    /\ (forall i a, st !! i = Some a -> 0 <= row a <= rowBound (drop (S i) st))
    /\ rowCountOf st <= slotCount st.
Proof.
  apply (rows_are_bounded asciiWidth
           [newAnnot 4 ["b"]; newAnnot 0 ["line1"; "line2"]]).
  repeat constructor.
Defined.

(** ** The gaps of the placement *)

Lemma annotFits_line r a rights (j : nat) :
  annotFits r a rights = true -> (j < List.length (lines a))%nat ->
  lineFits r (Z.of_nat j) a rights = true.
Proof.
  unfold annotFits. intros H Hj.
  rewrite forallb_forall in H. apply H. apply in_seq. lia.
Qed.

(** X15: in the slice the placement hands to [write], every label line
    ends at or before the column of the annotation [N] that [closestAnnot]
    finds to its right on the row [r] of the line, with the section [s] that
    [closestAnnot] answers: at least two cells before it when [N] has a pipe
    on the row ([above], [r < N.row]) or a label line on the row and the row
    is body row 0 or 1 ([linesFirstTwo], [r < 2]), and at or before it when
    [N] has a label line on a row from 2 on ([linesAfterSecond]) or the row
    is the one below its last line ([trailingSpaceLines]).  The rows of
    [linesFirstTwo] are counted from the top of the body, not from [N.row]:
    beside the first label line of a neighbour on row 2 or lower no gap is
    kept. *)
Theorem label_lines_keep_their_gap (StringWidth : string -> Z)
    (annots : list Annot) :
  Forall fresh annots -> Forall validCol annots ->
  NoDup (map Col (CompactFunc annots)) ->
  (forall a s, a ∈ annots -> s ∈ Lines a -> 0 <= StringWidth s <= maxInt - 3) ->
  exists st,
    place StringWidth (CompactFunc annots) = Done st
    /\ forall (i j k : nat) a l N s,
         st !! i = Some a -> lines a !! j = Some l ->
         closestAnnot (row a + Z.of_nat j) (drop (S i) st) 1 = (Some k, s) ->
         drop (S i) st !! k = Some N ->
         inSection (row a + Z.of_nat j) N 1 s
         /\ Col a + (3 + line.length l) + minGap s <= Col N.
Proof.
  intros Hfresh Hvalid Hnd Hw.
  destruct (place_valid StringWidth annots Hfresh Hvalid Hnd Hw)
    as (_ & st & Hplace & _ & Hp & _ & _).
  assert (Hfl : Forall fresh (CompactFunc annots)).
  { rewrite Forall_forall in *. intros y Hy. by apply Hfresh, CompactFunc_elem. }
  destruct (place_spec StringWidth _ Hfl) as (st' & Hplace' & _ & Hmin & _).
  assert (st' = st) as -> by congruence.
  exists st. split; [done|].
  intros i j k a l N s Hi Hj Hc Hk.
  assert (s <> noAnnot) as Hsne by (by eapply closestAnnot_Some_section).
  split.
  { destruct (closestAnnot_spec (row a + Z.of_nat j) (drop (S i) st) 1)
      as [Hn | (k' & N' & s' & Hc' & Hk' & Hin & _)]; [congruence|].
    rewrite Hc in Hc'. injection Hc' as <- <-. congruence. }
  destruct (Hmin i a Hi) as (_ & Hfit & _).
  apply (annotFits_line _ _ _ j) in Hfit; [|by eapply lookup_lt_Some].
  unfold lineFits in Hfit. rewrite Hc in Hfit.
  assert (index (lines a) (Z.of_nat j) = Done l) as Hidx.
  { destruct (index_Done (lines a) (Z.of_nat j)) as (y & Hy & ->).
    - apply lookup_lt_Some in Hj. unfold len. lia.
    - rewrite Nat2Z.id in Hy. congruence. }
  rewrite Hidx in Hfit. cbn [deref] in Hfit. rewrite Hk in Hfit.
  destruct Hp as (Hs & Hv & Hwd & _).
  rewrite Forall_forall in Hv, Hwd.
  assert (a ∈ st) as Ha by (by eapply list_elem_of_lookup_2).
  assert (st !! (S i + k)%nat = Some N) as HN by (by rewrite <- lookup_drop).
  assert (N ∈ st) as HNin by (by eapply list_elem_of_lookup_2).
  pose proof (Hv a Ha) as Hva. pose proof (Hv N HNin) as HvN.
  pose proof (widthsOK_lookup a j l (Hwd a Ha) Hj) as Hwl.
  assert (Col a < Col N) as Hlt.
  { clear -Hs Hi HN. revert i Hi HN.
    induction Hs as [|x st Hs IH Hx]; intros i Hi HN; [done|].
    destruct i as [|i]; cbn in Hi, HN.
    - injection Hi as ->. rewrite Forall_forall in Hx. apply (Hx N).
      by eapply list_elem_of_lookup_2.
    - by apply (IH i). }
  unfold validCol, maxInt in *.
  rewrite add64_small in Hfit by lia.
  rewrite (sub64_small (Col N) (Col a)) in Hfit by lia.
  rewrite sub64_small in Hfit by lia.
  set (rem := Col N - Col a - (3 + line.length l)) in *.
  destruct s; cbn [minGap]; try done;
    destruct (Z.ltb_spec rem 0), (Z.ltb_spec rem 2); cbn in Hfit; try done;
    unfold rem in *; lia.
Qed.

Lemma label_lines_keep_their_gap_witness :
  exists st,
    place asciiWidth
      (CompactFunc [newAnnot 4 ["b"]; newAnnot 0 ["line1"; "line2"]]) = Done st
    /\ forall (i j k : nat) a l N s,
         st !! i = Some a -> lines a !! j = Some l ->
         closestAnnot (row a + Z.of_nat j) (drop (S i) st) 1 = (Some k, s) ->
         drop (S i) st !! k = Some N ->
         inSection (row a + Z.of_nat j) N 1 s
         /\ Col a + (3 + line.length l) + minGap s <= Col N.
Proof.
  apply (label_lines_keep_their_gap asciiWidth
           [newAnnot 4 ["b"]; newAnnot 0 ["line1"; "line2"]]).
  - repeat constructor.
  - concrete_cols.
  - concrete_nodup.
  - concrete_widths.
Defined.

(** ** The annotations to the left *)

Lemma StronglySorted_colLt_NoDup l : StronglySorted colLt l -> NoDup (map Col l).
Proof.
  induction 1 as [|x l Hl IH Hx]; cbn; [constructor|].
  constructor; [|done]. intros Hin.
  apply list_elem_of_fmap in Hin as (y & Hy & Hin).
  rewrite Forall_forall in Hx. specialize (Hx y Hin). unfold colLt in Hx. lia.
Qed.

Lemma StronglySorted_colLt_colLe l : StronglySorted colLt l -> StronglySorted colLe l.
Proof.
  induction 1 as [|x l Hl IH Hx]; constructor; [done|].
  eapply Forall_impl; [exact Hx|]. unfold colLt, colLe. intros. lia.
Qed.

Lemma SortFunc_sorted_id l :
  StronglySorted colLt l -> Forall validCol l -> SortFunc l = l.
Proof.
  intros Hs Hv.
  pose proof (StronglySorted_colLt_NoDup l Hs) as Hnd.
  apply (StronglySorted_unique_strong colLe);
    [| by apply SortFunc_sorted | by apply StronglySorted_colLt_colLe
     | apply SortFunc_perm].
  intros x1 x2 Hx1 Hx2 H12 H21.
  rewrite SortFunc_perm in Hx1.
  assert (Col x1 = Col x2) as Hc by (unfold colLe in *; lia).
  clear -Hx1 Hx2 Hc Hnd.
  induction l as [|a s IH]; [by inversion Hx1|].
  cbn in Hnd. apply NoDup_cons in Hnd as [Ha Hnd].
  inversion Hx1 as [|? ? ? Hx1']; inversion Hx2 as [|? ? ? Hx2']; subst; auto.
  - exfalso. apply Ha. rewrite Hc. apply list_elem_of_fmap. eauto.
  - exfalso. apply Ha. rewrite <- Hc. apply list_elem_of_fmap. eauto.
Qed.

(** The second loop of [Write] handles the annotations from right to left:
    a suffix of the slice is placed as if it stood alone. *)
Lemma setRows_app pre suf (m : nat) :
  (m <= List.length suf)%nat ->
  setRows (List.length pre + m) (pre ++ suf)
  = suf' ← setRows m suf; setRows (List.length pre) (pre ++ suf').
Proof.
  revert suf. induction m as [|m IH]; intros suf Hm.
  { rewrite Nat.add_0_r. done. }
  replace (List.length pre + S m)%nat with (S (List.length pre + m)) by lia.
  cbn [setRows].
  rewrite drop_app_add', take_app_add' by done.
  destruct (drop m suf) as [|a rights] eqn:Hdrop.
  { apply (f_equal List.length) in Hdrop. rewrite length_drop in Hdrop.
    cbn in Hdrop. lia. }
  destruct (setRow a rights) as [[a' rs]| |] eqn:Hset;
    cbn [mbind outcome_bind]; [|done..].
  rewrite <- app_assoc. rewrite IH; [done|].
  rewrite length_app, length_take. cbn [List.length].
  apply (f_equal List.length) in Hdrop. rewrite length_drop in Hdrop.
  cbn in Hdrop. lia.
Qed.

Lemma setRows_hasPipeSlots n st st' :
  (n <= List.length st)%nat -> Forall hasPipeSlots st ->
  setRows n st = Done st' -> Forall hasPipeSlots st'.
Proof.
  revert st. induction n as [|k IH]; intros st Hn Hwf; cbn [setRows].
  { by intros [= <-]. }
  destruct (drop k st) as [|a rights] eqn:Hdrop.
  { apply (f_equal List.length) in Hdrop. rewrite length_drop in Hdrop.
    cbn in Hdrop. lia. }
  assert (Hd : Forall hasPipeSlots (a :: rights)).
  { rewrite <- Hdrop. by apply Forall_drop. }
  apply Forall_cons in Hd as [Ha Hr].
  destruct (setRow_spec a rights Hr) as (m & rs & -> & Hshape & _).
  cbn [mbind outcome_bind]. apply IH.
  - rewrite length_app, length_take. cbn [List.length]. lia.
  - apply Forall_app. split; [by apply Forall_take|]. constructor.
    + by apply hasPipeSlots_pushedDownBy.
    + by eapply sameShapes_hasPipeSlots.
Qed.

(** X16: annotations to the left never move the ones to their right.  For
    annotations no [Write] call has touched yet, given in strictly ascending
    valid columns, the annotations of
    a suffix of the slice get the rows that they get when the suffix is
    placed alone; what the annotations before them change are blank counts
    only. *)
Theorem left_annotations_leave_right_rows (StringWidth : string -> Z)
    (l1 l2 : list Annot) :
  Forall fresh (l1 ++ l2) -> Forall validCol (l1 ++ l2) ->
  StronglySorted colLt (l1 ++ l2) ->
  exists st st2,
    place StringWidth (l1 ++ l2) = Done st
    /\ place StringWidth l2 = Done st2
    /\ Forall2 sameShape st2 (drop (List.length l1) st).
Proof.
  intros Hfresh Hvalid Hsorted.
  pose proof Hfresh as [Hf1 Hf2]%Forall_app.
  pose proof Hvalid as [Hv1 Hv2]%Forall_app.
  pose proof Hsorted as (_ & _ & Hs2)%StronglySorted_app.
  destruct (place_spec StringWidth (l1 ++ l2) Hfresh) as (st & Hplace & Hlab & _).
  destruct (place_spec StringWidth l2 Hf2) as (st2 & Hplace2 & Hlab2 & _).
  exists st, st2. split_and!; [done | done |].
  unfold place in Hplace, Hplace2.
  rewrite SortFunc_sorted_id in Hplace, Hlab by done.
  rewrite SortFunc_sorted_id in Hplace2, Hlab2 by done.
  rewrite map_app in Hplace.
  set (pre := map (createLines StringWidth) l1) in *.
  set (suf := map (createLines StringWidth) l2) in *.
  assert (Hlen : List.length pre = List.length l1) by apply length_map.
  destruct l2 as [|b l2].
  { cbn in Hplace2. injection Hplace2 as <-.
    apply Forall2_length in Hlab. rewrite app_nil_r, length_map in Hlab.
    rewrite drop_ge by lia. constructor. }
  assert (Hsuf : (1 <= List.length suf)%nat) by (unfold suf; cbn; lia).
  replace (List.length (pre ++ suf) - 1)%nat
    with (List.length pre + (List.length suf - 1))%nat in Hplace
    by (rewrite length_app; lia).
  rewrite setRows_app in Hplace by lia.
  rewrite Hplace2 in Hplace. cbn [mbind outcome_bind] in Hplace.
  assert (Hwf0 : Forall hasPipeSlots pre /\ Forall hasPipeSlots suf).
  { split; apply Forall_fmap, Forall_forall; intros a Ha; cbn;
      apply createLines_fresh_hasPipeSlots;
      rewrite Forall_forall in Hf1, Hf2; auto. }
  destruct Hwf0 as [Hwp Hws].
  assert (Hwf2 : Forall hasPipeSlots st2).
  { eapply (setRows_hasPipeSlots _ suf); [|done|exact Hplace2]. lia. }
  destruct (setRows_spec (List.length pre) (pre ++ st2)) as (st' & Hst' & Hsh & _).
  - rewrite length_app. lia.
  - by apply Forall_app.
  - intros i a Hi Ha. rewrite lookup_app_l in Ha by done.
    unfold pre in Ha. rewrite list_lookup_fmap in Ha.
    destruct (l1 !! i) as [x|] eqn:Hx; [|done]. injection Ha as <-.
    rewrite createLines_row. rewrite Forall_forall in Hf1.
    apply (Hf1 x). by eapply list_elem_of_lookup_2.
  - assert (st' = st) as -> by congruence.
    rewrite drop_app_length in Hsh. by rewrite <- Hlen.
Qed.

Lemma left_annotations_leave_right_rows_witness :
  exists st st2,
    place asciiWidth ([newAnnot 0 ["line1"]] ++ [newAnnot 4 ["b"]]) = Done st
    /\ place asciiWidth [newAnnot 4 ["b"]] = Done st2
    /\ Forall2 sameShape st2 (drop (List.length [newAnnot 0 ["line1"]]) st).
Proof.
  apply (left_annotations_leave_right_rows asciiWidth
           [newAnnot 0 ["line1"]] [newAnnot 4 ["b"]]).
  - repeat constructor.
  - concrete_cols.
  - repeat constructor; unfold colLt; cbn; lia.
Defined.

(** ** No body row is blank *)

Lemma writeSegment_grows r a b b' :
  writeSegment r a b = Done b' ->
  exists t, b' = b +:+ t /\ (drawnOn r a = true -> t <> "").
Proof.
  unfold writeSegment, drawnOn.
  destruct (Z.ltb_spec r (row a)).
  { destruct (index (pipeLeadingSpaces a) r) as [n| |];
      cbn [mbind outcome_bind]; try done.
    destruct (Repeat " " n) as [sp| |]; cbn [mbind outcome_bind]; try done.
    intros [= <-]. eexists. split; [reflexivity|]. intros _ He.
    by apply append_eq_nil in He as [_ He]. }
  destruct (Z.eqb_spec r (row a)).
  { destruct (index (lines a) (r - row a)) as [l| |];
      cbn [mbind outcome_bind]; try done.
    destruct (Repeat " " (line.leadingSpaces l)) as [sp| |];
      cbn [mbind outcome_bind]; try done.
    destruct (len (Lines a) =? 0).
    - intros [= <-]. eexists. split; [reflexivity|]. intros _ He.
      by apply append_eq_nil in He as [_ He].
    - destruct (index (Lines a) 0) as [s| |]; cbn [mbind outcome_bind];
        try done.
      intros [= <-]. eexists. split; [reflexivity|]. intros _ He.
      apply append_eq_nil in He as [_ He].
      by apply append_eq_nil in He as [He _]. }
  destruct (Z.ltb_spec r (row a + len (lines a))).
  { destruct (index (lines a) (r - row a)) as [l| |];
      cbn [mbind outcome_bind]; try done.
    destruct (Repeat " " (line.leadingSpaces l)) as [sp| |];
      cbn [mbind outcome_bind]; try done.
    destruct (index (Lines a) (r - row a)) as [s| |];
      cbn [mbind outcome_bind]; try done.
    intros [= <-]. eexists. split; [reflexivity|]. intros _ He.
    apply append_eq_nil in He as [_ He].
    by apply append_eq_nil in He as [He _]. }
  intros [= <-]. exists "". by rewrite append_nil_r.
Qed.

Lemma writeRow_grows r annots b b' :
  writeRow r annots b = Done b' ->
  exists t, b' = b +:+ t
    /\ ((exists a, a ∈ annots /\ drawnOn r a = true) -> t <> "").
Proof.
  revert b. induction annots as [|a annots IH]; intros b; cbn [writeRow].
  { intros [= <-]. exists "". rewrite append_nil_r. split; [done|].
    intros (a & Ha & _). by inversion Ha. }
  destruct (writeSegment r a b) as [b1| |] eqn:Hseg; cbn [mbind outcome_bind];
    try done.
  intros Hrow.
  apply writeSegment_grows in Hseg as (t1 & -> & Ht1).
  apply IH in Hrow as (t2 & -> & Ht2).
  exists (t1 +:+ t2). split; [by rewrite append_assoc|].
  intros (x & Hx & Hd) He. apply append_eq_nil in He as [He1 He2].
  apply elem_of_cons in Hx as [-> | Hx]; [by apply Ht1 | apply Ht2; eauto].
Qed.

Lemma rowCountOf_drawn annots r :
  0 <= r < rowCountOf annots -> exists a, a ∈ annots /\ drawnOn r a = true.
Proof.
  unfold rowCountOf.
  assert (forall m,
            r < fold_left (fun m a => Z.max m (row a + len (lines a))) annots m ->
            r < m \/ exists a, a ∈ annots /\ drawnOn r a = true) as H.
  { induction annots as [|a annots IH]; intros m; cbn [fold_left]; [by left|].
    intros Hr. destruct (IH _ Hr) as [Hm | (x & Hx & Hd)].
    - destruct (Z.lt_ge_cases r m); [by left|]. right. exists a.
      split; [by left|]. unfold drawnOn. apply Z.ltb_lt. lia.
    - right. exists x. split; [by right | done]. }
  intros [H0 Hr]. destruct (H 0 Hr) as [? | ?]; [lia | done].
Qed.

(** X17: no body row is blank.  For every row below
    [max(a.row + len(a.lines))], the count of rows that [write] loops over,
    the text built for the row is not empty whenever it is built. *)
Theorem no_body_row_is_blank (annots : list Annot) (r : Z) (b : string) :
  0 <= r < rowCountOf annots ->
  writeRow r annots "" = Done b -> b <> "".
Proof.
  intros Hr Hrow. apply writeRow_grows in Hrow as (t & -> & Ht).
  change ("" +:+ t) with t. apply Ht. by apply rowCountOf_drawn.
Qed.

Lemma no_body_row_is_blank_witness :
  writeRow 0 [createLines asciiWidth (newAnnot 0 ["a"])] "" <> Done "".
Proof.
  intros H.
  apply (no_body_row_is_blank [createLines asciiWidth (newAnnot 0 ["a"])] 0 "");
    [ split; [lia | vm_compute; reflexivity] | exact H | reflexivity ].
Defined.

(** ** The blank counts written *)

(** X19: [setSpace] returns for every row [rowBefore >= 0] when each right
    annotation has a pipe slot for every row above it.  It sets one blank
    count, that of row [rowBefore] of the first right annotation drawn on
    the row (the pipe slot of the row, or the indent of the label line
    there), to [N.Col - a.Col - 1] in [int] arithmetic, and changes nothing
    when no right annotation is drawn on the row. *)
Theorem setSpace_sets_one_blank_count (rowBefore : Z) (a : Annot)
    (rightAnnots : list Annot) :
  0 <= rowBefore -> Forall hasPipeSlots rightAnnots ->
  setSpace rowBefore a rightAnnots
  = Done (setBlanks rowBefore (fun N => sub64 (sub64 (Col N) (Col a)) 1)
            rightAnnots).
Proof. intros Hr Hwf. by apply setSpace_exact. Qed.

Lemma setSpace_sets_one_blank_count_witness :
  setSpace 0 (createLines asciiWidth (newAnnot 0 ["line1"]))
    [createLines asciiWidth (newAnnot 4 ["b"])]
  = Done (setBlanks 0
            (fun N => sub64 (sub64 (Col N)
                               (Col (createLines asciiWidth (newAnnot 0 ["line1"]))))
                        1)
            [createLines asciiWidth (newAnnot 4 ["b"])]).
Proof.
  apply (setSpace_sets_one_blank_count 0
           (createLines asciiWidth (newAnnot 0 ["line1"]))
           [createLines asciiWidth (newAnnot 4 ["b"])]).
  - lia.
  - repeat constructor. unfold hasPipeSlots. vm_compute. discriminate.
Defined.

(** X20: [checkLineAndSetSpace] returns for a label line [i] of [a] and a
    row [r + i >= 0] when each right annotation has a pipe slot for every
    row above it.  When the line fits it leaves [a] and sets one blank
    count, that of row [r + i] of the first right annotation drawn on the
    row, to [N.Col - a.Col - (3 + width)] in [int] arithmetic (none when no
    right annotation is drawn there); when the line does not fit it leaves
    the right annotations, increments [a.row] and appends [a.Col] to
    [a.pipeLeadingSpaces]. *)
Theorem checkLineAndSetSpace_sets_one_blank_count (r i : Z) (a : Annot)
    (rightAnnots : list Annot) (l : line.t) :
  0 <= r + i -> 0 <= i -> lines a !! Z.to_nat i = Some l ->
  Forall hasPipeSlots rightAnnots ->
  checkLineAndSetSpace r i a rightAnnots
  = if lineFits r i a rightAnnots
    then Done (true, a,
               setBlanks (r + i)
                 (fun N => sub64 (sub64 (Col N) (Col a))
                             (add64 3 (line.length l)))
                 rightAnnots)
    else Done (false, pushedDown a, rightAnnots).
Proof.
  intros Hr Hi Hl Hwf.
  rewrite (checkLineAndSetSpace_exact r i a rightAnnots l) by done.
  by destruct (lineFits r i a rightAnnots).
Qed.

Lemma checkLineAndSetSpace_sets_one_blank_count_witness :
  checkLineAndSetSpace 0 0 (createLines asciiWidth (newAnnot 0 ["l"]))
    [createLines asciiWidth (newAnnot 9 ["b"])]
  = if lineFits 0 0 (createLines asciiWidth (newAnnot 0 ["l"]))
         [createLines asciiWidth (newAnnot 9 ["b"])]
    then Done (true, createLines asciiWidth (newAnnot 0 ["l"]),
               setBlanks (0 + 0)
                 (fun N => sub64 (sub64 (Col N)
                                    (Col (createLines asciiWidth (newAnnot 0 ["l"]))))
                             (add64 3 (line.length (line.mk 1 0))))
                 [createLines asciiWidth (newAnnot 9 ["b"])])
    else Done (false, pushedDown (createLines asciiWidth (newAnnot 0 ["l"])),
               [createLines asciiWidth (newAnnot 9 ["b"])]).
Proof.
  apply (checkLineAndSetSpace_sets_one_blank_count 0 0
           (createLines asciiWidth (newAnnot 0 ["l"]))
           [createLines asciiWidth (newAnnot 9 ["b"])] (line.mk 1 0)).
  - lia.
  - lia.
  - reflexivity.
  - repeat constructor. unfold hasPipeSlots. vm_compute. discriminate.
Defined.

Lemma forallb_false {A} (f : A -> bool) (l : list A) :
  forallb f l = false -> exists x, In x l /\ f x = false.
Proof.
  induction l as [|x l IH]; cbn [forallb]; [done|].
  destruct (f x) eqn:Hx; cbn [andb].
  - intros H. destruct (IH H) as (y & Hy & Hfy). exists y. split; [by right | done].
  - intros _. exists x. split; [by left | done].
Qed.

(** X21: [checkLinesAndSetSpaces] returns for a row [r >= 0] when each
    right annotation has a pipe slot for every row above it; it answers
    [false] iff some label line of [a] does not fit at the row, and then [a]
    has been moved down by one row, whatever the number of lines that do not
    fit; of the right annotations it changes blank counts only. *)
Theorem checkLinesAndSetSpaces_stops_at_first_misfit (r : Z) (a : Annot)
    (rightAnnots : list Annot) :
  0 <= r -> Forall hasPipeSlots rightAnnots ->
  exists rs,
    checkLinesAndSetSpaces r a rightAnnots
    = Done (annotFits r a rightAnnots,
            (if annotFits r a rightAnnots then a else pushedDown a), rs)
    /\ Forall2 sameShape rightAnnots rs
    /\ (annotFits r a rightAnnots = false <->
        exists j : nat, (j < List.length (lines a))%nat
                        /\ lineFits r (Z.of_nat j) a rightAnnots = false).
Proof.
  intros Hr Hwf.
  destruct (checkLinesAndSetSpaces_spec r a rightAnnots Hr Hwf) as (rs & Heq & Hsh).
  exists rs. split_and!; [done | done |].
  unfold annotFits. split.
  - intros Hf. apply forallb_false in Hf as (j & Hj & Hfj).
    exists j. split; [|done]. apply in_seq in Hj. lia.
  - intros (j & Hj & Hfj). apply not_true_iff_false. intros Hall.
    rewrite forallb_forall in Hall. specialize (Hall j).
    rewrite Hall in Hfj; [done|]. apply in_seq. lia.
Qed.

Lemma checkLinesAndSetSpaces_stops_at_first_misfit_witness :
  exists rs,
    checkLinesAndSetSpaces 0 (createLines asciiWidth (newAnnot 0 ["line1"]))
      [createLines asciiWidth (newAnnot 4 ["b"])]
    = Done (annotFits 0 (createLines asciiWidth (newAnnot 0 ["line1"]))
              [createLines asciiWidth (newAnnot 4 ["b"])],
            (if annotFits 0 (createLines asciiWidth (newAnnot 0 ["line1"]))
                  [createLines asciiWidth (newAnnot 4 ["b"])]
             then createLines asciiWidth (newAnnot 0 ["line1"])
             else pushedDown (createLines asciiWidth (newAnnot 0 ["line1"]))), rs)
    /\ Forall2 sameShape [createLines asciiWidth (newAnnot 4 ["b"])] rs
    /\ (annotFits 0 (createLines asciiWidth (newAnnot 0 ["line1"]))
          [createLines asciiWidth (newAnnot 4 ["b"])] = false <->
        exists j : nat,
          (j < List.length (lines (createLines asciiWidth (newAnnot 0 ["line1"]))))%nat
          /\ lineFits 0 (Z.of_nat j) (createLines asciiWidth (newAnnot 0 ["line1"]))
               [createLines asciiWidth (newAnnot 4 ["b"])] = false).
Proof.
  apply (checkLinesAndSetSpaces_stops_at_first_misfit 0
           (createLines asciiWidth (newAnnot 0 ["line1"]))
           [createLines asciiWidth (newAnnot 4 ["b"])]).
  - lia.
  - repeat constructor. unfold hasPipeSlots. vm_compute. discriminate.
Defined.

(** ** The errors of [Write] *)

(** X22: [Write] builds no error of its own.  Whatever the arguments,
    whenever a call returns an error, that error is one that an [Fprint]
    call on its writer returned. *)
Theorem Write_error_is_the_writers (StringWidth : string -> Z) {W : Type}
    `{Writer W} (w : W) (annots : list Annot) st w' e :
  Write StringWidth w annots = Done (st, w', Some e) ->
  exists w0 s, Fprint w0 s = (w', Some e).
Proof.
  unfold Write. intros HW.
  destruct (len (CompactFunc annots) =? 0); [done|].
  destruct (place StringWidth (CompactFunc annots)) as [st1| |];
    cbn [mbind outcome_bind] in HW; try done.
  destruct (write w st1) as [[w1 e1]| |] eqn:Hwrite;
    cbn [mbind outcome_bind] in HW; try done.
  injection HW as <- <- ->. by eapply write_error.
Qed.

Lemma Write_error_is_the_writers_witness :
  exists w0 s, Fprint w0 s = (Closed, Some (WriterError "closed")).
Proof.
  apply (Write_error_is_the_writers asciiWidth Closed [newAnnot 0 []]
           [with_lines (newAnnot 0 []) [line.mk 0 0]]).
  vm_compute. reflexivity.
Defined.
